(** * Secure chttp2 server listener: handshake coordination and shutdown

    A shallow embedding of
    [src/core/ext/transport/chttp2/server/secure/server_secure_chttp2.c]:
    the pending-handshake registry, the accept path, the handshake-done
    callback, the listener start/destroy callbacks, the shutdown-complete
    closure and the port binder, followed by the properties of the design
    document that can be stated over them.

    Every C function of the file is a computation in a small state/error
    monad over a [world]: the heap cell holding the listener's
    [server_secure_state], the collaborators' observable state and the
    chronological trace of calls made to the collaborators. *)

From Stdlib Require Import ZArith List String Bool Arith Lia DecimalString Permutation.
Import ListNotations.
Open Scope string_scope.
Open Scope list_scope.
Open Scope Z_scope.

(** ** Data model *)

(** Pointers to collaborator objects are opaque identities; [0] is NULL. *)
Definition ptr := Z.
Definition NULL : ptr := 0.

Inductive gpr_clock_type := GPR_CLOCK_MONOTONIC | GPR_CLOCK_REALTIME | GPR_TIMESPAN.

Record gpr_timespec := {
  tv_sec : Z;
  tv_nsec : Z;
  clock_type : gpr_clock_type
}.

Inductive gpr_log_severity := GPR_DEBUG | GPR_INFO | GPR_ERROR.

Inductive grpc_security_status := GRPC_SECURITY_OK | GRPC_SECURITY_ERROR.

(** [grpc_error*]: [GRPC_ERROR_NONE] is [None] of [option grpc_error]. *)
#[warnings="-register-all"]
Inductive grpc_error :=
| error_create (desc : string) (referencing : list grpc_error)
| error_set_int (e : grpc_error) (which : string) (value : Z)
| error_external (id : Z).

Definition GRPC_ERROR_NONE : option grpc_error := None.

Inductive grpc_arg :=
| server_credentials_arg (creds : ptr).

Inductive grpc_channel_args :=
| server_channel_args (server : ptr)
| channel_args_at (p : ptr)
| channel_args_copy (src : grpc_channel_args) (to_add : list grpc_arg).

Record grpc_transport := {
  transport_args : grpc_channel_args;
  transport_endpoint : ptr;
  transport_is_client : Z
}.

Record grpc_closure := {
  cb : ptr;
  cb_arg : ptr
}.

Record grpc_server_credentials := {
  creds_ptr : ptr;
  type : string
}.

(** [pending_handshake_manager_node] lists are Rocq lists of handshake
    manager pointers, head first. *)
Record server_secure_state := {
  server : ptr;
  tcp_server : ptr;
  sc : ptr;
  creds : ptr;
  shutdown : bool;
  server_destroy_listener_done : option grpc_closure;
  pending_handshake_mgrs : list ptr
}.

(** [server_state] is not a field here: a world holds the single
    [server_secure_state] every connection of the listener points to. *)
Record server_secure_connection_state := {
  accepting_pollset : ptr;
  acceptor : ptr;
  handshake_mgr : ptr
}.

Record grpc_handshaker_args := {
  endpoint : ptr;
  args : grpc_channel_args;
  read_buffer : ptr;
  user_data : server_secure_connection_state
}.

(** The one completion callback this file hands to the handshake manager. *)
Inductive handshake_callback := on_handshake_done_cb.

(** Calls made to collaborators, in the order the code makes them. *)
Inductive event :=
| E_mu_init
| E_mu_lock
| E_mu_unlock
| E_mu_destroy
| E_log (severity : gpr_log_severity) (format : string) (e : grpc_error)
| E_endpoint_destroy (ep : ptr)
| E_free_read_buffer (buf : ptr)
| E_free_connection_state (c : server_secure_connection_state)
| E_malloc_state
| E_free_state
| E_handshake_manager_create (mgr : ptr)
| E_handshake_manager_shutdown (mgr : ptr)
| E_handshake_manager_destroy (mgr : ptr)
| E_create_handshakers (sc : ptr) (mgr : ptr)
| E_do_handshake (mgr : ptr) (ep : ptr) (a : grpc_channel_args)
                 (deadline : gpr_timespec) (acceptor : ptr)
                 (on_done : handshake_callback)
                 (user_data : server_secure_connection_state)
| E_create_chttp2_transport (t : grpc_transport)
| E_server_setup_transport (server : ptr) (t : grpc_transport)
                           (pollset : ptr) (a : grpc_channel_args)
| E_transport_start_reading (t : grpc_transport) (buf : ptr)
| E_channel_args_destroy (a : grpc_channel_args)
| E_tcp_server_create (a : grpc_channel_args)
| E_tcp_server_ref (ts : ptr)
| E_tcp_server_unref (ts : ptr)
| E_tcp_server_start (ts : ptr) (pollsets : list ptr)
| E_tcp_server_shutdown_listeners (ts : ptr)
| E_tcp_server_add_port (ts : ptr) (i : nat) (addr : Z)
| E_security_connector_create (creds : ptr)
| E_security_connector_unref (sc : ptr)
| E_credentials_ref (creds : ptr)
| E_credentials_unref (creds : ptr)
| E_resolve_address (addr : string) (default_port : string)
| E_resolved_addresses_destroy
| E_malloc_errors (n : nat)
| E_free_errors
| E_error_unref (e : option grpc_error)
| E_closure_run (c : grpc_closure) (error : option grpc_error)
| E_exec_ctx_flush
| E_exec_ctx_finish
| E_server_add_listener (server : ptr).

(** The world of one listener. [listener] is the heap cell [state] points
    to: [None] before [gpr_malloc] and after [gpr_free(state)]. *)
Record world := {
  listener : option server_secure_state;
  tcp_refs : nat;
  next_handshake_mgr : ptr;
  clock : gpr_timespec;
  trace : list event
}.

Definition with_listener (l : option server_secure_state) (w : world) : world :=
  {| listener := l; tcp_refs := tcp_refs w;
     next_handshake_mgr := next_handshake_mgr w;
     clock := clock w; trace := trace w |}.

Definition with_tcp_refs (n : nat) (w : world) : world :=
  {| listener := listener w; tcp_refs := n;
     next_handshake_mgr := next_handshake_mgr w;
     clock := clock w; trace := trace w |}.

Definition with_next_handshake_mgr (p : ptr) (w : world) : world :=
  {| listener := listener w; tcp_refs := tcp_refs w;
     next_handshake_mgr := p;
     clock := clock w; trace := trace w |}.

Definition with_trace (t : list event) (w : world) : world :=
  {| listener := listener w; tcp_refs := tcp_refs w;
     next_handshake_mgr := next_handshake_mgr w;
     clock := clock w; trace := t |}.

Definition with_shutdown (b : bool) (s : server_secure_state) : server_secure_state :=
  {| server := server s; tcp_server := tcp_server s; sc := sc s; creds := creds s;
     shutdown := b;
     server_destroy_listener_done := server_destroy_listener_done s;
     pending_handshake_mgrs := pending_handshake_mgrs s |}.

Definition with_server_destroy_listener_done (c : option grpc_closure)
  (s : server_secure_state) : server_secure_state :=
  {| server := server s; tcp_server := tcp_server s; sc := sc s; creds := creds s;
     shutdown := shutdown s;
     server_destroy_listener_done := c;
     pending_handshake_mgrs := pending_handshake_mgrs s |}.

Definition with_pending_handshake_mgrs (l : list ptr)
  (s : server_secure_state) : server_secure_state :=
  {| server := server s; tcp_server := tcp_server s; sc := sc s; creds := creds s;
     shutdown := shutdown s;
     server_destroy_listener_done := server_destroy_listener_done s;
     pending_handshake_mgrs := l |}.

(** ** The monad: state passing with assertion failure and memory fault *)

Inductive outcome (A : Type) :=
| Ok (a : A) (w : world)
| AssertionFailed
| Fault.
Arguments Ok {A} a w.
Arguments AssertionFailed {A}.
Arguments Fault {A}.

Definition M (A : Type) := world -> outcome A.

Definition ret {A} (a : A) : M A := fun w => Ok a w.

Definition bind {A B} (m : M A) (k : A -> M B) : M B :=
  fun w => match m w with
           | Ok a w' => k a w'
           | AssertionFailed => AssertionFailed
           | Fault => Fault
           end.

Declare Scope prog_scope.
Delimit Scope prog_scope with prog.
Notation "x <- m ;; k" := (bind m (fun x => k))
  (at level 61, m at next level, right associativity) : prog_scope.
Notation "m ;; k" := (bind m (fun _ => k))
  (at level 61, right associativity) : prog_scope.
Open Scope prog_scope.

Definition emit (e : event) : M unit :=
  fun w => Ok tt (with_trace (trace w ++ [e]) w).

Definition GPR_ASSERT (b : bool) : M unit :=
  fun w => if b then Ok tt w else AssertionFailed.

(** [state->field]: a read of the listener's heap cell. *)
Definition get {A} (field : server_secure_state -> A) : M A :=
  fun w => match listener w with
           | Some s => Ok (field s) w
           | None => Fault
           end.

(** [state->field = v]: a write to the listener's heap cell. *)
Definition modify (f : server_secure_state -> server_secure_state) : M unit :=
  fun w => match listener w with
           | Some s => Ok tt (with_listener (Some (f s)) w)
           | None => Fault
           end.

(** ** Collaborators *)

Definition gpr_mu_init : M unit := emit E_mu_init.
Definition gpr_mu_lock : M unit := emit E_mu_lock.
Definition gpr_mu_unlock : M unit := emit E_mu_unlock.
Definition gpr_mu_destroy : M unit := emit E_mu_destroy.
Definition gpr_log (sev : gpr_log_severity) (format : string) (e : grpc_error) : M unit :=
  emit (E_log sev format e).
Definition grpc_endpoint_destroy (ep : ptr) : M unit := emit (E_endpoint_destroy ep).
Definition grpc_handshake_manager_shutdown (mgr : ptr) : M unit :=
  emit (E_handshake_manager_shutdown mgr).
Definition grpc_handshake_manager_destroy (mgr : ptr) : M unit :=
  emit (E_handshake_manager_destroy mgr).
Definition grpc_channel_args_destroy (a : grpc_channel_args) : M unit :=
  emit (E_channel_args_destroy a).
Definition grpc_exec_ctx_flush : M unit := emit E_exec_ctx_flush.
Definition grpc_exec_ctx_finish : M unit := emit E_exec_ctx_finish.
Definition GRPC_SECURITY_CONNECTOR_UNREF (p : ptr) : M unit :=
  emit (E_security_connector_unref p).
Definition grpc_server_credentials_unref (p : ptr) : M unit :=
  emit (E_credentials_unref p).
Definition GRPC_ERROR_UNREF (e : option grpc_error) : M unit :=
  emit (E_error_unref e).

Definition grpc_server_credentials_to_arg (c : ptr) : grpc_arg :=
  server_credentials_arg c.
Definition grpc_channel_args_copy_and_add (src : grpc_channel_args)
  (to_add : list grpc_arg) : grpc_channel_args :=
  channel_args_copy src to_add.
Definition grpc_server_get_channel_args (srv : ptr) : grpc_channel_args :=
  server_channel_args srv.

Definition grpc_create_chttp2_transport (a : grpc_channel_args) (ep : ptr)
  (is_client : Z) : M grpc_transport :=
  let t := {| transport_args := a; transport_endpoint := ep;
              transport_is_client := is_client |} in
  emit (E_create_chttp2_transport t) ;; ret t.

(** Modelled from the spec: a handshake manager is a handle with an
    identity of its own (handshaker.c, not part of this file):
    [grpc_handshake_manager_create] returns an allocation distinct from every
    handshake manager handed out before. *)
Definition grpc_handshake_manager_create : M ptr :=
  fun w =>
    let mgr := next_handshake_mgr w in
    Ok mgr (with_trace (trace w ++ [E_handshake_manager_create mgr])
              (with_next_handshake_mgr (mgr + 1) w)).

(** Modelled from the spec: the network listener (tcp_server.c, not part of
    this file) is reference-counted; [acquire_ref]/[release_ref] move the
    count by one, and the listener reports its own shutdown complete only
    after its reference count reaches zero. *)
Definition grpc_tcp_server_ref (ts : ptr) : M unit :=
  fun w => Ok tt (with_trace (trace w ++ [E_tcp_server_ref ts])
                    (with_tcp_refs (S (tcp_refs w)) w)).

(** Modelled from the spec: [release_ref] of the network listener
    (tcp_server.c, not part of this file) takes one from its reference
    count. *)
Definition grpc_tcp_server_unref (ts : ptr) : M unit :=
  fun w => Ok tt (with_trace (trace w ++ [E_tcp_server_unref ts])
                    (with_tcp_refs (Nat.pred (tcp_refs w)) w)).

(** Modelled from the spec: the deadline is "120 seconds from the moment
    handshaking starts"; the support library's time arithmetic
    (time.c, not part of this file) is field-wise addition of a time span to
    a time point, with the nanoseconds carried into the seconds. *)
Definition GPR_NS_PER_SEC : Z := 1000000000.

(** Modelled from the spec: "the moment handshaking starts" is the reading
    of the clock (time.c, not part of this file) at the call. *)
Definition gpr_now (c : gpr_clock_type) : M gpr_timespec :=
  fun w => Ok {| tv_sec := tv_sec (clock w); tv_nsec := tv_nsec (clock w);
                 clock_type := c |} w.

(** Modelled from the spec: a span of [s] seconds (time.c, not part of this
    file). *)
Definition gpr_time_from_seconds (s : Z) (c : gpr_clock_type) : gpr_timespec :=
  {| tv_sec := s; tv_nsec := 0; clock_type := c |}.

(** Modelled from the spec: the time point [b] after [a] (time.c, not part
    of this file), on the clock of [a]. *)
Definition gpr_time_add (a b : gpr_timespec) : gpr_timespec :=
  let ns := tv_nsec a + tv_nsec b in
  if GPR_NS_PER_SEC <=? ns
  then {| tv_sec := tv_sec a + tv_sec b + 1; tv_nsec := ns - GPR_NS_PER_SEC;
          clock_type := clock_type a |}
  else {| tv_sec := tv_sec a + tv_sec b; tv_nsec := ns;
          clock_type := clock_type a |}.

(** ** Pending-handshake registry (lines 81-114) *)

Definition pending_handshake_manager_add_locked (handshake_mgr : ptr) : M unit :=
  modify (fun s =>
    with_pending_handshake_mgrs (handshake_mgr :: pending_handshake_mgrs s) s).

(** The loop of [pending_handshake_manager_remove_locked]: walk the nodes,
    unlink the first one whose [handshake_mgr] is the argument, and stop. *)
Fixpoint remove_node (handshake_mgr : ptr) (nodes : list ptr) : list ptr :=
  match nodes with
  | [] => []
  | node :: next =>
      if node =? handshake_mgr then next
      else node :: remove_node handshake_mgr next
  end.

Definition pending_handshake_manager_remove_locked (handshake_mgr : ptr) : M unit :=
  modify (fun s =>
    with_pending_handshake_mgrs
      (remove_node handshake_mgr (pending_handshake_mgrs s)) s).

(** The loop of [pending_handshake_manager_shutdown_locked]: one shutdown
    signal per node, in list order. *)
Fixpoint shutdown_nodes (nodes : list ptr) : M unit :=
  match nodes with
  | [] => ret tt
  | node :: next =>
      grpc_handshake_manager_shutdown node ;;
      shutdown_nodes next
  end.

Definition pending_handshake_manager_shutdown_locked : M unit :=
  nodes <- get pending_handshake_mgrs ;;
  shutdown_nodes nodes ;;
  modify (with_pending_handshake_mgrs []).

(** ** Handshake completion (lines 116-155) *)

Definition on_handshake_done (a : grpc_handshaker_args)
  (error : option grpc_error) : M unit :=
  let connection_state := user_data a in
  match error with
  | Some e =>
      gpr_log GPR_ERROR "Handshaking failed: %s" e ;;
      grpc_endpoint_destroy (endpoint a) ;;
      emit (E_free_read_buffer (read_buffer a)) ;;
      gpr_mu_lock
  | None =>
      gpr_mu_lock ;;
      is_shutdown <- get shutdown ;;
      if negb is_shutdown then
        state_creds <- get creds ;;
        let channel_arg := grpc_server_credentials_to_arg state_creds in
        let args_copy := grpc_channel_args_copy_and_add (args a) [channel_arg] in
        transport <- grpc_create_chttp2_transport args_copy (endpoint a) 0 ;;
        state_server <- get server ;;
        emit (E_server_setup_transport state_server transport
                (accepting_pollset connection_state) args_copy) ;;
        grpc_channel_args_destroy args_copy ;;
        emit (E_transport_start_reading transport (read_buffer a))
      else
        grpc_endpoint_destroy (endpoint a)
  end ;;
  pending_handshake_manager_remove_locked (handshake_mgr connection_state) ;;
  gpr_mu_unlock ;;
  grpc_handshake_manager_destroy (handshake_mgr connection_state) ;;
  state_tcp_server <- get tcp_server ;;
  grpc_tcp_server_unref state_tcp_server ;;
  emit (E_free_connection_state connection_state) ;;
  grpc_channel_args_destroy (args a).

(** ** Accept path (lines 157-187) *)

Definition on_accept (tcp : ptr) (accepting_pollset : ptr) (acceptor : ptr) : M unit :=
  gpr_mu_lock ;;
  is_shutdown <- get shutdown ;;
  if is_shutdown then
    gpr_mu_unlock ;;
    grpc_endpoint_destroy tcp
  else
    handshake_mgr <- grpc_handshake_manager_create ;;
    pending_handshake_manager_add_locked handshake_mgr ;;
    gpr_mu_unlock ;;
    state_tcp_server <- get tcp_server ;;
    grpc_tcp_server_ref state_tcp_server ;;
    let connection_state :=
      {| accepting_pollset := accepting_pollset;
         acceptor := acceptor;
         handshake_mgr := handshake_mgr |} in
    state_sc <- get sc ;;
    emit (E_create_handshakers state_sc handshake_mgr) ;;
    t <- gpr_now GPR_CLOCK_MONOTONIC ;;
    let deadline := gpr_time_add t (gpr_time_from_seconds 120 GPR_TIMESPAN) in
    state_server <- get server ;;
    emit (E_do_handshake handshake_mgr tcp
            (grpc_server_get_channel_args state_server)
            deadline acceptor on_handshake_done_cb connection_state).

(** ** Listener callbacks and shutdown completion (lines 189-233) *)

Definition server_start_listener (pollsets : list ptr) : M unit :=
  gpr_mu_lock ;;
  modify (with_shutdown false) ;;
  gpr_mu_unlock ;;
  state_tcp_server <- get tcp_server ;;
  emit (E_tcp_server_start state_tcp_server pollsets).

Definition tcp_server_shutdown_complete (error : option grpc_error) : M unit :=
  gpr_mu_lock ;;
  destroy_done <- get server_destroy_listener_done ;;
  is_shutdown <- get shutdown ;;
  GPR_ASSERT is_shutdown ;;
  pending_handshake_manager_shutdown_locked ;;
  gpr_mu_unlock ;;
  grpc_exec_ctx_flush ;;
  state_sc <- get sc ;;
  GRPC_SECURITY_CONNECTOR_UNREF state_sc ;;
  state_creds <- get creds ;;
  grpc_server_credentials_unref state_creds ;;
  match destroy_done with
  | Some c =>
      emit (E_closure_run c error) ;;
      grpc_exec_ctx_flush
  | None => ret tt
  end ;;
  gpr_mu_destroy ;;
  emit E_free_state ;;
  fun w => Ok tt (with_listener None w).

Definition server_destroy_listener (destroy_done : option grpc_closure) : M unit :=
  gpr_mu_lock ;;
  modify (with_shutdown true) ;;
  modify (with_server_destroy_listener_done destroy_done) ;;
  state_tcp_server <- get tcp_server ;;
  gpr_mu_unlock ;;
  emit (E_tcp_server_shutdown_listeners state_tcp_server) ;;
  grpc_tcp_server_unref state_tcp_server.

(** ** Port binder (lines 235-374) *)

(** What the collaborators answer during one bind call: the security layer,
    address resolution, and the network listener's [create] and [bind]
    (the latter per index and address, [inr port] on success). *)
Record bind_env := {
  create_security_connector : grpc_server_credentials -> grpc_security_status * ptr;
  blocking_resolve_address : string -> string -> grpc_error + list Z;
  tcp_server_create : grpc_channel_args -> grpc_error + ptr;
  tcp_server_add_port : ptr -> nat -> Z -> grpc_error + Z
}.

Definition GRPC_ERROR_CREATE (desc : string) : grpc_error := error_create desc [].

(** Modelled from the spec: the aggregate error built over the [errors]
    array "references every per-address failure" (error.c is not part of this
    file); slots holding [GRPC_ERROR_NONE] are successes and add nothing. *)
Fixpoint failures (errors : list (option grpc_error)) : list grpc_error :=
  match errors with
  | [] => []
  | Some e :: rest => e :: failures rest
  | None :: rest => failures rest
  end.

(** Modelled from the spec: an error that "references every per-address
    failure" of the array it is built over (error.c, not part of this
    file). *)
Definition GRPC_ERROR_CREATE_REFERENCING (desc : string)
  (errors : list (option grpc_error)) : grpc_error :=
  error_create desc (failures errors).

Definition GRPC_ERROR_INT_SECURITY_STATUS : string := "security_status".

Definition security_status_value (st : grpc_security_status) : Z :=
  match st with GRPC_SECURITY_OK => 0 | GRPC_SECURITY_ERROR => 1 end.

(** [%zu] of [gpr_asprintf]. *)
Definition PRIuPTR (n : nat) : string := NilZero.string_of_uint (Nat.to_uint n).

Definition is_null (p : ptr) : bool := p =? NULL.

Fixpoint unref_each (errors : list (option grpc_error)) : M unit :=
  match errors with
  | [] => ret tt
  | e :: rest => GRPC_ERROR_UNREF e ;; unref_each rest
  end.

Definition zeroed_state : server_secure_state :=
  {| server := NULL; tcp_server := NULL; sc := NULL; creds := NULL;
     shutdown := false; server_destroy_listener_done := None;
     pending_handshake_mgrs := [] |}.

Definition gpr_malloc_state : M unit :=
  emit E_malloc_state ;;
  fun w => Ok tt (with_listener (Some zeroed_state) w).

Definition gpr_free_state : M unit :=
  emit E_free_state ;;
  fun w => Ok tt (with_listener None w).

(** The [error:] label. [errors] and [resolved] are [None] while the C
    locals are NULL; [state] tells whether the state has been allocated. *)
Definition error_path (errors : option (list (option grpc_error)))
  (resolved : option (list Z)) (tcp_server : ptr) (sc : ptr) (state : bool)
  (err : option grpc_error) : M Z :=
  match err with
  | None => GPR_ASSERT false ;; ret 0
  | Some e =>
      match errors with
      | Some es => unref_each es ;; emit E_free_errors
      | None => ret tt
      end ;;
      match resolved with
      | Some _ => emit E_resolved_addresses_destroy
      | None => ret tt
      end ;;
      (if negb (is_null tcp_server) then
         grpc_tcp_server_unref tcp_server
       else
         (if negb (is_null sc) then
            grpc_exec_ctx_flush ;;
            GRPC_SECURITY_CONNECTOR_UNREF sc
          else ret tt) ;;
         (if state then gpr_free_state else ret tt)) ;;
      grpc_exec_ctx_finish ;;
      GRPC_ERROR_UNREF err ;;
      gpr_log GPR_ERROR "%s" e ;;
      ret 0
  end.

(** The binding loop of lines 298-309, from index [i] on. *)
Fixpoint add_ports (env : bind_env) (tcp_server : ptr) (addrs : list Z)
  (i : nat) (port_num : Z) (count : nat) (errors : list (option grpc_error))
  : M (Z * nat * list (option grpc_error)) :=
  match addrs with
  | [] => ret (port_num, count, errors)
  | addr :: rest =>
      emit (E_tcp_server_add_port tcp_server i addr) ;;
      match tcp_server_add_port env tcp_server i addr with
      | inr port_temp =>
          port_num' <- (if port_num =? -1 then ret port_temp
                        else GPR_ASSERT (port_num =? port_temp) ;; ret port_num) ;;
          add_ports env tcp_server rest (S i) port_num' (S count) (errors ++ [None])
      | inl e =>
          add_ports env tcp_server rest (S i) port_num count (errors ++ [Some e])
      end
  end.

(** Modelled from the spec: a network listener is created holding the one
    reference that the shutdown sequencer later releases ("the one held
    since binding"). *)
Definition grpc_tcp_server_create (env : bind_env) (a : grpc_channel_args)
  : M (grpc_error + ptr) :=
  emit (E_tcp_server_create a) ;;
  match tcp_server_create env a with
  | inl e => ret (inl e)
  | inr ts => (fun w => Ok (inr ts) (with_tcp_refs 1%nat w))
  end.

Definition grpc_server_add_secure_http2_port (env : bind_env) (server : ptr)
  (addr : string) (creds : option grpc_server_credentials) : M Z :=
  match creds with
  | None =>
      error_path None None NULL NULL false
        (Some (GRPC_ERROR_CREATE
           "No credentials specified for secure server port (creds==NULL)"))
  | Some c =>
      emit (E_security_connector_create (creds_ptr c)) ;;
      let '(status, sc) := create_security_connector env c in
      match status with
      | GRPC_SECURITY_ERROR =>
          let msg := ("Unable to create secure server with credentials of type "
                      ++ type c ++ ".")%string in
          error_path None None NULL sc false
            (Some (error_set_int (GRPC_ERROR_CREATE msg)
                     GRPC_ERROR_INT_SECURITY_STATUS (security_status_value status)))
      | GRPC_SECURITY_OK =>
          emit (E_resolve_address addr "https") ;;
          match blocking_resolve_address env addr "https" with
          | inl e => error_path None None NULL sc false (Some e)
          | inr addrs =>
              gpr_malloc_state ;;
              created <- grpc_tcp_server_create env (grpc_server_get_channel_args server) ;;
              match created with
              | inl e => error_path None (Some addrs) NULL sc true (Some e)
              | inr tcp_server =>
                  modify (fun s =>
                    {| server := server; tcp_server := tcp_server; sc := sc;
                       creds := creds_ptr c; shutdown := true;
                       server_destroy_listener_done := server_destroy_listener_done s;
                       pending_handshake_mgrs := pending_handshake_mgrs s |}) ;;
                  emit (E_credentials_ref (creds_ptr c)) ;;
                  gpr_mu_init ;;
                  let naddrs := List.length addrs in
                  emit (E_malloc_errors naddrs) ;;
                  looped <- add_ports env tcp_server addrs 0 (-1) 0 [] ;;
                  let '(port_num, count, errors) := looped in
                  if (count =? 0)%nat then
                    let msg := ("No address added out of total "
                                ++ PRIuPTR naddrs ++ " resolved")%string in
                    error_path (Some errors) (Some addrs) tcp_server sc true
                      (Some (GRPC_ERROR_CREATE_REFERENCING msg errors))
                  else
                    (if negb (count =? naddrs)%nat then
                       let msg := ("Only " ++ PRIuPTR count
                                   ++ " addresses added out of total "
                                   ++ PRIuPTR naddrs ++ " resolved")%string in
                       gpr_log GPR_INFO "WARNING: %s"
                         (GRPC_ERROR_CREATE_REFERENCING msg errors)
                     else unref_each errors) ;;
                    emit E_free_errors ;;
                    emit E_resolved_addresses_destroy ;;
                    emit (E_server_add_listener server) ;;
                    grpc_exec_ctx_finish ;;
                    ret port_num
              end
          end
      end
  end.

(** ** The binding loop as a function of the collaborator's answers *)

(** The answers of [grpc_tcp_server_add_port] for [addrs], from index [i]. *)
Fixpoint port_results (env : bind_env) (tcp_server : ptr) (addrs : list Z)
  (i : nat) : list (grpc_error + Z) :=
  match addrs with
  | [] => []
  | addr :: rest =>
      tcp_server_add_port env tcp_server i addr
      :: port_results env tcp_server rest (S i)
  end.

Fixpoint add_port_events (tcp_server : ptr) (addrs : list Z) (i : nat) : list event :=
  match addrs with
  | [] => []
  | addr :: rest =>
      E_tcp_server_add_port tcp_server i addr :: add_port_events tcp_server rest (S i)
  end.

(** Ports of the successful bindings, and errors of the failed ones. *)
Fixpoint successes (rs : list (grpc_error + Z)) : list Z :=
  match rs with
  | [] => []
  | inr port :: rest => port :: successes rest
  | inl _ :: rest => successes rest
  end.

Fixpoint failed (rs : list (grpc_error + Z)) : list grpc_error :=
  match rs with
  | [] => []
  | inr _ :: rest => failed rest
  | inl e :: rest => e :: failed rest
  end.

Definition error_slot (r : grpc_error + Z) : option grpc_error :=
  match r with inl e => Some e | inr _ => None end.

(** [port_num], [count] and [errors] after the loop; [None] when
    [GPR_ASSERT(port_num == port_temp)] fails on the way. *)
Fixpoint scan_ports (rs : list (grpc_error + Z)) (port_num : Z) (count : nat)
  (errors : list (option grpc_error))
  : option (Z * nat * list (option grpc_error)) :=
  match rs with
  | [] => Some (port_num, count, errors)
  | inr port_temp :: rest =>
      if port_num =? -1 then scan_ports rest port_temp (S count) (errors ++ [None])
      else if port_num =? port_temp
           then scan_ports rest port_num (S count) (errors ++ [None])
           else None
  | inl e :: rest => scan_ports rest port_num count (errors ++ [Some e])
  end.

(** ** The handshake manager's side of a handshake *)

(** What [grpc_handshake_manager_do_handshake] was handed. *)
Record pending_handshake := {
  hs_mgr : ptr;
  hs_endpoint : ptr;
  hs_args : grpc_channel_args;
  hs_deadline : gpr_timespec;
  hs_acceptor : ptr;
  hs_on_done : handshake_callback;
  hs_user_data : server_secure_connection_state
}.

Definition handshake_of_event (e : event) : option pending_handshake :=
  match e with
  | E_do_handshake mgr ep a deadline acc on_done ud =>
      Some {| hs_mgr := mgr; hs_endpoint := ep; hs_args := a;
              hs_deadline := deadline; hs_acceptor := acc;
              hs_on_done := on_done; hs_user_data := ud |}
  | _ => None
  end.

(** The handshake started by the call that has just returned, if any. *)
Definition handshake_started (w : world) : option pending_handshake :=
  match rev (trace w) with
  | e :: _ => handshake_of_event e
  | [] => None
  end.

Definition invoke (f : handshake_callback)
  : grpc_handshaker_args -> option grpc_error -> M unit :=
  match f with
  | on_handshake_done_cb => on_handshake_done
  end.

Definition gpr_time_lt (a b : gpr_timespec) : bool :=
  (tv_sec a <? tv_sec b) || ((tv_sec a =? tv_sec b) && (tv_nsec a <? tv_nsec b)).

(** Modelled from the spec: the handshake manager (handshaker.c, not part of
    this file) surfaces a handshake that exceeds its deadline "as a timeout
    failure through the same completion path as any other handshake error":
    past the deadline it calls the completion callback it was handed, with
    the user data it was handed and an error. *)
Definition handshake_timed_out : grpc_error := GRPC_ERROR_CREATE "Handshake timed out".

(** Modelled from the spec: what the handshake manager (handshaker.c, not
    part of this file) does with handshake [h] when it finds the clock past
    the deadline of [h]. *)
Definition handshake_deadline_exceeded (h : pending_handshake)
  (read_buffer : ptr) : M unit :=
  fun w =>
    if gpr_time_lt (hs_deadline h) (clock w) then
      invoke (hs_on_done h)
        {| endpoint := hs_endpoint h; args := hs_args h;
           read_buffer := read_buffer; user_data := hs_user_data h |}
        (Some handshake_timed_out) w
    else Ok tt w.

(** ** The listener's lifecycle *)

(** The calls the collaborators make into this file. *)
Inductive op :=
| Op_tick (t : gpr_timespec)
| Op_bind (env : bind_env) (server : ptr) (addr : string)
          (creds : option grpc_server_credentials)
| Op_start (pollsets : list ptr)
| Op_accept (tcp : ptr) (accepting_pollset : ptr) (acceptor : ptr)
| Op_handshake_done (a : grpc_handshaker_args) (error : option grpc_error)
| Op_handshake_timeout (mgr : ptr) (read_buffer : ptr)
| Op_destroy (destroy_done : option grpc_closure)
| Op_shutdown_complete (error : option grpc_error).

(** A listener together with what its collaborators hold: the handshakes
    started and not yet completed, whether the server still holds the
    reference taken at binding, and whether a bind call has been made. *)
Record system := {
  sys_world : world;
  in_flight : list pending_handshake;
  listener_ref_held : bool;
  bound : bool
}.

Definition with_world (w : world) (s : system) : system :=
  {| sys_world := w; in_flight := in_flight s;
     listener_ref_held := listener_ref_held s; bound := bound s |}.

Definition with_clock (t : gpr_timespec) (w : world) : world :=
  {| listener := listener w; tcp_refs := tcp_refs w;
     next_handshake_mgr := next_handshake_mgr w;
     clock := t; trace := trace w |}.

(** The first in-flight handshake of manager [mgr], and the others. *)
Fixpoint take_handshake (mgr : ptr) (l : list pending_handshake)
  : option (pending_handshake * list pending_handshake) :=
  match l with
  | [] => None
  | h :: rest =>
      if hs_mgr h =? mgr then Some (h, rest)
      else match take_handshake mgr rest with
           | Some (found, rest') => Some (found, h :: rest')
           | None => None
           end
  end.

Definition conn_eqb (a b : server_secure_connection_state) : bool :=
  (accepting_pollset a =? accepting_pollset b)
  && (acceptor a =? acceptor b)
  && (handshake_mgr a =? handshake_mgr b).

Definition completed {A} (o : outcome A) : option world :=
  match o with
  | Ok _ w => Some w
  | AssertionFailed => None
  | Fault => None
  end.

(** Modelled from the spec: the collaborators' calling discipline. The
    server binds once, starts a listener before it destroys it and destroys
    it once; the network listener delivers connections while it exists and
    reports shutdown complete when its reference count is zero; the
    handshake manager completes a handshake it was handed, once, with the
    user data it was handed. A call that is not enabled, fails an assertion
    or touches a freed state has no successor. Here every call runs to its
    end before the next one starts; calls whose steps interleave on several
    threads are the subject of [step] further down, of which the runs here
    are the special case [calls_of]. *)
Definition run_op (s : system) (o : op) : option system :=
  let w := sys_world s in
  match o with
  | Op_tick t => Some (with_world (with_clock t w) s)
  | Op_bind env srv addr c =>
      if bound s then None
      else match completed (grpc_server_add_secure_http2_port env srv addr c w) with
           | Some w' =>
               Some {| sys_world := w'; in_flight := [];
                       listener_ref_held := (0 <? tcp_refs w')%nat;
                       bound := true |}
           | None => None
           end
  | Op_start pollsets =>
      if listener_ref_held s then
        match completed (server_start_listener pollsets w) with
        | Some w' => Some (with_world w' s)
        | None => None
        end
      else None
  | Op_accept tcp pollset acc =>
      if (0 <? tcp_refs w)%nat then
        match completed (on_accept tcp pollset acc w) with
        | Some w' =>
            Some {| sys_world := w';
                    in_flight := match handshake_started w' with
                                 | Some h => h :: in_flight s
                                 | None => in_flight s
                                 end;
                    listener_ref_held := listener_ref_held s;
                    bound := bound s |}
        | None => None
        end
      else None
  | Op_handshake_done a error =>
      match take_handshake (handshake_mgr (user_data a)) (in_flight s) with
      | Some (h, rest) =>
          if conn_eqb (hs_user_data h) (user_data a) then
            match completed (invoke (hs_on_done h) a error w) with
            | Some w' =>
                Some {| sys_world := w'; in_flight := rest;
                        listener_ref_held := listener_ref_held s;
                        bound := bound s |}
            | None => None
            end
          else None
      | None => None
      end
  | Op_handshake_timeout mgr buf =>
      match take_handshake mgr (in_flight s) with
      | Some (h, rest) =>
          if gpr_time_lt (hs_deadline h) (clock w) then
            match completed (handshake_deadline_exceeded h buf w) with
            | Some w' =>
                Some {| sys_world := w'; in_flight := rest;
                        listener_ref_held := listener_ref_held s;
                        bound := bound s |}
            | None => None
            end
          else None
      | None => None
      end
  | Op_destroy destroy_done =>
      if listener_ref_held s then
        match completed (server_destroy_listener destroy_done w) with
        | Some w' =>
            Some {| sys_world := w'; in_flight := in_flight s;
                    listener_ref_held := false; bound := bound s |}
        | None => None
        end
      else None
  | Op_shutdown_complete error =>
      if bound s && (tcp_refs w =? 0)%nat then
        match completed (tcp_server_shutdown_complete error w) with
        | Some w' => Some (with_world w' s)
        | None => None
        end
      else None
  end.

Fixpoint run_ops (s : system) (ops : list op) : option system :=
  match ops with
  | [] => Some s
  | o :: rest =>
      match run_op s o with
      | Some s' => run_ops s' rest
      | None => None
      end
  end.

Definition initial_world (first_mgr : ptr) (t : gpr_timespec) : world :=
  {| listener := None; tcp_refs := 0; next_handshake_mgr := first_mgr;
     clock := t; trace := [] |}.

Definition initial_system (first_mgr : ptr) (t : gpr_timespec) : system :=
  {| sys_world := initial_world first_mgr t; in_flight := [];
     listener_ref_held := false; bound := false |}.

Definition reachable (s : system) : Prop :=
  exists first_mgr t ops, run_ops (initial_system first_mgr t) ops = Some s.

(** [state->shutdown], when the state exists. *)
Definition shutdown_flag (s : system) : option bool :=
  match listener (sys_world s) with
  | Some st => Some (shutdown st)
  | None => None
  end.

Definition is_start (o : op) : bool :=
  match o with Op_start _ => true | _ => false end.

Definition is_shutdown_complete (o : op) : bool :=
  match o with Op_shutdown_complete _ => true | _ => false end.

(** ** The calls of the handshake-done callback and of shutdown completion *)

(** The calls of the callback before it removes the registry entry. *)
Definition outcome_events (s : server_secure_state) (a : grpc_handshaker_args)
  (error : option grpc_error) : list event :=
  match error with
  | Some e =>
      [E_log GPR_ERROR "Handshaking failed: %s" e;
       E_endpoint_destroy (endpoint a);
       E_free_read_buffer (read_buffer a);
       E_mu_lock]
  | None =>
      if shutdown s then [E_mu_lock; E_endpoint_destroy (endpoint a)]
      else
        let args_copy := channel_args_copy (args a) [server_credentials_arg (creds s)] in
        let transport := {| transport_args := args_copy;
                            transport_endpoint := endpoint a;
                            transport_is_client := 0 |} in
        [E_mu_lock;
         E_create_chttp2_transport transport;
         E_server_setup_transport (server s) transport
           (accepting_pollset (user_data a)) args_copy;
         E_channel_args_destroy args_copy;
         E_transport_start_reading transport (read_buffer a)]
  end.

(** The calls every run of the callback ends with. *)
Definition cleanup_events (s : server_secure_state) (a : grpc_handshaker_args)
  : list event :=
  [E_mu_unlock;
   E_handshake_manager_destroy (handshake_mgr (user_data a));
   E_tcp_server_unref (tcp_server s);
   E_free_connection_state (user_data a);
   E_channel_args_destroy (args a)].

(** The calls the continuation stored by [server_destroy_listener] adds. *)
Definition destroy_done_events (s : server_secure_state)
  (error : option grpc_error) : list event :=
  match server_destroy_listener_done s with
  | Some c => [E_closure_run c error; E_exec_ctx_flush]
  | None => []
  end.

Definition shutdown_complete_events (s : server_secure_state)
  (error : option grpc_error) : list event :=
  [E_mu_lock]
  ++ map E_handshake_manager_shutdown (pending_handshake_mgrs s)
  ++ [E_mu_unlock; E_exec_ctx_flush;
      E_security_connector_unref (sc s);
      E_credentials_unref (creds s)]
  ++ destroy_done_events s error
  ++ [E_mu_destroy; E_free_state].

(** ** The calls of a bind that reaches the binding loop *)

Definition bound_state (srv tcp_server sc : ptr) (c : grpc_server_credentials)
  : server_secure_state :=
  {| server := srv; tcp_server := tcp_server; sc := sc; creds := creds_ptr c;
     shutdown := true; server_destroy_listener_done := None;
     pending_handshake_mgrs := [] |}.

Definition loop_events (srv : ptr) (addr : string) (c : grpc_server_credentials)
  (tcp_server : ptr) (addrs : list Z) : list event :=
  [E_security_connector_create (creds_ptr c);
   E_resolve_address addr "https";
   E_malloc_state;
   E_tcp_server_create (server_channel_args srv);
   E_credentials_ref (creds_ptr c);
   E_mu_init;
   E_malloc_errors (List.length addrs)]
  ++ add_port_events tcp_server addrs 0.

(** The world in which the policy of lines 310-333 is applied. *)
Definition after_loop (w : world) (srv : ptr) (addr : string)
  (c : grpc_server_credentials) (sc tcp_server : ptr) (addrs : list Z) : world :=
  {| listener := Some (bound_state srv tcp_server sc c);
     tcp_refs := 1;
     next_handshake_mgr := next_handshake_mgr w;
     clock := clock w;
     trace := trace w ++ loop_events srv addr c tcp_server addrs |}.

Definition no_address_added (naddrs : nat) (errors : list (option grpc_error))
  : grpc_error :=
  GRPC_ERROR_CREATE_REFERENCING
    ("No address added out of total " ++ PRIuPTR naddrs ++ " resolved")%string errors.

Definition only_some_added (count naddrs : nat) (errors : list (option grpc_error))
  : grpc_error :=
  GRPC_ERROR_CREATE_REFERENCING
    ("Only " ++ PRIuPTR count ++ " addresses added out of total "
     ++ PRIuPTR naddrs ++ " resolved")%string errors.

Definition is_log (e : event) : bool :=
  match e with E_log _ _ _ => true | _ => false end.

Definition is_connector_unref (e : event) : bool :=
  match e with E_security_connector_unref _ => true | _ => false end.

Definition is_credentials_unref (e : event) : bool :=
  match e with E_credentials_unref _ => true | _ => false end.

Definition is_manager_shutdown (e : event) : bool :=
  match e with E_handshake_manager_shutdown _ => true | _ => false end.


(** ** Invariant of the lifecycle *)

(** How an in-flight handshake was started by the accept path. *)
Definition started_by_accept (h : pending_handshake) : Prop :=
  handshake_mgr (hs_user_data h) = hs_mgr h.

(** While the listener state exists: the network listener's reference count
    is the binding reference plus one per handshake in flight; a listener
    whose binding reference is gone is shutting down; the registry holds
    exactly the managers of the handshakes in flight, each once; and neither
    connector nor credentials have been released. *)
Definition sys_inv (s : system) : Prop :=
  let w := sys_world s in
  match listener w with
  | Some st =>
      bound s = true
      /\ tcp_refs w = ((if listener_ref_held s then 1 else 0)
                       + List.length (in_flight s))%nat
      /\ (listener_ref_held s = false -> shutdown st = true)
      /\ pending_handshake_mgrs st = map hs_mgr (in_flight s)
      /\ NoDup (pending_handshake_mgrs st)
      /\ Forall (fun mgr => mgr < next_handshake_mgr w) (pending_handshake_mgrs st)
      /\ Forall started_by_accept (in_flight s)
      /\ filter is_connector_unref (trace w) = []
      /\ filter is_credentials_unref (trace w) = []
  | None => bound s = false -> trace w = []
  end.

(** The listener state has been freed (or never came to exist) after a bind. *)
Definition gone (s : system) : Prop :=
  listener (sys_world s) = None /\ bound s = true.

(** ** Resources a bind call can acquire *)

Definition acquires_resource (e : event) : bool :=
  match e with
  | E_security_connector_create _ => true
  | E_resolve_address _ _ => true
  | E_malloc_state => true
  | E_tcp_server_create _ => true
  | E_credentials_ref _ => true
  | E_mu_init => true
  | E_malloc_errors _ => true
  | E_tcp_server_add_port _ _ _ => true
  | E_server_add_listener _ => true
  | _ => false
  end.

(** ** Sample inputs *)

Definition sample_time : gpr_timespec :=
  {| tv_sec := 1000; tv_nsec := 250; clock_type := GPR_CLOCK_MONOTONIC |}.

Definition sample_state (flag : bool) (pending : list ptr) : server_secure_state :=
  {| server := 11; tcp_server := 12; sc := 13; creds := 14;
     shutdown := flag; server_destroy_listener_done := None;
     pending_handshake_mgrs := pending |}.

Definition sample_world (flag : bool) (pending : list ptr) : world :=
  {| listener := Some (sample_state flag pending); tcp_refs := 3;
     next_handshake_mgr := 100; clock := sample_time; trace := [] |}.

Definition sample_args (mgr : ptr) : grpc_handshaker_args :=
  {| endpoint := 21; args := server_channel_args 11; read_buffer := 22;
     user_data := {| accepting_pollset := 31; acceptor := 32;
                     handshake_mgr := mgr |} |}.

Definition sample_credentials : grpc_server_credentials :=
  {| creds_ptr := 14; type := "Ssl" |}.

(** A bind environment in which everything up to the binding loop succeeds
    and the per-address answers are those of [answers], by index. *)
Definition sample_env (addrs : list Z) (answers : list (grpc_error + Z)) : bind_env :=
  {| create_security_connector := fun _ => (GRPC_SECURITY_OK, 13);
     blocking_resolve_address := fun _ _ => inr addrs;
     tcp_server_create := fun _ => inr 12;
     tcp_server_add_port := fun _ i _ => nth i answers (inl (error_external 0)) |}.

(** ** Time as a number of nanoseconds *)

Definition nanoseconds (t : gpr_timespec) : Z :=
  tv_sec t * GPR_NS_PER_SEC + tv_nsec t.

(** ** Agreement of the successful bindings *)

Definition ports_disagree (rs : list (grpc_error + Z)) : Prop :=
  exists p q, In p (successes rs) /\ In q (successes rs) /\ p <> q.

Definition ports_agree (rs : list (grpc_error + Z)) : Prop :=
  forall p q, In p (successes rs) -> In q (successes rs) -> p = q.

(** The port of the first successful binding ([-1] when there is none). *)
Definition shared_port (rs : list (grpc_error + Z)) : Z :=
  hd (-1) (successes rs).

(** ** The partial-failure policy of the binder, as observable outcomes *)

Definition is_add_listener (e : event) : bool :=
  match e with E_server_add_listener _ => true | _ => false end.

Definition is_error_unref (e : event) : bool :=
  match e with E_error_unref _ => true | _ => false end.

(** The call fails: it returns 0 without registering a listener, and what it
    logs is the aggregate error over the failures of all [naddrs] addresses. *)
Definition bind_fails (rs : list (grpc_error + Z)) (w : world) (r : outcome Z) : Prop :=
  let naddrs := List.length rs in
  exists w' evs,
    r = Ok 0 w'
    /\ trace w' = trace w ++ evs
    /\ filter is_add_listener evs = []
    /\ filter is_log evs
       = [E_log GPR_ERROR "%s"
            (error_create ("No address added out of total " ++ PRIuPTR naddrs
                           ++ " resolved")%string (failed rs))]
    /\ List.length (failed rs) = naddrs.

(** The call succeeds with a warning: it registers the listener, returns the
    port that every successful binding reported, and logs one warning, which
    carries the failures of the [naddrs - count] other addresses. *)
Definition bind_succeeds_with_warning (srv : ptr) (rs : list (grpc_error + Z))
  (w : world) (r : outcome Z) : Prop :=
  let naddrs := List.length rs in
  let count := List.length (successes rs) in
  exists port w' evs,
    r = Ok port w'
    /\ Forall (eq port) (successes rs)
    /\ trace w' = trace w ++ evs
    /\ filter is_add_listener evs = [E_server_add_listener srv]
    /\ filter is_log evs
       = [E_log GPR_INFO "WARNING: %s"
            (error_create ("Only " ++ PRIuPTR count
                           ++ " addresses added out of total "
                           ++ PRIuPTR naddrs ++ " resolved")%string (failed rs))]
    /\ List.length (failed rs) = (naddrs - count)%nat.

(** The call succeeds silently: it registers the listener, returns the port
    that every binding reported, logs nothing, and drops each of the [naddrs]
    per-address markers, all of them [GRPC_ERROR_NONE]. *)
Definition bind_succeeds_silently (srv : ptr) (rs : list (grpc_error + Z))
  (w : world) (r : outcome Z) : Prop :=
  let naddrs := List.length rs in
  exists port w' evs,
    r = Ok port w'
    /\ Forall (eq port) (successes rs)
    /\ trace w' = trace w ++ evs
    /\ filter is_add_listener evs = [E_server_add_listener srv]
    /\ filter is_log evs = []
    /\ filter is_error_unref evs = repeat (E_error_unref None) naddrs.

(** The policy of lines 310-333 for [count] successes out of [naddrs]
    addresses, one case per branch: none bound, some but not all bound, all
    bound. The test for no success comes first, so a resolution to no address
    at all falls under the first case. *)
Definition bind_policy (srv : ptr) (rs : list (grpc_error + Z))
  (w : world) (r : outcome Z) : Prop :=
  let naddrs := List.length rs in
  let count := List.length (successes rs) in
  (count = 0%nat -> bind_fails rs w r)
  /\ ((0 < count < naddrs)%nat -> bind_succeeds_with_warning srv rs w r)
  /\ ((0 < count)%nat /\ count = naddrs -> bind_succeeds_silently srv rs w r).

(** The calls of the [error:] label. *)
Definition error_path_events (errors : option (list (option grpc_error)))
  (resolved : option (list Z)) (tcp_server sc : ptr) (state : bool)
  (e : grpc_error) : list event :=
  match errors with
  | Some es => map E_error_unref es ++ [E_free_errors]
  | None => []
  end
  ++ match resolved with
     | Some _ => [E_resolved_addresses_destroy]
     | None => []
     end
  ++ (if negb (is_null tcp_server) then [E_tcp_server_unref tcp_server]
      else (if negb (is_null sc)
            then [E_exec_ctx_flush; E_security_connector_unref sc] else [])
           ++ (if state then [E_free_state] else []))
  ++ [E_exec_ctx_finish; E_error_unref (Some e); E_log GPR_ERROR "%s" e].

(** ** Sample bind calls *)

(** Three addresses, the second of which fails to bind. *)
Definition sample_partial_env : bind_env :=
  sample_env [1; 2; 3] [inr 443; inl (error_external 5); inr 443].

(** An address that resolves to no concrete address. *)
Definition sample_unresolved_env : bind_env := sample_env [] [].

Definition sample_bound_world : world :=
  Eval vm_compute in
    match grpc_server_add_secure_http2_port sample_partial_env 11 "localhost:443"
            (Some sample_credentials) (initial_world 100 sample_time) with
    | Ok _ w' => w'
    | _ => initial_world 100 sample_time
    end.

(** ** The shutdown flag over a listener's life, as the design document
    words it *)

Definition shutdown_flag_never_reset : Prop :=
  forall first_mgr t ops1 ops2 s1 s2,
    run_ops (initial_system first_mgr t) ops1 = Some s1 ->
    shutdown_flag s1 = Some true ->
    run_ops s1 ops2 = Some s2 ->
    shutdown_flag s2 <> Some false.

(** ** Letting a listener finish *)

(** The natural completion of an in-flight handshake. *)
Definition completion_of (h : pending_handshake) : op :=
  Op_handshake_done
    {| endpoint := hs_endpoint h; args := hs_args h; read_buffer := NULL;
       user_data := hs_user_data h |}
    None.

(** Destroy the listener if the server has not yet, let every handshake in
    flight complete, and let the network listener report. *)
Definition finishing_ops (s : system) : list op :=
  (if listener_ref_held s then [Op_destroy None] else [])
  ++ map completion_of (in_flight s)
  ++ [Op_shutdown_complete None].

(** A full life: bind, start, two connections of which one completes before
    the server shuts down and one after, and the report of the network
    listener. *)
Definition sample_life_until_destroy : list op :=
  [Op_bind sample_partial_env 11 "localhost:443" (Some sample_credentials);
   Op_start [41; 42];
   Op_accept 21 31 32;
   Op_accept 23 31 32;
   Op_handshake_done (sample_args 100) None;
   Op_destroy (Some {| cb := 51; cb_arg := 52 |})].

Definition sample_life_after_destroy : list op :=
  [Op_accept 24 31 32;
   Op_handshake_done
     {| endpoint := 23; args := server_channel_args 11; read_buffer := 22;
        user_data := {| accepting_pollset := 31; acceptor := 32;
                        handshake_mgr := 101 |} |} None;
   Op_shutdown_complete None].

Definition sample_life : list op :=
  sample_life_until_destroy ++ sample_life_after_destroy.

Definition sample_destroyed : system :=
  Eval vm_compute in
    match run_ops (initial_system 100 sample_time) sample_life_until_destroy with
    | Some s => s
    | None => initial_system 100 sample_time
    end.

Definition sample_end : system :=
  Eval vm_compute in
    match run_ops (initial_system 100 sample_time) sample_life with
    | Some s => s
    | None => initial_system 100 sample_time
    end.

(** ** Further classes of calls *)

Definition is_endpoint_destroy (e : event) : bool :=
  match e with E_endpoint_destroy _ => true | _ => false end.

(** Calls that build, register or start a transport. *)
Definition is_transport_call (e : event) : bool :=
  match e with
  | E_create_chttp2_transport _ => true
  | E_server_setup_transport _ _ _ _ => true
  | E_transport_start_reading _ _ => true
  | _ => false
  end.

Definition is_free_read_buffer (e : event) : bool :=
  match e with E_free_read_buffer _ => true | _ => false end.

Definition is_do_handshake (e : event) : bool :=
  match e with E_do_handshake _ _ _ _ _ _ _ => true | _ => false end.

Definition is_closure_run (e : event) : bool :=
  match e with E_closure_run _ _ => true | _ => false end.

Definition is_error_log (e : event) : bool :=
  match e with E_log GPR_ERROR _ _ => true | _ => false end.

Definition is_credentials_ref (e : event) : bool :=
  match e with E_credentials_ref _ => true | _ => false end.

Definition is_connector_create (e : event) : bool :=
  match e with E_security_connector_create _ => true | _ => false end.

Definition is_resolve (e : event) : bool :=
  match e with E_resolve_address _ _ => true | _ => false end.

Definition is_malloc_state (e : event) : bool :=
  match e with E_malloc_state => true | _ => false end.

Definition is_free_state (e : event) : bool :=
  match e with E_free_state => true | _ => false end.

Definition is_tcp_server_create (e : event) : bool :=
  match e with E_tcp_server_create _ => true | _ => false end.

Definition is_tcp_server_unref (e : event) : bool :=
  match e with E_tcp_server_unref _ => true | _ => false end.

(** The transport [on_handshake_done] builds over a negotiated endpoint. *)
Definition transport_of (st : server_secure_state) (a : grpc_handshaker_args)
  : grpc_transport :=
  {| transport_args := channel_args_copy (args a) [server_credentials_arg (creds st)];
     transport_endpoint := endpoint a;
     transport_is_client := 0 |}.

(** The binder stopped before a network listener existed. *)
Definition fails_before_listener (env : bind_env) (srv : ptr) (addr : string)
  (c : grpc_server_credentials) : Prop :=
  fst (create_security_connector env c) = GRPC_SECURITY_ERROR
  \/ (exists e, blocking_resolve_address env addr "https" = inl e)
  \/ (exists e, tcp_server_create env (server_channel_args srv) = inl e).

(** Environments for the sample bind calls that fail early. *)
Definition sample_failing_connector_env : bind_env :=
  {| create_security_connector := fun _ => (GRPC_SECURITY_ERROR, NULL);
     blocking_resolve_address := fun _ _ => inr [1];
     tcp_server_create := fun _ => inr 12;
     tcp_server_add_port := fun _ _ _ => inr 443 |}.

Definition sample_failing_env : bind_env :=
  sample_env [1; 2] [inl (error_external 5); inl (error_external 6)].

Definition is_mutex_call (e : event) : bool :=
  match e with
  | E_mu_init | E_mu_lock | E_mu_unlock | E_mu_destroy => true
  | _ => false
  end.

(** ** The callbacks in steps *)

(** A callback that runs on one thread while others run on theirs is a
    sequence of steps, in each of which it touches at most once what the
    threads share: the part it runs holding the mutex is one step (the mutex
    keeps the other threads out of theirs), and outside the mutex each change
    of the listener's reference count and each hand-over to the handshake
    manager is a step of its own. Calls that touch nothing shared (logging,
    destroying an endpoint or a handshake manager the thread owns, freeing
    its own memory) go with the step they precede or follow. *)

(** [on_accept], lines 161-169: the part under the mutex. It yields the
    handshake manager it registered, or nothing when the listener is shutting
    down. *)
Definition on_accept_locked : M (option ptr) :=
  gpr_mu_lock ;;
  is_shutdown <- get shutdown ;;
  if is_shutdown then
    gpr_mu_unlock ;;
    ret None
  else
    handshake_mgr <- grpc_handshake_manager_create ;;
    pending_handshake_manager_add_locked handshake_mgr ;;
    gpr_mu_unlock ;;
    ret (Some handshake_mgr).

(** [on_accept], line 164. *)
Definition on_accept_reject (tcp : ptr) : M unit :=
  grpc_endpoint_destroy tcp.

(** [on_accept], line 170. *)
Definition on_accept_ref : M unit :=
  state_tcp_server <- get tcp_server ;;
  grpc_tcp_server_ref state_tcp_server.

(** [on_accept], lines 171-186. *)
Definition on_accept_handshake (tcp accepting_pollset acceptor handshake_mgr : ptr)
  : M unit :=
  let connection_state :=
    {| accepting_pollset := accepting_pollset;
       acceptor := acceptor;
       handshake_mgr := handshake_mgr |} in
  state_sc <- get sc ;;
  emit (E_create_handshakers state_sc handshake_mgr) ;;
  t <- gpr_now GPR_CLOCK_MONOTONIC ;;
  let deadline := gpr_time_add t (gpr_time_from_seconds 120 GPR_TIMESPAN) in
  state_server <- get server ;;
  emit (E_do_handshake handshake_mgr tcp
          (grpc_server_get_channel_args state_server)
          deadline acceptor on_handshake_done_cb connection_state).

(** [on_handshake_done], lines 118-150: up to the release of the mutex. What
    the failure branch does before it takes the mutex touches only the
    endpoint and the read buffer of this connection. *)
Definition on_handshake_done_locked (a : grpc_handshaker_args)
  (error : option grpc_error) : M unit :=
  let connection_state := user_data a in
  match error with
  | Some e =>
      gpr_log GPR_ERROR "Handshaking failed: %s" e ;;
      grpc_endpoint_destroy (endpoint a) ;;
      emit (E_free_read_buffer (read_buffer a)) ;;
      gpr_mu_lock
  | None =>
      gpr_mu_lock ;;
      is_shutdown <- get shutdown ;;
      if negb is_shutdown then
        state_creds <- get creds ;;
        let channel_arg := grpc_server_credentials_to_arg state_creds in
        let args_copy := grpc_channel_args_copy_and_add (args a) [channel_arg] in
        transport <- grpc_create_chttp2_transport args_copy (endpoint a) 0 ;;
        state_server <- get server ;;
        emit (E_server_setup_transport state_server transport
                (accepting_pollset connection_state) args_copy) ;;
        grpc_channel_args_destroy args_copy ;;
        emit (E_transport_start_reading transport (read_buffer a))
      else
        grpc_endpoint_destroy (endpoint a)
  end ;;
  pending_handshake_manager_remove_locked (handshake_mgr connection_state) ;;
  gpr_mu_unlock.

(** [on_handshake_done], lines 151-154. *)
Definition on_handshake_done_release (a : grpc_handshaker_args) : M unit :=
  let connection_state := user_data a in
  grpc_handshake_manager_destroy (handshake_mgr connection_state) ;;
  state_tcp_server <- get tcp_server ;;
  grpc_tcp_server_unref state_tcp_server ;;
  emit (E_free_connection_state connection_state) ;;
  grpc_channel_args_destroy (args a).

(** [server_start_listener], lines 194-196. *)
Definition server_start_listener_locked : M unit :=
  gpr_mu_lock ;;
  modify (with_shutdown false) ;;
  gpr_mu_unlock.

(** [server_start_listener], lines 197-198. *)
Definition server_start_listener_listen (pollsets : list ptr) : M unit :=
  state_tcp_server <- get tcp_server ;;
  emit (E_tcp_server_start state_tcp_server pollsets).

(** [server_destroy_listener], lines 226-230: it yields the listener it read
    under the mutex. *)
Definition server_destroy_listener_locked (destroy_done : option grpc_closure)
  : M ptr :=
  gpr_mu_lock ;;
  modify (with_shutdown true) ;;
  modify (with_server_destroy_listener_done destroy_done) ;;
  state_tcp_server <- get tcp_server ;;
  gpr_mu_unlock ;;
  ret state_tcp_server.

(** [server_destroy_listener], lines 231-232. *)
Definition server_destroy_listener_release (tcp_server : ptr) : M unit :=
  emit (E_tcp_server_shutdown_listeners tcp_server) ;;
  grpc_tcp_server_unref tcp_server.

(** The callbacks put together again from their steps. *)
Definition on_accept_stepwise (tcp accepting_pollset acceptor : ptr) : M unit :=
  registered <- on_accept_locked ;;
  match registered with
  | None => on_accept_reject tcp
  | Some handshake_mgr =>
      on_accept_ref ;;
      on_accept_handshake tcp accepting_pollset acceptor handshake_mgr
  end.

Definition on_handshake_done_stepwise (a : grpc_handshaker_args)
  (error : option grpc_error) : M unit :=
  on_handshake_done_locked a error ;;
  on_handshake_done_release a.

Definition server_start_listener_stepwise (pollsets : list ptr) : M unit :=
  server_start_listener_locked ;;
  server_start_listener_listen pollsets.

Definition server_destroy_listener_stepwise (destroy_done : option grpc_closure)
  : M unit :=
  tcp_server <- server_destroy_listener_locked destroy_done ;;
  server_destroy_listener_release tcp_server.

(** ** The listener's life on several threads *)

(** Where a callback that has begun stands: what it holds and, in the
    comment, the step it runs next. *)
Inductive thread :=
| accept_registered (tcp pollset acc mgr : ptr)   (* on_accept_ref *)
| accept_referenced (tcp pollset acc mgr : ptr)   (* on_accept_handshake *)
| accept_rejected (tcp : ptr)                     (* on_accept_reject *)
| done_removed (a : grpc_handshaker_args)         (* on_handshake_done_release *)
| start_cleared (pollsets : list ptr)             (* server_start_listener_listen *)
| destroy_flagged (tcp_server : ptr).             (* server_destroy_listener_release *)

(** Whether the thread holds a listener reference it has yet to release or
    to hand to a handshake. *)
Definition holds_ref (t : thread) : bool :=
  match t with
  | accept_referenced _ _ _ _ => true
  | done_removed _ => true
  | destroy_flagged _ => true
  | _ => false
  end.

(** The handshake manager the thread has registered and not yet handed to
    the handshake manager's side. *)
Definition thread_mgrs (t : thread) : list ptr :=
  match t with
  | accept_registered _ _ _ mgr => [mgr]
  | accept_referenced _ _ _ mgr => [mgr]
  | _ => []
  end.

Definition is_accept_thread (t : thread) : bool :=
  match t with
  | accept_registered _ _ _ _ => true
  | accept_referenced _ _ _ _ => true
  | accept_rejected _ => true
  | _ => false
  end.

(** The [i]-th element of a list, and the others. *)
Fixpoint pick {A : Type} (i : nat) (l : list A) {struct l} : option (A * list A) :=
  match l with
  | [] => None
  | x :: rest =>
      match i with
      | O => Some (x, rest)
      | S j => match pick j rest with
               | Some (y, rest') => Some (y, x :: rest')
               | None => None
               end
      end
  end.

Record threads_system := {
  t_world : world;
  t_threads : list thread;
  t_in_flight : list pending_handshake;
  t_ref_held : bool;
  t_bound : bool
}.

(** What the collaborators do: they begin a callback, which runs its first
    step, or let a thread that has begun run its next step. *)
Inductive call :=
| Call_tick (t : gpr_timespec)
| Call_bind (env : bind_env) (server : ptr) (addr : string)
            (creds : option grpc_server_credentials)
| Call_start (pollsets : list ptr)
| Call_accept (tcp : ptr) (accepting_pollset : ptr) (acceptor : ptr)
| Call_handshake_done (a : grpc_handshaker_args) (error : option grpc_error)
| Call_destroy (destroy_done : option grpc_closure)
| Call_resume (i : nat)
| Call_shutdown_complete (error : option grpc_error).

Definition finished {A} (o : outcome A) : option (A * world) :=
  match o with
  | Ok a w => Some (a, w)
  | AssertionFailed => None
  | Fault => None
  end.

(** The next step of a thread: the world after it, what is left of the
    thread, and the handshake it handed over. *)
Definition resume (t : thread) (w : world)
  : option (world * option thread * option pending_handshake) :=
  match t with
  | accept_registered tcp pollset acc mgr =>
      match finished (on_accept_ref w) with
      | Some (_, w') => Some (w', Some (accept_referenced tcp pollset acc mgr), None)
      | None => None
      end
  | accept_referenced tcp pollset acc mgr =>
      match finished (on_accept_handshake tcp pollset acc mgr w) with
      | Some (_, w') => Some (w', None, handshake_started w')
      | None => None
      end
  | accept_rejected tcp =>
      match finished (on_accept_reject tcp w) with
      | Some (_, w') => Some (w', None, None)
      | None => None
      end
  | done_removed a =>
      match finished (on_handshake_done_release a w) with
      | Some (_, w') => Some (w', None, None)
      | None => None
      end
  | start_cleared pollsets =>
      match finished (server_start_listener_listen pollsets w) with
      | Some (_, w') => Some (w', None, None)
      | None => None
      end
  | destroy_flagged tcp_server =>
      match finished (server_destroy_listener_release tcp_server w) with
      | Some (_, w') => Some (w', None, None)
      | None => None
      end
  end.

Definition cons_option {A} (o : option A) (l : list A) : list A :=
  match o with Some x => x :: l | None => l end.

(** Modelled from the spec: the collaborators' calling discipline, with the
    callbacks of several threads interleaved step by step. The server binds
    once, before any other call, starts a listener before it destroys it and
    destroys it once; the network listener delivers connections on any
    thread while the state exists, and reports shutdown complete when its
    reference count is zero, "after all accept callbacks for that listener
    have returned"; the handshake manager completes a handshake it was
    handed, once, with the user data it was handed (a timeout is a
    completion with an error). A call that is not enabled, fails an
    assertion or touches a freed state has no successor.
    [tcp_server_shutdown_complete] is one step: where it is enabled no thread
    holds a reference and no accept is on its way, so the only threads left
    are second halves of [server_start_listener], which read a field of the
    state that the report does not change before it frees the state. *)
Definition step (s : threads_system) (c : call) : option threads_system :=
  let w := t_world s in
  match c with
  | Call_tick t =>
      Some {| t_world := with_clock t w; t_threads := t_threads s;
              t_in_flight := t_in_flight s; t_ref_held := t_ref_held s;
              t_bound := t_bound s |}
  | Call_bind env srv addr c =>
      if t_bound s then None
      else match finished (grpc_server_add_secure_http2_port env srv addr c w) with
           | Some (_, w') =>
               Some {| t_world := w'; t_threads := []; t_in_flight := [];
                       t_ref_held := (0 <? tcp_refs w')%nat; t_bound := true |}
           | None => None
           end
  | Call_start pollsets =>
      if t_ref_held s then
        match finished (server_start_listener_locked w) with
        | Some (_, w') =>
            Some {| t_world := w';
                    t_threads := start_cleared pollsets :: t_threads s;
                    t_in_flight := t_in_flight s; t_ref_held := t_ref_held s;
                    t_bound := t_bound s |}
        | None => None
        end
      else None
  | Call_accept tcp pollset acc =>
      match finished (on_accept_locked w) with
      | Some (registered, w') =>
          Some {| t_world := w';
                  t_threads := match registered with
                               | Some mgr => accept_registered tcp pollset acc mgr
                               | None => accept_rejected tcp
                               end :: t_threads s;
                  t_in_flight := t_in_flight s; t_ref_held := t_ref_held s;
                  t_bound := t_bound s |}
      | None => None
      end
  | Call_handshake_done a error =>
      match take_handshake (handshake_mgr (user_data a)) (t_in_flight s) with
      | Some (h, rest) =>
          if conn_eqb (hs_user_data h) (user_data a) then
            match finished (on_handshake_done_locked a error w) with
            | Some (_, w') =>
                Some {| t_world := w';
                        t_threads := done_removed a :: t_threads s;
                        t_in_flight := rest; t_ref_held := t_ref_held s;
                        t_bound := t_bound s |}
            | None => None
            end
          else None
      | None => None
      end
  | Call_destroy destroy_done =>
      if t_ref_held s then
        match finished (server_destroy_listener_locked destroy_done w) with
        | Some (tcp_server, w') =>
            Some {| t_world := w';
                    t_threads := destroy_flagged tcp_server :: t_threads s;
                    t_in_flight := t_in_flight s; t_ref_held := false;
                    t_bound := t_bound s |}
        | None => None
        end
      else None
  | Call_resume i =>
      match pick i (t_threads s) with
      | Some (t, others) =>
          match resume t w with
          | Some (w', rest_of_t, handed) =>
              Some {| t_world := w';
                      t_threads := cons_option rest_of_t others;
                      t_in_flight := cons_option handed (t_in_flight s);
                      t_ref_held := t_ref_held s; t_bound := t_bound s |}
          | None => None
          end
      | None => None
      end
  | Call_shutdown_complete error =>
      if t_bound s && (tcp_refs w =? 0)%nat
         && forallb (fun t => negb (is_accept_thread t)) (t_threads s)
      then
        match finished (tcp_server_shutdown_complete error w) with
        | Some (_, w') =>
            Some {| t_world := w'; t_threads := t_threads s;
                    t_in_flight := t_in_flight s; t_ref_held := t_ref_held s;
                    t_bound := t_bound s |}
        | None => None
        end
      else None
  end.

Fixpoint steps (s : threads_system) (cs : list call) : option threads_system :=
  match cs with
  | [] => Some s
  | c :: rest =>
      match step s c with
      | Some s' => steps s' rest
      | None => None
      end
  end.

Definition initial_threads_system (first_mgr : ptr) (t : gpr_timespec)
  : threads_system :=
  {| t_world := initial_world first_mgr t; t_threads := []; t_in_flight := [];
     t_ref_held := false; t_bound := false |}.

Definition is_call_start (c : call) : bool :=
  match c with Call_start _ => true | _ => false end.

Definition is_not_start (c : call) : bool := negb (is_call_start c).

Definition t_shutdown_flag (s : threads_system) : option bool :=
  match listener (t_world s) with
  | Some st => Some (shutdown st)
  | None => None
  end.

Definition is_manager_create (e : event) : bool :=
  match e with E_handshake_manager_create _ => true | _ => false end.

(** While the listener state exists: the reference count is the binding
    reference, one per thread that holds one, and one per handshake in
    flight; a listener whose binding reference the server has given to
    [server_destroy_listener] is shutting down; and the registry holds, in
    some order and none twice, the managers registered by accepts still on
    their way and those of the handshakes in flight. *)
Definition threads_inv (s : threads_system) : Prop :=
  let w := t_world s in
  match listener w with
  | Some st =>
      t_bound s = true
      /\ tcp_refs w = ((if t_ref_held s then 1 else 0)
                       + List.length (filter holds_ref (t_threads s))
                       + List.length (t_in_flight s))%nat
      /\ (t_ref_held s = false -> shutdown st = true)
      /\ Permutation (pending_handshake_mgrs st)
           (flat_map thread_mgrs (t_threads s) ++ map hs_mgr (t_in_flight s))
      /\ NoDup (pending_handshake_mgrs st)
      /\ Forall (fun mgr => mgr < next_handshake_mgr w) (pending_handshake_mgrs st)
      /\ Forall started_by_accept (t_in_flight s)
  | None => True
  end.

(** ** Calls that run to their end, as steps *)

(** A listener between two calls, none of which has been left half-way. *)
Definition threads_of (s : system) : threads_system :=
  {| t_world := sys_world s; t_threads := []; t_in_flight := in_flight s;
     t_ref_held := listener_ref_held s; t_bound := bound s |}.

(** The steps of a call that runs to its end before any other call begins. *)
Definition calls_of (s : system) (o : op) : list call :=
  match o with
  | Op_tick t => [Call_tick t]
  | Op_bind env srv addr c => [Call_bind env srv addr c]
  | Op_start pollsets => [Call_start pollsets; Call_resume 0]
  | Op_accept tcp pollset acc =>
      match shutdown_flag s with
      | Some false => [Call_accept tcp pollset acc; Call_resume 0; Call_resume 0]
      | _ => [Call_accept tcp pollset acc; Call_resume 0]
      end
  | Op_handshake_done a error => [Call_handshake_done a error; Call_resume 0]
  | Op_handshake_timeout mgr buf =>
      match take_handshake mgr (in_flight s) with
      | Some (h, _) =>
          [Call_handshake_done
             {| endpoint := hs_endpoint h; args := hs_args h;
                read_buffer := buf; user_data := hs_user_data h |}
             (Some handshake_timed_out);
           Call_resume 0]
      | None => []
      end
  | Op_destroy destroy_done => [Call_destroy destroy_done; Call_resume 0]
  | Op_shutdown_complete error => [Call_shutdown_complete error]
  end.

(** The handshake managers that the calls of a trace handed to
    [grpc_handshake_manager_do_handshake]. *)
Definition handed_mgrs (evs : list event) : list ptr :=
  flat_map (fun e => match e with
                     | E_do_handshake mgr _ _ _ _ _ _ => [mgr]
                     | _ => []
                     end) evs.


(** A life in which the server destroys the listener while an accept that
    has registered its manager and released the mutex has not yet taken its
    reference: bind, start, an accept up to line 169, then the whole of
    [server_destroy_listener]. *)
Definition sample_threads_until_destroy : list call :=
  [Call_bind sample_partial_env 11 "localhost:443" (Some sample_credentials);
   Call_start [41; 42];
   Call_resume 0;
   Call_accept 21 31 32;
   Call_destroy (Some {| cb := 51; cb_arg := 52 |});
   Call_resume 0].

(** The accept goes on (lines 170-186), a second connection is turned away,
    the handshake completes and its callback runs to its end. *)
Definition sample_threads_after_destroy : list call :=
  [Call_resume 0;
   Call_accept 24 31 32;
   Call_resume 1;
   Call_resume 0;
   Call_handshake_done (sample_args 100) None;
   Call_resume 0].

Definition sample_threads_destroyed : threads_system :=
  Eval vm_compute in
    match steps (initial_threads_system 100 sample_time)
            sample_threads_until_destroy with
    | Some s => s
    | None => initial_threads_system 100 sample_time
    end.

Definition sample_threads_drained : threads_system :=
  Eval vm_compute in
    match steps sample_threads_destroyed sample_threads_after_destroy with
    | Some s => s
    | None => sample_threads_destroyed
    end.

Definition sample_threads_destroyed_state : server_secure_state :=
  Eval vm_compute in
    match listener (t_world sample_threads_destroyed) with
    | Some st => st
    | None => sample_state true []
    end.


(** * Properties *)

(** ** What each call does to a world whose listener state exists *)

Ltac run_world w :=
  destruct w as [wl wr wn wc wt]; simpl in *; subst; 
  cbv [bind ret emit get modify GPR_ASSERT gpr_mu_lock gpr_mu_unlock gpr_mu_init
       gpr_mu_destroy gpr_log grpc_endpoint_destroy grpc_handshake_manager_destroy
       grpc_channel_args_destroy grpc_exec_ctx_flush grpc_exec_ctx_finish
       GRPC_SECURITY_CONNECTOR_UNREF grpc_server_credentials_unref GRPC_ERROR_UNREF
       grpc_create_chttp2_transport grpc_handshake_manager_create
       grpc_tcp_server_ref grpc_tcp_server_unref gpr_now
       pending_handshake_manager_add_locked pending_handshake_manager_remove_locked
       with_trace with_listener with_tcp_refs with_next_handshake_mgr
       listener tcp_refs next_handshake_mgr clock trace]; simpl.

Ltac flatten_trace := repeat rewrite <- app_assoc; simpl.

Lemma on_accept_rejects (w : world) (s : server_secure_state) (tcp pollset acc : ptr) :
  listener w = Some s ->
  shutdown s = true ->
  on_accept tcp pollset acc w
  = Ok tt (with_trace (trace w ++ [E_mu_lock; E_mu_unlock; E_endpoint_destroy tcp]) w).
Proof.
  intros Hl Hs. unfold on_accept. run_world w. rewrite Hs. simpl.
  flatten_trace. reflexivity.
Qed.

Lemma on_accept_starts (w : world) (s : server_secure_state) (tcp pollset acc : ptr) :
  listener w = Some s ->
  shutdown s = false ->
  let mgr := next_handshake_mgr w in
  let connection_state :=
    {| accepting_pollset := pollset; acceptor := acc; handshake_mgr := mgr |} in
  on_accept tcp pollset acc w
  = Ok tt
      {| listener := Some (with_pending_handshake_mgrs (mgr :: pending_handshake_mgrs s) s);
         tcp_refs := S (tcp_refs w);
         next_handshake_mgr := mgr + 1;
         clock := clock w;
         trace := trace w ++
           [E_mu_lock; E_handshake_manager_create mgr; E_mu_unlock;
            E_tcp_server_ref (tcp_server s);
            E_create_handshakers (sc s) mgr;
            E_do_handshake mgr tcp (server_channel_args (server s))
              (gpr_time_add
                 {| tv_sec := tv_sec (clock w); tv_nsec := tv_nsec (clock w);
                    clock_type := GPR_CLOCK_MONOTONIC |}
                 (gpr_time_from_seconds 120 GPR_TIMESPAN))
              acc on_handshake_done_cb connection_state] |}.
Proof.
  intros Hl Hs. unfold on_accept. run_world w. rewrite Hs. simpl.
  flatten_trace. reflexivity.
Qed.

Lemma on_handshake_done_runs (w : world) (s : server_secure_state)
  (a : grpc_handshaker_args) (error : option grpc_error) :
  listener w = Some s ->
  on_handshake_done a error w
  = Ok tt
      {| listener := Some (with_pending_handshake_mgrs
                             (remove_node (handshake_mgr (user_data a))
                                          (pending_handshake_mgrs s)) s);
         tcp_refs := Nat.pred (tcp_refs w);
         next_handshake_mgr := next_handshake_mgr w;
         clock := clock w;
         trace := trace w ++ outcome_events s a error ++ cleanup_events s a |}.
Proof.
  intros Hl. unfold on_handshake_done, outcome_events, cleanup_events.
  run_world w.
  destruct error as [e|]; simpl.
  - flatten_trace. reflexivity.
  - destruct (shutdown s); simpl; flatten_trace; reflexivity.
Qed.

Lemma server_start_listener_runs (w : world) (s : server_secure_state)
  (pollsets : list ptr) :
  listener w = Some s ->
  server_start_listener pollsets w
  = Ok tt
      {| listener := Some (with_shutdown false s);
         tcp_refs := tcp_refs w;
         next_handshake_mgr := next_handshake_mgr w;
         clock := clock w;
         trace := trace w ++ [E_mu_lock; E_mu_unlock;
                              E_tcp_server_start (tcp_server s) pollsets] |}.
Proof.
  intros Hl. unfold server_start_listener. run_world w.
  flatten_trace. reflexivity.
Qed.

Lemma server_destroy_listener_runs (w : world) (s : server_secure_state)
  (destroy_done : option grpc_closure) :
  listener w = Some s ->
  server_destroy_listener destroy_done w
  = Ok tt
      {| listener := Some (with_server_destroy_listener_done destroy_done
                             (with_shutdown true s));
         tcp_refs := Nat.pred (tcp_refs w);
         next_handshake_mgr := next_handshake_mgr w;
         clock := clock w;
         trace := trace w ++ [E_mu_lock; E_mu_unlock;
                              E_tcp_server_shutdown_listeners (tcp_server s);
                              E_tcp_server_unref (tcp_server s)] |}.
Proof.
  intros Hl. unfold server_destroy_listener. run_world w.
  flatten_trace. reflexivity.
Qed.

Lemma shutdown_nodes_runs (nodes : list ptr) (w : world) :
  shutdown_nodes nodes w
  = Ok tt (with_trace (trace w ++ map E_handshake_manager_shutdown nodes) w).
Proof.
  revert w. induction nodes as [|node next IH]; intros w; simpl.
  - unfold ret, with_trace. rewrite app_nil_r. destruct w; reflexivity.
  - unfold bind, grpc_handshake_manager_shutdown, emit. rewrite IH.
    unfold with_trace; simpl. rewrite <- app_assoc. reflexivity.
Qed.

Lemma pending_handshake_manager_shutdown_locked_runs (w : world)
  (s : server_secure_state) :
  listener w = Some s ->
  pending_handshake_manager_shutdown_locked w
  = Ok tt
      {| listener := Some (with_pending_handshake_mgrs [] s);
         tcp_refs := tcp_refs w;
         next_handshake_mgr := next_handshake_mgr w;
         clock := clock w;
         trace := trace w ++ map E_handshake_manager_shutdown
                               (pending_handshake_mgrs s) |}.
Proof.
  intros Hl. unfold pending_handshake_manager_shutdown_locked, bind, get, modify.
  rewrite Hl, shutdown_nodes_runs. unfold with_trace, with_listener; simpl.
  rewrite Hl. reflexivity.
Qed.

Lemma tcp_server_shutdown_complete_runs (w : world) (s : server_secure_state)
  (error : option grpc_error) :
  listener w = Some s ->
  shutdown s = true ->
  tcp_server_shutdown_complete error w
  = Ok tt
      {| listener := None;
         tcp_refs := tcp_refs w;
         next_handshake_mgr := next_handshake_mgr w;
         clock := clock w;
         trace := trace w ++ shutdown_complete_events s error |}.
Proof.
  intros Hl Hs. unfold tcp_server_shutdown_complete, shutdown_complete_events,
    destroy_done_events.
  unfold bind at 1. unfold gpr_mu_lock, emit.
  unfold bind at 1. unfold get at 1. simpl. rewrite Hl.
  unfold bind at 1. unfold get at 1. simpl. rewrite Hl, Hs.
  unfold bind at 1. unfold GPR_ASSERT at 1.
  unfold bind at 1.
  rewrite (pending_handshake_manager_shutdown_locked_runs _ s) by (simpl; exact Hl).
  destruct w as [wl wr wn wc wt]; simpl in *; subst.
  cbv [bind ret emit get modify gpr_mu_unlock gpr_mu_destroy grpc_exec_ctx_flush
       GRPC_SECURITY_CONNECTOR_UNREF grpc_server_credentials_unref
       with_trace with_listener listener tcp_refs next_handshake_mgr clock trace].
  simpl.
  destruct (server_destroy_listener_done s); simpl;
    cbv [bind ret emit with_trace with_listener listener tcp_refs
         next_handshake_mgr clock trace]; simpl;
    repeat rewrite <- app_assoc; simpl; reflexivity.
Qed.

Lemma tcp_server_shutdown_complete_asserts (w : world) (s : server_secure_state)
  (error : option grpc_error) :
  listener w = Some s ->
  shutdown s = false ->
  tcp_server_shutdown_complete error w = AssertionFailed.
Proof.
  intros Hl Hs. unfold tcp_server_shutdown_complete.
  run_world w. rewrite Hs. reflexivity.
Qed.

(** ** The binding loop *)

Lemma unref_each_runs (errors : list (option grpc_error)) (w : world) :
  unref_each errors w = Ok tt (with_trace (trace w ++ map E_error_unref errors) w).
Proof.
  revert w. induction errors as [|e rest IH]; intros w; simpl.
  - unfold ret, with_trace. rewrite app_nil_r. destruct w; reflexivity.
  - unfold bind, GRPC_ERROR_UNREF, emit. rewrite IH.
    unfold with_trace; simpl. rewrite <- app_assoc. reflexivity.
Qed.

Lemma add_ports_runs (env : bind_env) (ts : ptr) (addrs : list Z) :
  forall (i : nat) (port_num : Z) (count : nat)
         (errors : list (option grpc_error)) (w : world),
  add_ports env ts addrs i port_num count errors w
  = match scan_ports (port_results env ts addrs i) port_num count errors with
    | Some r => Ok r (with_trace (trace w ++ add_port_events ts addrs i) w)
    | None => AssertionFailed
    end.
Proof.
  induction addrs as [|a rest IH]; intros i port_num count errors w; simpl.
  - unfold ret, with_trace. rewrite app_nil_r. destruct w; reflexivity.
  - unfold bind at 1. unfold emit at 1.
    destruct (tcp_server_add_port env ts i a) as [e|port_temp].
    + rewrite IH.
      destruct (scan_ports _ _ _ _); [|reflexivity].
      unfold with_trace; simpl. rewrite <- app_assoc. reflexivity.
    + unfold bind at 1. destruct (port_num =? -1).
      * unfold ret at 1. rewrite IH.
        destruct (scan_ports _ _ _ _); [|reflexivity].
        unfold with_trace; simpl. rewrite <- app_assoc. reflexivity.
      * unfold bind at 1, GPR_ASSERT. destruct (port_num =? port_temp); [|reflexivity].
        unfold ret at 1. rewrite IH.
        destruct (scan_ports _ _ _ _); [|reflexivity].
        unfold with_trace; simpl. rewrite <- app_assoc. reflexivity.
Qed.

Lemma scan_ports_some (rs : list (grpc_error + Z)) :
  forall port_num count errors port_num' count' errors',
  scan_ports rs port_num count errors = Some (port_num', count', errors') ->
  count' = (count + List.length (successes rs))%nat
  /\ errors' = errors ++ map error_slot rs.
Proof.
  induction rs as [|[e|p] rest IH]; intros pn c es pn' c' es' H; simpl in *.
  - inversion H; subst. rewrite Nat.add_0_r, app_nil_r. auto.
  - apply IH in H. destruct H as [-> ->]. rewrite <- app_assoc. auto.
  - destruct (pn =? -1).
    + apply IH in H. destruct H as [-> ->]. rewrite <- app_assoc. split; [lia|auto].
    + destruct (pn =? p); [|discriminate].
      apply IH in H. destruct H as [-> ->]. rewrite <- app_assoc. split; [lia|auto].
Qed.

Lemma failures_error_slot (rs : list (grpc_error + Z)) :
  failures (map error_slot rs) = failed rs.
Proof.
  induction rs as [|[e|p] rest IH]; simpl; [reflexivity| |]; now rewrite ?IH.
Qed.

Lemma successes_failed_length (rs : list (grpc_error + Z)) :
  (List.length (successes rs) + List.length (failed rs) = List.length rs)%nat.
Proof.
  induction rs as [|[e|p] rest IH]; simpl; lia.
Qed.

Lemma port_results_length (env : bind_env) (ts : ptr) (addrs : list Z) :
  forall i, List.length (port_results env ts addrs i) = List.length addrs.
Proof.
  induction addrs as [|a rest IH]; intros i; simpl; [reflexivity|].
  now rewrite IH.
Qed.

(** With every successful binding on port [p], the loop keeps [p] once it
    has it and no assertion fails. *)
Lemma scan_ports_agree (p : Z) (rs : list (grpc_error + Z)) :
  Forall (eq p) (successes rs) ->
  forall port_num count errors,
  port_num = -1 \/ port_num = p ->
  scan_ports rs port_num count errors
  = Some (match successes rs with [] => port_num | _ :: _ => p end,
          (count + List.length (successes rs))%nat,
          errors ++ map error_slot rs).
Proof.
  induction rs as [|[e|q] rest IH]; intros Hall pn c es Hpn; simpl in *.
  - now rewrite Nat.add_0_r, app_nil_r.
  - rewrite IH by assumption. now rewrite <- app_assoc.
  - inversion Hall as [|? ? Hq Hrest]; subst q.
    assert (Hnext : scan_ports rest p (S c) (es ++ [None])
                    = Some (p, (c + S (List.length (successes rest)))%nat,
                            es ++ None :: map error_slot rest)).
    { rewrite IH by auto. rewrite <- app_assoc. simpl.
      replace (S (c + List.length (successes rest)))
        with (c + S (List.length (successes rest)))%nat by lia.
      destruct (successes rest); reflexivity. }
    destruct (pn =? -1) eqn:E1; [exact Hnext|].
    destruct Hpn as [Hpn|Hpn]; [apply Z.eqb_neq in E1; contradiction|].
    subst pn. rewrite Z.eqb_refl. exact Hnext.
Qed.

(** ** The port binder *)

Lemma bind_without_credentials (env : bind_env) (srv : ptr) (addr : string) (w : world) :
  let err := GRPC_ERROR_CREATE
               "No credentials specified for secure server port (creds==NULL)" in
  grpc_server_add_secure_http2_port env srv addr None w
  = Ok 0 (with_trace (trace w ++ [E_exec_ctx_finish; E_error_unref (Some err);
                                  E_log GPR_ERROR "%s" err]) w).
Proof.
  unfold grpc_server_add_secure_http2_port, error_path. run_world w.
  flatten_trace. reflexivity.
Qed.

Lemma error_path_after_listener (es : list (option grpc_error)) (addrs : list Z)
  (ts sc : ptr) (e : grpc_error) (w : world) :
  ts <> NULL ->
  error_path (Some es) (Some addrs) ts sc true (Some e) w
  = Ok 0
      {| listener := listener w;
         tcp_refs := Nat.pred (tcp_refs w);
         next_handshake_mgr := next_handshake_mgr w;
         clock := clock w;
         trace := trace w ++ map E_error_unref es
                  ++ [E_free_errors; E_resolved_addresses_destroy;
                      E_tcp_server_unref ts; E_exec_ctx_finish;
                      E_error_unref (Some e); E_log GPR_ERROR "%s" e] |}.
Proof.
  intros Hts. unfold error_path.
  unfold bind at 1. unfold bind at 1. rewrite unref_each_runs.
  assert (Hnull : is_null ts = false) by (apply Z.eqb_neq; exact Hts).
  rewrite Hnull. run_world w. flatten_trace. reflexivity.
Qed.

Lemma bind_reaches_loop (env : bind_env) (srv : ptr) (addr : string)
  (c : grpc_server_credentials) (sc ts : ptr) (addrs : list Z) (w : world) :
  create_security_connector env c = (GRPC_SECURITY_OK, sc) ->
  blocking_resolve_address env addr "https" = inr addrs ->
  tcp_server_create env (server_channel_args srv) = inr ts ->
  grpc_server_add_secure_http2_port env srv addr (Some c) w
  = match scan_ports (port_results env ts addrs 0) (-1) 0%nat [] with
    | None => AssertionFailed
    | Some (port_num, count, errors) =>
        let w1 := after_loop w srv addr c sc ts addrs in
        let naddrs := List.length addrs in
        if (count =? 0)%nat then
          error_path (Some errors) (Some addrs) ts sc true
            (Some (no_address_added naddrs errors)) w1
        else
          Ok port_num
            (with_trace
               (trace w1
                ++ (if negb (count =? naddrs)%nat
                    then [E_log GPR_INFO "WARNING: %s"
                            (only_some_added count naddrs errors)]
                    else map E_error_unref errors)
                ++ [E_free_errors; E_resolved_addresses_destroy;
                    E_server_add_listener srv; E_exec_ctx_finish]) w1)
    end.
Proof.
  intros Hconn Hres Hcreate.
  unfold grpc_server_add_secure_http2_port.
  unfold bind at 1. unfold emit at 1. rewrite Hconn.
  unfold bind at 1. unfold emit at 1. rewrite Hres.
  unfold bind at 1. unfold gpr_malloc_state, bind at 1, emit at 1.
  unfold bind at 1. unfold grpc_tcp_server_create, grpc_server_get_channel_args.
  unfold bind at 1. unfold emit at 1. rewrite Hcreate.
  unfold bind at 1. unfold modify at 1.
  cbn [listener with_trace with_listener with_tcp_refs trace tcp_refs
       next_handshake_mgr clock].
  unfold bind at 1. unfold emit at 1.
  unfold bind at 1. unfold gpr_mu_init, emit at 1.
  unfold bind at 1. unfold emit at 1.
  unfold bind at 1. rewrite add_ports_runs.
  destruct (scan_ports _ _ _ _) as [[[port_num count] errors]|]; [|reflexivity].
  destruct w as [wl wr wn wc wt].
  unfold after_loop, loop_events, bound_state, no_address_added, only_some_added.
  cbn [with_trace with_listener with_tcp_refs listener tcp_refs trace
       next_handshake_mgr clock server_destroy_listener_done
       pending_handshake_mgrs zeroed_state].
  repeat rewrite <- app_assoc. cbn [app].
  destruct (count =? 0)%nat; [reflexivity|].
  unfold bind at 1.
  destruct (negb (count =? Datatypes.length addrs)%nat).
  - cbv [bind ret emit gpr_log grpc_exec_ctx_finish with_trace with_listener
         with_tcp_refs listener tcp_refs trace next_handshake_mgr clock].
    repeat rewrite <- app_assoc. cbn [app]. reflexivity.
  - rewrite unref_each_runs.
    cbv [bind ret emit gpr_log grpc_exec_ctx_finish with_trace with_listener
         with_tcp_refs listener tcp_refs trace next_handshake_mgr clock].
    repeat rewrite <- app_assoc. cbn [app]. reflexivity.
Qed.

Lemma filter_add_port_events (f : event -> bool) (ts : ptr) (addrs : list Z) :
  (forall i a, f (E_tcp_server_add_port ts i a) = false) ->
  forall i, filter f (add_port_events ts addrs i) = [].
Proof.
  intros Hf. induction addrs as [|a rest IH]; intros i; simpl; [reflexivity|].
  now rewrite Hf, IH.
Qed.

Lemma filter_error_unref (f : event -> bool) (es : list (option grpc_error)) :
  (forall e, f (E_error_unref e) = false) ->
  filter f (map E_error_unref es) = [].
Proof.
  intros Hf. induction es as [|e rest IH]; simpl; [reflexivity|].
  now rewrite Hf, IH.
Qed.

(** A bind call on a fresh world either leaves no listener state behind, or
    leaves the state of a listener that is not accepting yet, with an empty
    registry, at most the binding reference, and connector and credentials
    not released. *)
Lemma bind_outcome (env : bind_env) (srv : ptr) (addr : string)
  (creds : option grpc_server_credentials) (w w' : world) (port : Z) :
  listener w = None ->
  grpc_server_add_secure_http2_port env srv addr creds w = Ok port w' ->
  forall st, listener w' = Some st ->
  shutdown st = true
  /\ pending_handshake_mgrs st = []
  /\ (tcp_refs w' <= 1)%nat
  /\ filter is_connector_unref (trace w') = filter is_connector_unref (trace w)
  /\ filter is_credentials_unref (trace w') = filter is_credentials_unref (trace w).
Proof.
  intros Hl Hrun st Hst.
  destruct creds as [c|].
  2:{ rewrite bind_without_credentials in Hrun. inversion Hrun; subst.
      simpl in Hst. congruence. }
  destruct (create_security_connector env c) as [status sc0] eqn:Hconn.
  destruct status.
  2:{ unfold grpc_server_add_secure_http2_port in Hrun.
      unfold bind at 1 in Hrun. unfold emit at 1 in Hrun. rewrite Hconn in Hrun.
      unfold error_path in Hrun. destruct w as [wl wr wn wc wt]. simpl in Hl. subst wl.
      destruct (is_null sc0);
        cbv [bind ret emit negb grpc_exec_ctx_finish grpc_exec_ctx_flush GRPC_ERROR_UNREF
             GRPC_SECURITY_CONNECTOR_UNREF gpr_log with_trace with_listener
             listener tcp_refs trace next_handshake_mgr clock is_null NULL Z.eqb] in Hrun;
        inversion Hrun; subst; simpl in Hst; discriminate. }
  destruct (blocking_resolve_address env addr "https") as [e|addrs] eqn:Hres.
  { unfold grpc_server_add_secure_http2_port in Hrun.
    unfold bind at 1 in Hrun. unfold emit at 1 in Hrun. rewrite Hconn in Hrun.
    unfold bind at 1 in Hrun. unfold emit at 1 in Hrun. rewrite Hres in Hrun.
    unfold error_path in Hrun. destruct w as [wl wr wn wc wt]. simpl in Hl. subst wl.
    destruct (is_null sc0);
      cbv [bind ret emit negb grpc_exec_ctx_finish grpc_exec_ctx_flush GRPC_ERROR_UNREF
           GRPC_SECURITY_CONNECTOR_UNREF gpr_log with_trace with_listener
           listener tcp_refs trace next_handshake_mgr clock is_null NULL Z.eqb] in Hrun;
      inversion Hrun; subst; simpl in Hst; discriminate. }
  destruct (tcp_server_create env (server_channel_args srv)) as [e|ts] eqn:Hcreate.
  { unfold grpc_server_add_secure_http2_port in Hrun.
    unfold bind at 1 in Hrun. unfold emit at 1 in Hrun. rewrite Hconn in Hrun.
    unfold bind at 1 in Hrun. unfold emit at 1 in Hrun. rewrite Hres in Hrun.
    unfold bind at 1 in Hrun. unfold gpr_malloc_state, bind at 1, emit at 1 in Hrun.
    unfold bind at 1 in Hrun.
    unfold grpc_tcp_server_create, grpc_server_get_channel_args in Hrun.
    unfold bind at 1 in Hrun. unfold emit at 1 in Hrun. rewrite Hcreate in Hrun.
    unfold error_path in Hrun. destruct w as [wl wr wn wc wt]. simpl in Hl. subst wl.
    destruct (is_null sc0);
      cbv [bind ret emit negb grpc_exec_ctx_finish grpc_exec_ctx_flush GRPC_ERROR_UNREF
           GRPC_SECURITY_CONNECTOR_UNREF gpr_log gpr_free_state with_trace with_listener
           listener tcp_refs trace next_handshake_mgr clock is_null NULL Z.eqb] in Hrun;
      inversion Hrun; subst; simpl in Hst; discriminate. }
  rewrite (bind_reaches_loop env srv addr c sc0 ts addrs w Hconn Hres Hcreate) in Hrun.
  destruct (scan_ports _ _ _ _) as [[[port_num count] errors]|]; [|discriminate].
  cbv zeta in Hrun.
  assert (Hsc : forall i a, is_connector_unref (E_tcp_server_add_port ts i a) = false)
    by reflexivity.
  assert (Hcr : forall i a, is_credentials_unref (E_tcp_server_add_port ts i a) = false)
    by reflexivity.
  destruct (count =? 0)%nat.
  - destruct (Z.eq_dec ts NULL) as [Hnull|Hnull].
    + subst ts. unfold error_path in Hrun.
      unfold bind at 1 in Hrun. unfold bind at 1 in Hrun.
      rewrite unref_each_runs in Hrun.
      destruct (is_null sc0);
        cbv [bind ret emit negb grpc_exec_ctx_finish grpc_exec_ctx_flush GRPC_ERROR_UNREF
             GRPC_SECURITY_CONNECTOR_UNREF gpr_log gpr_free_state with_trace with_listener
             listener tcp_refs trace next_handshake_mgr clock is_null NULL Z.eqb
             after_loop] in Hrun;
        inversion Hrun; subst; simpl in Hst; discriminate.
    + rewrite error_path_after_listener in Hrun by exact Hnull.
      inversion Hrun; subst; clear Hrun. simpl in Hst. inversion Hst; subst; clear Hst.
      simpl. repeat split; try lia.
      * unfold loop_events. rewrite !filter_app. simpl.
        rewrite filter_add_port_events by exact Hsc.
        rewrite filter_error_unref by reflexivity. simpl. now rewrite !app_nil_r.
      * unfold loop_events. rewrite !filter_app. simpl.
        rewrite filter_add_port_events by exact Hcr.
        rewrite filter_error_unref by reflexivity. simpl. now rewrite !app_nil_r.
  - inversion Hrun; subst; clear Hrun. simpl in Hst. inversion Hst; subst; clear Hst.
    simpl. repeat split; try lia.
    + unfold loop_events. rewrite !filter_app. simpl.
      rewrite filter_add_port_events by exact Hsc.
      destruct (negb _); simpl; [|rewrite filter_error_unref by reflexivity];
        simpl; now rewrite ?app_nil_r.
    + unfold loop_events. rewrite !filter_app. simpl.
      rewrite filter_add_port_events by exact Hcr.
      destruct (negb _); simpl; [|rewrite filter_error_unref by reflexivity];
        simpl; now rewrite ?app_nil_r.
Qed.

(** ** The registry as a list *)

Lemma remove_node_absent (h : ptr) (l : list ptr) :
  ~ In h l -> remove_node h l = l.
Proof.
  induction l as [|x rest IH]; intros Hin; simpl; [reflexivity|].
  destruct (x =? h) eqn:E.
  - apply Z.eqb_eq in E. subst. exfalso. apply Hin. now left.
  - rewrite IH; [reflexivity|]. intros H. apply Hin. now right.
Qed.

Lemma remove_node_first (h : ptr) (l : list ptr) :
  In h l ->
  exists before after,
    l = before ++ h :: after /\ ~ In h before
    /\ remove_node h l = before ++ after.
Proof.
  induction l as [|x rest IH]; intros Hin; simpl in *; [contradiction|].
  destruct (x =? h) eqn:E.
  - apply Z.eqb_eq in E. subst x. exists [], rest. simpl. auto.
  - apply Z.eqb_neq in E. destruct Hin as [Hx|Hin]; [contradiction|].
    destruct (IH Hin) as (before & after & Hl & Hnot & Hrem).
    exists (x :: before), after. simpl. rewrite Hrem, <- Hl.
    repeat split; auto. intros [Hx|Hb]; [congruence|contradiction].
Qed.

Lemma remove_node_incl (h x : ptr) (l : list ptr) :
  In x (remove_node h l) -> In x l.
Proof.
  induction l as [|y rest IH]; simpl; [auto|].
  destruct (y =? h); simpl; intuition.
Qed.

Lemma remove_node_NoDup (h : ptr) (l : list ptr) :
  NoDup l -> NoDup (remove_node h l).
Proof.
  induction 1 as [|y rest Hnot Hnd IH]; simpl; [constructor|].
  destruct (y =? h); [exact Hnd|].
  constructor; [|exact IH]. intros Hin. apply Hnot.
  eapply remove_node_incl; exact Hin.
Qed.

Lemma remove_node_NoDup_absent (h : ptr) (l : list ptr) :
  NoDup l -> ~ In h (remove_node h l).
Proof.
  induction 1 as [|y rest Hnot Hnd IH]; simpl; [auto|].
  destruct (y =? h) eqn:E.
  - apply Z.eqb_eq in E. now subst.
  - apply Z.eqb_neq in E. simpl. intros [Hy|Hin]; [congruence|contradiction].
Qed.

Lemma remove_node_count (h : ptr) (l : list ptr) :
  count_occ Z.eq_dec (remove_node h l) h = Nat.pred (count_occ Z.eq_dec l h).
Proof.
  induction l as [|y rest IH]; simpl; [reflexivity|].
  destruct (y =? h) eqn:E.
  - apply Z.eqb_eq in E. subst. destruct (Z.eq_dec h h); [reflexivity|congruence].
  - apply Z.eqb_neq in E. simpl.
    destruct (Z.eq_dec y h); [congruence|exact IH].
Qed.

Lemma remove_node_count_other (h x : ptr) (l : list ptr) :
  x <> h ->
  count_occ Z.eq_dec (remove_node h l) x = count_occ Z.eq_dec l x.
Proof.
  intros Hx. induction l as [|y rest IH]; simpl; [reflexivity|].
  destruct (y =? h) eqn:E.
  - apply Z.eqb_eq in E. subst. destruct (Z.eq_dec h x); [congruence|reflexivity].
  - simpl. destruct (Z.eq_dec y x); now rewrite IH.
Qed.

Lemma take_handshake_some (mgr : ptr) (l : list pending_handshake)
  (h : pending_handshake) (rest : list pending_handshake) :
  take_handshake mgr l = Some (h, rest) ->
  hs_mgr h = mgr
  /\ In h l
  /\ List.length l = S (List.length rest)
  /\ remove_node mgr (map hs_mgr l) = map hs_mgr rest
  /\ (forall P, Forall P l -> Forall P rest).
Proof.
  revert h rest. induction l as [|x xs IH]; intros h rest H; simpl in *; [discriminate|].
  destruct (hs_mgr x =? mgr) eqn:E.
  - inversion H; subst. apply Z.eqb_eq in E.
    repeat split; auto. intros P HP. now inversion HP.
  - destruct (take_handshake mgr xs) as [[found rest']|]; [|discriminate].
    inversion H; subst. destruct (IH h rest' eq_refl) as (Hm & Hin & Hlen & Hrem & Hall).
    split; [exact Hm|]. split; [now right|]. split; [simpl; now f_equal|].
    split; [simpl; now rewrite Hrem|].
    intros P HP. inversion HP; subst. constructor; auto.
Qed.

(** ** The lifecycle invariant *)

Lemma runs_need_listener_accept (w : world) (tcp pollset acc : ptr) :
  listener w = None -> on_accept tcp pollset acc w = Fault.
Proof. intros Hl. unfold on_accept. run_world w. reflexivity. Qed.

Lemma runs_need_listener_done (w : world) (a : grpc_handshaker_args)
  (error : option grpc_error) :
  listener w = None -> on_handshake_done a error w = Fault.
Proof.
  intros Hl. unfold on_handshake_done. run_world w.
  destruct error; reflexivity.
Qed.

Lemma runs_need_listener_start (w : world) (pollsets : list ptr) :
  listener w = None -> server_start_listener pollsets w = Fault.
Proof. intros Hl. unfold server_start_listener. run_world w. reflexivity. Qed.

Lemma runs_need_listener_destroy (w : world) (d : option grpc_closure) :
  listener w = None -> server_destroy_listener d w = Fault.
Proof. intros Hl. unfold server_destroy_listener. run_world w. reflexivity. Qed.

Lemma runs_need_listener_complete (w : world) (error : option grpc_error) :
  listener w = None -> tcp_server_shutdown_complete error w = Fault.
Proof. intros Hl. unfold tcp_server_shutdown_complete. run_world w. reflexivity. Qed.

Lemma filter_snoc_nil {A} (f : A -> bool) (l evs : list A) :
  filter f l = [] -> filter f evs = [] -> filter f (l ++ evs) = [].
Proof. intros H1 H2. now rewrite filter_app, H1, H2. Qed.

Lemma outcome_events_no_release (s : server_secure_state)
  (a : grpc_handshaker_args) (error : option grpc_error) :
  filter is_connector_unref (outcome_events s a error ++ cleanup_events s a) = []
  /\ filter is_credentials_unref (outcome_events s a error ++ cleanup_events s a) = [].
Proof.
  unfold outcome_events, cleanup_events.
  destruct error; [|destruct (shutdown s)]; split; reflexivity.
Qed.

Lemma handshake_started_last (w : world) (evs : list event) (e : event) :
  handshake_started (with_trace (trace w ++ evs ++ [e]) w) = handshake_of_event e.
Proof.
  unfold handshake_started, with_trace; simpl.
  rewrite app_assoc, rev_app_distr. reflexivity.
Qed.

Lemma run_op_inv (s s' : system) (o : op) :
  sys_inv s -> run_op s o = Some s' -> sys_inv s'.
Proof.
  destruct s as [w fl held bd]. unfold sys_inv, run_op. simpl.
  intros Hinv Hrun.
  destruct o as [t|env srv addr c|pollsets|tcp pollset acc|a error|mgr buf|d|error].
  - (* tick *)
    inversion Hrun; subst; clear Hrun. simpl.
    destruct (listener w); exact Hinv.
  - (* bind *)
    destruct bd; [discriminate|].
    destruct (listener w) as [st|] eqn:Hl.
    { destruct Hinv as [Hb _]. discriminate. }
    specialize (Hinv eq_refl).
    destruct (grpc_server_add_secure_http2_port env srv addr c w) as [p w'| |] eqn:Hbind;
      simpl in Hrun; try discriminate.
    inversion Hrun; subst; clear Hrun. simpl.
    destruct (listener w') as [st'|] eqn:Hl'; [|intros Hf; discriminate Hf].
    destruct (bind_outcome env srv addr c w w' p Hl Hbind st' Hl')
      as (Hsh & Hpend & Hrefs & Hsc & Hcr).
    rewrite Hinv in Hsc, Hcr. simpl in Hsc, Hcr.
    rewrite Hpend. repeat split; auto; try constructor.
    destruct (tcp_refs w') as [|[|n]]; simpl; try reflexivity; lia.
  - (* start *)
    destruct held; [|discriminate].
    destruct (listener w) as [st|] eqn:Hl.
    2:{ rewrite runs_need_listener_start in Hrun by exact Hl. discriminate. }
    rewrite (server_start_listener_runs w st) in Hrun by exact Hl.
    inversion Hrun; subst; clear Hrun. simpl.
    destruct Hinv as (Hb & Hrefs & Hsh & Hpend & Hnd & Hlt & Hst & Hsc & Hcr).
    repeat split; auto; try discriminate;
      apply filter_snoc_nil; auto.
  - (* accept *)
    destruct (0 <? tcp_refs w)%nat; [|discriminate].
    destruct (listener w) as [st|] eqn:Hl.
    2:{ rewrite runs_need_listener_accept in Hrun by exact Hl. discriminate. }
    destruct Hinv as (Hb & Hrefs & Hsh & Hpend & Hnd & Hlt & Hst & Hsc & Hcr).
    destruct (shutdown st) eqn:Hshut.
    + rewrite (on_accept_rejects w st) in Hrun by assumption.
      simpl in Hrun.
      change [E_mu_lock; E_mu_unlock; E_endpoint_destroy tcp]
        with ([E_mu_lock; E_mu_unlock] ++ [E_endpoint_destroy tcp]) in Hrun.
      rewrite handshake_started_last in Hrun. simpl in Hrun.
      inversion Hrun; subst; clear Hrun. simpl. rewrite Hl.
      repeat split; auto; apply filter_snoc_nil; auto.
    + rewrite (on_accept_starts w st) in Hrun by assumption.
      simpl in Hrun. unfold handshake_started in Hrun. simpl in Hrun.
      rewrite rev_app_distr in Hrun. simpl in Hrun.
      inversion Hrun; subst; clear Hrun. simpl.
      repeat split; auto.
      * rewrite Hrefs. lia.
      * intros Hh. specialize (Hsh Hh). discriminate Hsh.
      * now rewrite Hpend.
      * constructor; [|exact Hnd]. intros Hin.
        rewrite Forall_forall in Hlt. apply Hlt in Hin. lia.
      * constructor; [lia|]. eapply Forall_impl; [|exact Hlt].
        simpl. intros; lia.
      * constructor; [reflexivity|exact Hst].
      * apply filter_snoc_nil; auto.
      * apply filter_snoc_nil; auto.
  - (* handshake done *)
    destruct (take_handshake (handshake_mgr (user_data a)) fl) as [[h rest]|] eqn:Htake;
      [|discriminate].
    destruct (conn_eqb (hs_user_data h) (user_data a)); [|discriminate].
    destruct (hs_on_done h). simpl in Hrun.
    destruct (listener w) as [st|] eqn:Hl.
    2:{ rewrite runs_need_listener_done in Hrun by exact Hl. discriminate. }
    rewrite (on_handshake_done_runs w st) in Hrun by exact Hl.
    inversion Hrun; subst; clear Hrun. simpl.
    destruct Hinv as (Hb & Hrefs & Hsh & Hpend & Hnd & Hlt & Hst & Hsc & Hcr).
    destruct (take_handshake_some _ _ _ _ Htake) as (Hm & Hin & Hlen & Hrem & Hall).
    destruct (outcome_events_no_release st a error) as [Ho1 Ho2].
    repeat split; auto.
    + rewrite Hrefs, Hlen. lia.
    + now rewrite Hpend, Hrem.
    + now apply remove_node_NoDup.
    + rewrite Forall_forall in *. intros x Hx. apply Hlt.
      eapply remove_node_incl; exact Hx.
    + apply filter_snoc_nil; auto.
    + apply filter_snoc_nil; auto.
  - (* handshake timeout *)
    destruct (take_handshake mgr fl) as [[h rest]|] eqn:Htake; [|discriminate].
    destruct (gpr_time_lt (hs_deadline h) (clock w)) eqn:Hlate; [|discriminate].
    unfold handshake_deadline_exceeded in Hrun. rewrite Hlate in Hrun.
    destruct (hs_on_done h). simpl in Hrun.
    destruct (listener w) as [st|] eqn:Hl.
    2:{ rewrite runs_need_listener_done in Hrun by exact Hl. discriminate. }
    rewrite (on_handshake_done_runs w st) in Hrun by exact Hl.
    inversion Hrun; subst; clear Hrun. simpl.
    destruct Hinv as (Hb & Hrefs & Hsh & Hpend & Hnd & Hlt & Hst & Hsc & Hcr).
    destruct (take_handshake_some _ _ _ _ Htake) as (Hm & Hin & Hlen & Hrem & Hall).
    assert (Hmgr : handshake_mgr (hs_user_data h) = mgr).
    { rewrite Forall_forall in Hst. rewrite (Hst h Hin). exact Hm. }
    rewrite Hmgr.
    repeat split; auto.
    + rewrite Hrefs, Hlen. lia.
    + now rewrite Hpend, Hrem.
    + now apply remove_node_NoDup.
    + rewrite Forall_forall in *. intros x Hx. apply Hlt.
      eapply remove_node_incl; exact Hx.
    + rewrite filter_app, Hsc. reflexivity.
    + rewrite filter_app, Hcr. reflexivity.
  - (* destroy *)
    destruct held; [|discriminate].
    destruct (listener w) as [st|] eqn:Hl.
    2:{ rewrite runs_need_listener_destroy in Hrun by exact Hl. discriminate. }
    rewrite (server_destroy_listener_runs w st) in Hrun by exact Hl.
    inversion Hrun; subst; clear Hrun. simpl.
    destruct Hinv as (Hb & Hrefs & Hsh & Hpend & Hnd & Hlt & Hst & Hsc & Hcr).
    repeat split; auto.
    + rewrite Hrefs. simpl. lia.
    + apply filter_snoc_nil; auto.
    + apply filter_snoc_nil; auto.
  - (* shutdown complete *)
    destruct bd; [|discriminate]. simpl in Hrun.
    destruct (tcp_refs w =? 0)%nat eqn:Hzero; [|discriminate].
    destruct (listener w) as [st|] eqn:Hl.
    2:{ rewrite runs_need_listener_complete in Hrun by exact Hl. discriminate. }
    destruct (shutdown st) eqn:Hshut.
    2:{ rewrite (tcp_server_shutdown_complete_asserts w st) in Hrun by assumption.
        discriminate. }
    rewrite (tcp_server_shutdown_complete_runs w st) in Hrun by assumption.
    inversion Hrun; subst; clear Hrun. simpl. intros Hf; discriminate Hf.
Qed.

(** ** The accept path during shutdown *)

(** C1. Whenever [on_accept] finds [state->shutdown] set, under the mutex,
    it returns having only locked, unlocked and destroyed the endpoint it was
    given: no handshake manager is created, no handshake is started, and the
    listener state, registry included, the listener's reference count and the
    supply of handshake managers are what they were. *)
Theorem on_accept_during_shutdown (w : world) (st : server_secure_state)
  (tcp pollset acc : ptr) :
  listener w = Some st ->
  shutdown st = true ->
  exists w',
    on_accept tcp pollset acc w = Ok tt w'
    /\ trace w' = trace w ++ [E_mu_lock; E_mu_unlock; E_endpoint_destroy tcp]
    /\ listener w' = Some st
    /\ tcp_refs w' = tcp_refs w
    /\ next_handshake_mgr w' = next_handshake_mgr w
    /\ handshake_started w' = None.
Proof.
  intros Hl Hs. eexists. split; [apply (on_accept_rejects w st); assumption|].
  simpl. repeat split; auto.
  change [E_mu_lock; E_mu_unlock; E_endpoint_destroy tcp]
    with ([E_mu_lock; E_mu_unlock] ++ [E_endpoint_destroy tcp]).
  apply handshake_started_last.
Qed.

Lemma on_accept_during_shutdown_witness :
  exists w',
    on_accept 21 31 32 (sample_world true [7; 8]) = Ok tt w'
    /\ trace w' = [E_mu_lock; E_mu_unlock; E_endpoint_destroy 21]
    /\ listener w' = Some (sample_state true [7; 8])
    /\ tcp_refs w' = 3%nat
    /\ next_handshake_mgr w' = 100
    /\ handshake_started w' = None.
Proof.
  apply (on_accept_during_shutdown (sample_world true [7; 8])
           (sample_state true [7; 8]) 21 31 32); reflexivity.
Defined.

(** ** The handshake-done callback *)

(** C4. Whatever the outcome handed to [on_handshake_done] (an error, or
    success with the listener active or shutting down), it returns having
    removed one registry entry of the connection's handshake manager, and
    having ended, after unlocking, with the destruction of the handshake
    manager, the release of one listener reference, the freeing of the
    connection state and the destruction of the channel args. *)
Theorem on_handshake_done_always_cleans_up (w : world) (st : server_secure_state)
  (a : grpc_handshaker_args) (error : option grpc_error) :
  listener w = Some st ->
  let mgr := handshake_mgr (user_data a) in
  exists w' st' before,
    on_handshake_done a error w = Ok tt w'
    /\ listener w' = Some st'
    /\ pending_handshake_mgrs st'
       = remove_node mgr (pending_handshake_mgrs st)
    /\ count_occ Z.eq_dec (pending_handshake_mgrs st') mgr
       = Nat.pred (count_occ Z.eq_dec (pending_handshake_mgrs st) mgr)
    /\ (NoDup (pending_handshake_mgrs st) -> ~ In mgr (pending_handshake_mgrs st'))
    /\ tcp_refs w' = Nat.pred (tcp_refs w)
    /\ In E_mu_lock before
    /\ trace w' = trace w ++ before
                  ++ [E_mu_unlock;
                      E_handshake_manager_destroy mgr;
                      E_tcp_server_unref (tcp_server st);
                      E_free_connection_state (user_data a);
                      E_channel_args_destroy (args a)].
Proof.
  intros Hl mgr.
  exists {| listener := Some (with_pending_handshake_mgrs
                                (remove_node mgr (pending_handshake_mgrs st)) st);
            tcp_refs := Nat.pred (tcp_refs w);
            next_handshake_mgr := next_handshake_mgr w;
            clock := clock w;
            trace := trace w ++ outcome_events st a error ++ cleanup_events st a |}.
  exists (with_pending_handshake_mgrs (remove_node mgr (pending_handshake_mgrs st)) st).
  exists (outcome_events st a error).
  split; [apply on_handshake_done_runs; exact Hl|]. simpl.
  repeat split; auto.
  - apply remove_node_count.
  - apply remove_node_NoDup_absent.
  - unfold outcome_events. destruct error; [|destruct (shutdown st)]; simpl; auto.
Qed.

Lemma on_handshake_done_always_cleans_up_witness :
  exists w' st' before,
    on_handshake_done (sample_args 8) (Some handshake_timed_out)
      (sample_world false [7; 8; 9]) = Ok tt w'
    /\ listener w' = Some st'
    /\ pending_handshake_mgrs st' = remove_node 8 [7; 8; 9]
    /\ count_occ Z.eq_dec (pending_handshake_mgrs st') 8
       = Nat.pred (count_occ Z.eq_dec [7; 8; 9] 8)
    /\ (NoDup [7; 8; 9] -> ~ In 8 (pending_handshake_mgrs st'))
    /\ tcp_refs w' = Nat.pred 3
    /\ In E_mu_lock before
    /\ trace w' = [] ++ before
                  ++ [E_mu_unlock;
                      E_handshake_manager_destroy 8;
                      E_tcp_server_unref 12;
                      E_free_connection_state (user_data (sample_args 8));
                      E_channel_args_destroy (server_channel_args 11)].
Proof.
  apply (on_handshake_done_always_cleans_up (sample_world false [7; 8; 9])
           (sample_state false [7; 8; 9]) (sample_args 8)
           (Some handshake_timed_out)).
  reflexivity.
Defined.

(** ** Binding without credentials *)

(** C6. A bind call with [creds == NULL] returns the sentinel port 0 after
    finishing the execution context and logging, at error severity, the
    "No credentials specified" error; it consults no collaborator and makes
    none of the calls that acquire a resource: no security connector, no
    address resolution, no listener state, no network listener, no
    registration with the server. *)
Theorem bind_without_credentials_fails (env : bind_env) (srv : ptr)
  (addr : string) (w : world) :
  let err := GRPC_ERROR_CREATE
               "No credentials specified for secure server port (creds==NULL)" in
  exists w' evs,
    grpc_server_add_secure_http2_port env srv addr None w = Ok 0 w'
    /\ trace w' = trace w ++ evs
    /\ evs = [E_exec_ctx_finish; E_error_unref (Some err); E_log GPR_ERROR "%s" err]
    /\ filter acquires_resource evs = []
    /\ listener w' = listener w
    /\ tcp_refs w' = tcp_refs w.
Proof.
  intros err. eexists. eexists.
  split; [apply bind_without_credentials|].
  simpl. repeat split; reflexivity.
Qed.

(** ** Removal from the registry *)

(** C8. [pending_handshake_manager_remove_locked] changes nothing but the
    registry; it unlinks exactly the first node holding the handle, leaving
    the nodes before and after it in place; with no such node it leaves the
    world as it is; and on a registry without duplicate handles a second
    removal of the same handle changes nothing. *)
Theorem remove_locked_deletes_first_match (w : world) (st : server_secure_state)
  (mgr : ptr) :
  listener w = Some st ->
  let pending := pending_handshake_mgrs st in
  exists w',
    pending_handshake_manager_remove_locked mgr w = Ok tt w'
    /\ w' = with_listener
              (Some (with_pending_handshake_mgrs (remove_node mgr pending) st)) w
    /\ (In mgr pending ->
        exists before after,
          pending = before ++ mgr :: after
          /\ ~ In mgr before
          /\ remove_node mgr pending = before ++ after)
    /\ (~ In mgr pending -> w' = w)
    /\ (NoDup pending ->
        pending_handshake_manager_remove_locked mgr w' = Ok tt w').
Proof.
  intros Hl pending. eexists. split.
  { unfold pending_handshake_manager_remove_locked, modify. rewrite Hl. reflexivity. }
  split; [reflexivity|]. split; [apply remove_node_first|]. split.
  - intros Hnot. rewrite remove_node_absent by exact Hnot.
    destruct w as [wl wr wn wc wt]; simpl in *. subst wl.
    destruct st; reflexivity.
  - intros Hnd. subst pending.
    unfold pending_handshake_manager_remove_locked, modify. simpl.
    rewrite (remove_node_absent mgr (remove_node mgr (pending_handshake_mgrs st)))
      by (apply remove_node_NoDup_absent; exact Hnd).
    reflexivity.
Qed.

Lemma remove_locked_deletes_first_match_witness :
  exists w',
    pending_handshake_manager_remove_locked 8 (sample_world false [7; 8; 9]) = Ok tt w'
    /\ w' = with_listener
              (Some (with_pending_handshake_mgrs (remove_node 8 [7; 8; 9])
                       (sample_state false [7; 8; 9])))
              (sample_world false [7; 8; 9])
    /\ (In 8 [7; 8; 9] ->
        exists before after,
          [7; 8; 9] = before ++ 8 :: after
          /\ ~ In 8 before
          /\ remove_node 8 [7; 8; 9] = before ++ after)
    /\ (~ In 8 [7; 8; 9] -> w' = sample_world false [7; 8; 9])
    /\ (NoDup [7; 8; 9] ->
        pending_handshake_manager_remove_locked 8 w' = Ok tt w').
Proof.
  apply (remove_locked_deletes_first_match (sample_world false [7; 8; 9])
           (sample_state false [7; 8; 9]) 8).
  reflexivity.
Defined.

(** On a registry holding a handle twice, which the accept path never
    builds (see [sys_inv]), each removal unlinks one node. *)
Lemma remove_node_twice_with_duplicates :
  remove_node 8 [8; 7; 8] = [7; 8]
  /\ remove_node 8 (remove_node 8 [8; 7; 8]) = [7].
Proof. split; reflexivity. Qed.

(** ** The handshake deadline *)

Lemma gpr_time_add_nanoseconds (a b : gpr_timespec) :
  nanoseconds (gpr_time_add a b) = nanoseconds a + nanoseconds b
  /\ clock_type (gpr_time_add a b) = clock_type a.
Proof.
  unfold gpr_time_add, nanoseconds.
  destruct (GPR_NS_PER_SEC <=? tv_nsec a + tv_nsec b); simpl; split;
    try reflexivity; unfold GPR_NS_PER_SEC; lia.
Qed.

(** C9. A handshake started by [on_accept] is handed to the handshake
    manager with a deadline on the monotonic clock exactly 120 seconds after
    the clock reading taken as the handshake is started, and with
    [on_handshake_done] as its completion callback; when the handshake
    manager finds that deadline exceeded, what runs is [on_handshake_done]
    with an error, which logs the failure, destroys the endpoint, and goes
    through the same registry removal and cleanup as any other failure. *)
Theorem handshake_deadline_is_120_seconds (w : world) (st : server_secure_state)
  (tcp pollset acc : ptr) :
  listener w = Some st ->
  shutdown st = false ->
  exists w' h,
    on_accept tcp pollset acc w = Ok tt w'
    /\ handshake_started w' = Some h
    /\ hs_mgr h = next_handshake_mgr w
    /\ hs_endpoint h = tcp
    /\ clock_type (hs_deadline h) = GPR_CLOCK_MONOTONIC
    /\ nanoseconds (hs_deadline h) = nanoseconds (clock w) + 120 * GPR_NS_PER_SEC
    /\ hs_on_done h = on_handshake_done_cb
    /\ forall (w2 : world) (st2 : server_secure_state) (buf : ptr),
         listener w2 = Some st2 ->
         gpr_time_lt (hs_deadline h) (clock w2) = true ->
         let a := {| endpoint := tcp; args := hs_args h; read_buffer := buf;
                     user_data := hs_user_data h |} in
         handshake_deadline_exceeded h buf w2
         = on_handshake_done a (Some handshake_timed_out) w2
         /\ exists w3,
              on_handshake_done a (Some handshake_timed_out) w2 = Ok tt w3
              /\ listener w3
                 = Some (with_pending_handshake_mgrs
                           (remove_node (hs_mgr h) (pending_handshake_mgrs st2)) st2)
              /\ trace w3
                 = trace w2
                   ++ [E_log GPR_ERROR "Handshaking failed: %s" handshake_timed_out;
                       E_endpoint_destroy tcp;
                       E_free_read_buffer buf;
                       E_mu_lock]
                   ++ cleanup_events st2 a.
Proof.
  intros Hl Hs.
  eexists. eexists. split; [apply (on_accept_starts w st); assumption|].
  split.
  { unfold handshake_started. cbn [trace]. rewrite rev_app_distr. reflexivity. }
  cbn [hs_mgr hs_endpoint hs_deadline hs_on_done hs_args hs_user_data].
  destruct (gpr_time_add_nanoseconds
              {| tv_sec := tv_sec (clock w); tv_nsec := tv_nsec (clock w);
                 clock_type := GPR_CLOCK_MONOTONIC |}
              (gpr_time_from_seconds 120 GPR_TIMESPAN)) as [Hns Hct].
  split; [reflexivity|]. split; [reflexivity|]. split; [exact Hct|].
  split; [rewrite Hns; unfold nanoseconds; simpl; lia|].
  split; [reflexivity|].
  intros w2 st2 buf Hl2 Hlate. split.
  - unfold handshake_deadline_exceeded. cbn [hs_deadline]. rewrite Hlate. reflexivity.
  - eexists. split; [apply (on_handshake_done_runs w2 st2); assumption|].
    split; reflexivity.
Qed.

Lemma handshake_deadline_is_120_seconds_witness :
  exists w' h,
    on_accept 21 31 32 (sample_world false [7]) = Ok tt w'
    /\ handshake_started w' = Some h
    /\ hs_mgr h = 100
    /\ hs_endpoint h = 21
    /\ clock_type (hs_deadline h) = GPR_CLOCK_MONOTONIC
    /\ nanoseconds (hs_deadline h) = nanoseconds sample_time + 120 * GPR_NS_PER_SEC
    /\ hs_on_done h = on_handshake_done_cb
    /\ forall (w2 : world) (st2 : server_secure_state) (buf : ptr),
         listener w2 = Some st2 ->
         gpr_time_lt (hs_deadline h) (clock w2) = true ->
         let a := {| endpoint := 21; args := hs_args h; read_buffer := buf;
                     user_data := hs_user_data h |} in
         handshake_deadline_exceeded h buf w2
         = on_handshake_done a (Some handshake_timed_out) w2
         /\ exists w3,
              on_handshake_done a (Some handshake_timed_out) w2 = Ok tt w3
              /\ listener w3
                 = Some (with_pending_handshake_mgrs
                           (remove_node (hs_mgr h) (pending_handshake_mgrs st2)) st2)
              /\ trace w3
                 = trace w2
                   ++ [E_log GPR_ERROR "Handshaking failed: %s" handshake_timed_out;
                       E_endpoint_destroy 21;
                       E_free_read_buffer buf;
                       E_mu_lock]
                   ++ cleanup_events st2 a.
Proof.
  apply (handshake_deadline_is_120_seconds (sample_world false [7])
           (sample_state false [7]) 21 31 32); reflexivity.
Defined.

(** ** Agreement on the port *)

Lemma scan_ports_fixed (rs : list (grpc_error + Z)) :
  forall port_num count errors,
  port_num <> -1 ->
  (scan_ports rs port_num count errors = None
   <-> exists q, In q (successes rs) /\ q <> port_num).
Proof.
  induction rs as [|[e|p] rest IH]; intros pn c es Hpn; simpl.
  - split; [discriminate|]. intros (q & [] & _).
  - apply IH. exact Hpn.
  - destruct (pn =? -1) eqn:E1; [apply Z.eqb_eq in E1; contradiction|].
    destruct (pn =? p) eqn:E2.
    + apply Z.eqb_eq in E2. subst p. rewrite IH by exact Hpn. split.
      * intros (q & Hin & Hq). exists q. auto.
      * intros (q & [Hq|Hin] & Hne); [congruence|]. exists q. auto.
    + apply Z.eqb_neq in E2. split; [|reflexivity].
      intros _. exists p. split; [now left|congruence].
Qed.

Lemma scan_ports_unset (rs : list (grpc_error + Z)) :
  Forall (fun p => p <> -1) (successes rs) ->
  forall count errors,
  (scan_ports rs (-1) count errors = None <-> ports_disagree rs).
Proof.
  unfold ports_disagree.
  induction rs as [|[e|p] rest IH]; intros Hvalid c es; simpl in *.
  - split; [discriminate|]. intros (p & q & [] & _).
  - apply IH. exact Hvalid.
  - inversion Hvalid as [|? ? Hp Hrest]; subst.
    rewrite scan_ports_fixed by exact Hp. split.
    + intros (q & Hin & Hq). exists q, p. auto.
    + intros (x & y & Hx & Hy & Hne).
      destruct Hx as [Hx|Hx]; destruct Hy as [Hy|Hy].
      * congruence.
      * subst x. exists y. split; [exact Hy|congruence].
      * subst y. exists x. split; [exact Hx|congruence].
      * destruct (Z.eq_dec x p) as [Hxp|Hxp].
        -- subst x. exists y. split; [exact Hy|congruence].
        -- exists x. auto.
Qed.

Lemma agree_not_disagree (rs : list (grpc_error + Z)) :
  ports_agree rs -> ~ ports_disagree rs.
Proof.
  intros Ha (p & q & Hp & Hq & Hne). apply Hne. now apply Ha.
Qed.

Lemma ports_agree_shared (rs : list (grpc_error + Z)) :
  ports_agree rs -> Forall (eq (shared_port rs)) (successes rs).
Proof.
  unfold ports_agree, shared_port. intros Ha.
  apply Forall_forall. intros q Hq.
  destruct (successes rs) as [|p rest]; [contradiction|].
  simpl. apply Ha; [now left|exact Hq].
Qed.

Lemma error_path_runs (errors : option (list (option grpc_error)))
  (resolved : option (list Z)) (ts sc : ptr) (state : bool) (e : grpc_error)
  (w : world) :
  exists w',
    error_path errors resolved ts sc state (Some e) w = Ok 0 w'
    /\ trace w' = trace w ++ error_path_events errors resolved ts sc state e.
Proof.
  unfold error_path, error_path_events.
  unfold bind at 1.
  assert (H1 : exists w1, (match errors with
                           | Some es => unref_each es;; emit E_free_errors
                           | None => ret tt
                           end) w = Ok tt w1
                          /\ trace w1 = trace w ++ match errors with
                                                   | Some es => map E_error_unref es
                                                                ++ [E_free_errors]
                                                   | None => []
                                                   end).
  { destruct errors as [es|].
    - unfold bind. rewrite unref_each_runs. eexists. split; [reflexivity|].
      simpl. now rewrite <- app_assoc.
    - eexists. split; [reflexivity|]. now rewrite app_nil_r. }
  destruct H1 as (w1 & -> & Ht1).
  unfold bind at 1.
  assert (H2 : exists w2, (match resolved with
                           | Some _ => emit E_resolved_addresses_destroy
                           | None => ret tt
                           end) w1 = Ok tt w2
                          /\ trace w2 = trace w1 ++ match resolved with
                                                    | Some _ => [E_resolved_addresses_destroy]
                                                    | None => []
                                                    end).
  { destruct resolved; eexists; (split; [reflexivity|]); simpl;
      now rewrite ?app_nil_r. }
  destruct H2 as (w2 & -> & Ht2).
  rewrite Ht1 in Ht2. clear Ht1.
  unfold bind at 1.
  destruct (negb (is_null ts)).
  - eexists. split; [reflexivity|]. simpl. rewrite Ht2.
    repeat rewrite <- app_assoc. reflexivity.
  - unfold bind at 1.
    destruct (negb (is_null sc)); destruct state;
      (eexists; split; [reflexivity|]); simpl; rewrite Ht2;
      repeat rewrite <- app_assoc; reflexivity.
Qed.

(** C7. In a bind call that reaches the binding loop, with every successful
    binding reporting a port (not the [-1] that marks "no port yet"): if two
    successful bindings report different ports the call ends in the failure
    of [GPR_ASSERT(port_num == port_temp)], returning no port at all; and if
    all successful bindings report the same port no assertion fails and the
    call returns. *)
Theorem port_disagreement_is_asserted (env : bind_env) (srv : ptr) (addr : string)
  (c : grpc_server_credentials) (sc ts : ptr) (addrs : list Z) (w : world) :
  create_security_connector env c = (GRPC_SECURITY_OK, sc) ->
  blocking_resolve_address env addr "https" = inr addrs ->
  tcp_server_create env (server_channel_args srv) = inr ts ->
  let rs := port_results env ts addrs 0 in
  Forall (fun p => p <> -1) (successes rs) ->
  (ports_disagree rs ->
   grpc_server_add_secure_http2_port env srv addr (Some c) w = AssertionFailed)
  /\ (ports_agree rs ->
      exists port w',
        grpc_server_add_secure_http2_port env srv addr (Some c) w = Ok port w').
Proof.
  intros Hconn Hres Hcreate rs Hvalid.
  rewrite (bind_reaches_loop env srv addr c sc ts addrs w Hconn Hres Hcreate).
  fold rs. split.
  - intros Hdis. apply (scan_ports_unset rs Hvalid 0%nat []) in Hdis.
    now rewrite Hdis.
  - intros Hagree.
    destruct (scan_ports rs (-1) 0 []) as [[[port_num count] errors]|] eqn:Hscan.
    + cbv zeta. destruct (count =? 0)%nat.
      * destruct (error_path_runs (Some errors) (Some addrs) ts sc true
                    (no_address_added (List.length addrs) errors)
                    (after_loop w srv addr c sc ts addrs)) as (w' & Hw' & _).
        exists 0, w'. exact Hw'.
      * eexists. eexists. reflexivity.
    + apply (scan_ports_unset rs Hvalid 0%nat []) in Hscan.
      exfalso. exact (agree_not_disagree rs Hagree Hscan).
Qed.

Lemma port_disagreement_is_asserted_witness :
  grpc_server_add_secure_http2_port
    (sample_env [1; 2; 3] [inr 443; inl (error_external 5); inr 8443])
    11 "localhost:443" (Some sample_credentials)
    (initial_world 100 sample_time)
  = AssertionFailed.
Proof.
  refine (proj1 (port_disagreement_is_asserted
                   (sample_env [1; 2; 3] [inr 443; inl (error_external 5); inr 8443])
                   11 "localhost:443" sample_credentials 13 12 [1; 2; 3]
                   (initial_world 100 sample_time)
                   eq_refl eq_refl eq_refl _) _).
  - simpl. repeat constructor; discriminate.
  - exists 443, 8443. simpl. repeat split; auto. discriminate.
Defined.

(** Why the ports are required to differ from [-1]: [port_num] holds [-1]
    until a port has been seen, so a binding that reported [-1] itself would
    leave it unset and the next port would be taken without comparison. A
    port number, in the design document, is positive. *)
Lemma unset_marker_is_not_compared :
  scan_ports [inr (-1); inr 443] (-1) 0 [] = Some (443, 2%nat, [None; None]).
Proof. reflexivity. Qed.

(** ** The partial-failure policy *)

Lemma all_succeeded (rs : list (grpc_error + Z)) :
  List.length (successes rs) = List.length rs ->
  map error_slot rs = repeat None (List.length rs).
Proof.
  induction rs as [|[e|p] rest IH]; simpl; intros H; [reflexivity| |].
  - pose proof (successes_failed_length rest). lia.
  - f_equal. apply IH. lia.
Qed.

Lemma filter_error_unref_all (es : list (option grpc_error)) :
  filter is_error_unref (map E_error_unref es) = map E_error_unref es.
Proof.
  induction es as [|e rest IH]; simpl; [reflexivity|]. now rewrite IH.
Qed.

Lemma loop_events_filters (srv : ptr) (addr : string) (c : grpc_server_credentials)
  (ts : ptr) (addrs : list Z) :
  filter is_add_listener (loop_events srv addr c ts addrs) = []
  /\ filter is_log (loop_events srv addr c ts addrs) = []
  /\ filter is_error_unref (loop_events srv addr c ts addrs) = [].
Proof.
  unfold loop_events. rewrite !filter_app. simpl.
  rewrite !filter_add_port_events by reflexivity. auto.
Qed.

Lemma error_path_events_filters (es : list (option grpc_error)) (addrs : list Z)
  (ts sc : ptr) (e : grpc_error) :
  filter is_add_listener (error_path_events (Some es) (Some addrs) ts sc true e) = []
  /\ filter is_log (error_path_events (Some es) (Some addrs) ts sc true e)
     = [E_log GPR_ERROR "%s" e].
Proof.
  unfold error_path_events. rewrite !filter_app.
  rewrite !filter_error_unref by reflexivity.
  destruct (negb (is_null ts)); [split; reflexivity|].
  destruct (negb (is_null sc)); split; reflexivity.
Qed.

(** C5. In a bind call that reaches the binding loop over [naddrs] resolved
    addresses, [count] of which bind, all on one port: with [count = 0] the
    call returns 0, registers nothing and logs the aggregate error carrying
    all [naddrs] failures; with [0 < count < naddrs] it registers the
    listener, returns the shared port and logs one warning carrying the
    [naddrs - count] failures; with every address bound ([0 < count =
    naddrs]) it registers the listener, returns the shared port, logs nothing
    and drops the [naddrs] success markers. *)
Theorem bind_applies_partial_failure_policy (env : bind_env) (srv : ptr)
  (addr : string) (c : grpc_server_credentials) (sc ts : ptr) (addrs : list Z)
  (w : world) :
  create_security_connector env c = (GRPC_SECURITY_OK, sc) ->
  blocking_resolve_address env addr "https" = inr addrs ->
  tcp_server_create env (server_channel_args srv) = inr ts ->
  let rs := port_results env ts addrs 0 in
  ports_agree rs ->
  List.length rs = List.length addrs
  /\ bind_policy srv rs w
       (grpc_server_add_secure_http2_port env srv addr (Some c) w).
Proof.
  intros Hconn Hres Hcreate rs Hagree.
  assert (Hlen : List.length rs = List.length addrs) by apply port_results_length.
  split; [exact Hlen|].
  rewrite (bind_reaches_loop env srv addr c sc ts addrs w Hconn Hres Hcreate).
  fold rs.
  rewrite (scan_ports_agree (shared_port rs) rs (ports_agree_shared rs Hagree)
             (-1) 0%nat [] (or_introl eq_refl)).
  cbv zeta. cbn [app Nat.add]. rewrite <- Hlen.
  destruct (loop_events_filters srv addr c ts addrs) as (Hf1 & Hf2 & Hf3).
  pose proof (successes_failed_length rs) as Hsum.
  unfold bind_policy. split; [|split].
  - (* no address bound *)
    intros Hk. rewrite Hk. cbn [Nat.eqb].
    destruct (error_path_runs (Some (map error_slot rs)) (Some addrs) ts sc true
                (no_address_added (List.length rs) (map error_slot rs))
                (after_loop w srv addr c sc ts addrs)) as (w' & Hrun & Htr).
    destruct (error_path_events_filters (map error_slot rs) addrs ts sc
                (no_address_added (List.length rs) (map error_slot rs)))
      as (He1 & He2).
    exists w'. eexists. split; [exact Hrun|]. split.
    { rewrite Htr. cbn [after_loop trace]. rewrite <- app_assoc. reflexivity. }
    rewrite !filter_app, Hf1, Hf2, He1, He2.
    unfold no_address_added, GRPC_ERROR_CREATE_REFERENCING.
    rewrite failures_error_slot.
    repeat split; auto. lia.
  - (* some addresses bound *)
    intros [Hpos Hlt].
    destruct (List.length (successes rs) =? 0)%nat eqn:E0;
      [apply Nat.eqb_eq in E0; lia|].
    destruct (List.length (successes rs) =? List.length rs)%nat eqn:En;
      [apply Nat.eqb_eq in En; lia|].
    cbn [negb].
    eexists. eexists. eexists. split; [reflexivity|]. split.
    { pose proof (ports_agree_shared rs Hagree) as Hshared.
      destruct (successes rs); [constructor|exact Hshared]. }
    split.
    { cbn [with_trace after_loop trace]. rewrite <- app_assoc. reflexivity. }
    rewrite !filter_app, Hf1, Hf2.
    unfold only_some_added, GRPC_ERROR_CREATE_REFERENCING.
    rewrite failures_error_slot.
    repeat split; auto. lia.
  - (* every address bound *)
    intros [Hpos Hall].
    destruct (List.length (successes rs) =? 0)%nat eqn:E0;
      [apply Nat.eqb_eq in E0; lia|].
    rewrite Hall, Nat.eqb_refl. cbn [negb].
    eexists. eexists. eexists. split; [reflexivity|]. split.
    { pose proof (ports_agree_shared rs Hagree) as Hshared.
      destruct (successes rs); [constructor|exact Hshared]. }
    split.
    { cbn [with_trace after_loop trace]. rewrite <- app_assoc. reflexivity. }
    rewrite !filter_app, Hf1, Hf2, Hf3.
    rewrite !filter_error_unref by reflexivity.
    rewrite filter_error_unref_all.
    rewrite (all_succeeded rs Hall), map_repeat.
    repeat split; auto.
    simpl. now rewrite app_nil_r.
Qed.

Lemma bind_applies_partial_failure_policy_witness :
  List.length (port_results sample_partial_env 12 [1; 2; 3] 0) = 3%nat
  /\ bind_policy 11 (port_results sample_partial_env 12 [1; 2; 3] 0)
       (initial_world 100 sample_time)
       (grpc_server_add_secure_http2_port sample_partial_env 11 "localhost:443"
          (Some sample_credentials) (initial_world 100 sample_time)).
Proof.
  apply (bind_applies_partial_failure_policy sample_partial_env 11 "localhost:443"
           sample_credentials 13 12 [1; 2; 3] (initial_world 100 sample_time)
           eq_refl eq_refl eq_refl).
  intros p q Hp Hq. simpl in Hp, Hq.
  destruct Hp as [Hp|[Hp|[]]]; destruct Hq as [Hq|[Hq|[]]]; congruence.
Defined.

(** An address that resolves to no concrete address is a call in which no
    address binds: the binder fails. *)
Lemma bind_without_addresses :
  exists w',
    grpc_server_add_secure_http2_port sample_unresolved_env 11 "localhost:443"
      (Some sample_credentials) (initial_world 100 sample_time) = Ok 0 w'
    /\ filter is_add_listener (trace w') = []
    /\ filter is_log (trace w')
       = [E_log GPR_ERROR "%s"
            (error_create "No address added out of total 0 resolved" [])].
Proof.
  eexists. split; [vm_compute; reflexivity|]. split; reflexivity.
Qed.

(** ** Runs of the lifecycle *)

Lemma initial_system_inv (first_mgr : ptr) (t : gpr_timespec) :
  sys_inv (initial_system first_mgr t).
Proof. unfold sys_inv. simpl. reflexivity. Qed.

Lemma run_ops_inv (ops : list op) :
  forall s s', sys_inv s -> run_ops s ops = Some s' -> sys_inv s'.
Proof.
  induction ops as [|o rest IH]; intros s s' Hinv Hrun; simpl in Hrun.
  - inversion Hrun; subst. exact Hinv.
  - destruct (run_op s o) as [s1|] eqn:Hstep; [|discriminate].
    apply (IH s1 s'); [|exact Hrun].
    eapply run_op_inv; eassumption.
Qed.

Lemma reachable_inv (s : system) : reachable s -> sys_inv s.
Proof.
  intros (first_mgr & t & ops & Hrun).
  eapply run_ops_inv; [apply initial_system_inv|exact Hrun].
Qed.

Lemma run_ops_app (ops1 ops2 : list op) :
  forall s s1 s2,
  run_ops s ops1 = Some s1 -> run_ops s1 ops2 = Some s2 ->
  run_ops s (ops1 ++ ops2) = Some s2.
Proof.
  induction ops1 as [|o rest IH]; intros s s1 s2 H1 H2; simpl in *.
  - inversion H1; subst. exact H2.
  - destruct (run_op s o) as [s'|]; [|discriminate]. eapply IH; eassumption.
Qed.

(** Once the state is gone only the clock moves. *)
Lemma gone_step (s s' : system) (o : op) :
  gone s -> run_op s o = Some s' ->
  is_shutdown_complete o = false
  /\ gone s'
  /\ trace (sys_world s') = trace (sys_world s).
Proof.
  destruct s as [w fl held bd]. unfold gone, run_op. simpl.
  intros [Hl Hb] Hrun. subst bd.
  destruct o as [t|env srv addr c|pollsets|tcp pollset acc|a error|mgr buf|d|error].
  - inversion Hrun; subst. simpl. auto.
  - discriminate.
  - destruct held; [|discriminate].
    rewrite runs_need_listener_start in Hrun by exact Hl. discriminate.
  - destruct (0 <? tcp_refs w)%nat; [|discriminate].
    rewrite runs_need_listener_accept in Hrun by exact Hl. discriminate.
  - destruct (take_handshake _ fl) as [[h rest]|]; [|discriminate].
    destruct (conn_eqb _ _); [|discriminate].
    destruct (hs_on_done h). simpl in Hrun.
    rewrite runs_need_listener_done in Hrun by exact Hl. discriminate.
  - destruct (take_handshake _ fl) as [[h rest]|]; [|discriminate].
    destruct (gpr_time_lt _ _) eqn:Hlate; [|discriminate].
    unfold handshake_deadline_exceeded in Hrun. rewrite Hlate in Hrun.
    destruct (hs_on_done h). simpl in Hrun.
    rewrite runs_need_listener_done in Hrun by exact Hl. discriminate.
  - destruct held; [|discriminate].
    rewrite runs_need_listener_destroy in Hrun by exact Hl. discriminate.
  - simpl in Hrun. destruct (tcp_refs w =? 0)%nat; [|discriminate].
    rewrite runs_need_listener_complete in Hrun by exact Hl. discriminate.
Qed.

Lemma gone_run (ops : list op) :
  forall s s', gone s -> run_ops s ops = Some s' ->
  filter is_shutdown_complete ops = []
  /\ gone s'
  /\ trace (sys_world s') = trace (sys_world s).
Proof.
  induction ops as [|o rest IH]; intros s s' Hg Hrun; simpl in Hrun.
  - inversion Hrun; subst. auto.
  - destruct (run_op s o) as [s1|] eqn:Hstep; [|discriminate].
    destruct (gone_step s s1 o Hg Hstep) as (Ho & Hg1 & Ht1).
    destruct (IH s1 s' Hg1 Hrun) as (Hf & Hg' & Ht').
    simpl. rewrite Ho, Hf, Ht', Ht1. auto.
Qed.

(** When the network listener reports shutdown complete, no handshake is in
    flight, the registry is empty, the binding reference has been released,
    and the step runs to the end. *)
Lemma shutdown_complete_step (s s' : system) (error : option grpc_error) :
  sys_inv s -> run_op s (Op_shutdown_complete error) = Some s' ->
  exists st,
    listener (sys_world s) = Some st
    /\ shutdown st = true
    /\ in_flight s = []
    /\ pending_handshake_mgrs st = []
    /\ listener_ref_held s = false
    /\ gone s'
    /\ trace (sys_world s')
       = trace (sys_world s) ++ shutdown_complete_events st error.
Proof.
  destruct s as [w fl held bd]. unfold sys_inv, gone, run_op. simpl.
  intros Hinv Hrun.
  destruct bd; [|discriminate]. simpl in Hrun.
  destruct (tcp_refs w =? 0)%nat eqn:Hzero; [|discriminate].
  apply Nat.eqb_eq in Hzero.
  destruct (listener w) as [st|] eqn:Hl.
  2:{ rewrite runs_need_listener_complete in Hrun by exact Hl. discriminate. }
  destruct Hinv as (Hb & Hrefs & Hsh & Hpend & Hnd & Hlt & Hst & Hsc & Hcr).
  assert (Hheld : held = false) by (destruct held; [simpl in Hrefs; lia|reflexivity]).
  assert (Hfl : fl = []).
  { subst held. simpl in Hrefs. destruct fl; [reflexivity|simpl in Hrefs; lia]. }
  rewrite (tcp_server_shutdown_complete_runs w st error Hl (Hsh Hheld)) in Hrun.
  inversion Hrun; subst; clear Hrun. simpl.
  exists st. repeat split; auto.
Qed.

Lemma shutdown_complete_events_filters (st : server_secure_state)
  (error : option grpc_error) :
  filter is_manager_shutdown (shutdown_complete_events st error)
  = map E_handshake_manager_shutdown (pending_handshake_mgrs st)
  /\ filter is_connector_unref (shutdown_complete_events st error)
     = [E_security_connector_unref (sc st)]
  /\ filter is_credentials_unref (shutdown_complete_events st error)
     = [E_credentials_unref (creds st)].
Proof.
  unfold shutdown_complete_events, destroy_done_events.
  assert (H1 : forall l, filter is_manager_shutdown (map E_handshake_manager_shutdown l)
                         = map E_handshake_manager_shutdown l).
  { induction l as [|x l IH]; simpl; [reflexivity|now rewrite IH]. }
  assert (H2 : forall l, filter is_connector_unref (map E_handshake_manager_shutdown l) = []).
  { induction l as [|x l IH]; simpl; [reflexivity|exact IH]. }
  assert (H3 : forall l, filter is_credentials_unref (map E_handshake_manager_shutdown l) = []).
  { induction l as [|x l IH]; simpl; [reflexivity|exact IH]. }
  rewrite !filter_app, H1, H2, H3.
  destruct (server_destroy_listener_done st); simpl; rewrite ?app_nil_r; auto.
Qed.

(** Shutdown completion runs at most once in a run, only as the last call
    into the listener, and leaves exactly one release of the connector and
    one of the credentials in the whole history. *)
Lemma completion_count (ops : list op) :
  forall s s',
  sys_inv s -> ~ gone s -> run_ops s ops = Some s' ->
  (List.length (filter is_shutdown_complete ops) <= 1)%nat
  /\ (filter is_shutdown_complete ops <> [] ->
      listener (sys_world s') = None
      /\ List.length (filter is_connector_unref (trace (sys_world s'))) = 1%nat
      /\ List.length (filter is_credentials_unref (trace (sys_world s'))) = 1%nat).
Proof.
  induction ops as [|o rest IH]; intros s s' Hinv Hlive Hrun; simpl in Hrun.
  - simpl. split; [lia|]. intros H; contradiction.
  - destruct (run_op s o) as [s1|] eqn:Hstep; [|discriminate].
    pose proof (run_op_inv s s1 o Hinv Hstep) as Hinv1.
    destruct (is_shutdown_complete o) eqn:Ho.
    + destruct o; try discriminate.
      destruct (shutdown_complete_step s s1 error Hinv Hstep)
        as (st & Hl & Hsh & Hfl & Hpend & Hheld & Hg1 & Htr).
      destruct (gone_run rest s1 s' Hg1 Hrun) as (Hnone & Hg' & Htr').
      simpl. rewrite Hnone. split; [simpl; lia|]. intros _.
      destruct Hg' as [Hl' _]. split; [exact Hl'|].
      rewrite Htr', Htr, !filter_app.
      destruct (shutdown_complete_events_filters st error) as (_ & Hc1 & Hc2).
      rewrite Hc1, Hc2.
      unfold sys_inv in Hinv. rewrite Hl in Hinv.
      destruct Hinv as (_ & _ & _ & _ & _ & _ & _ & Hsc & Hcr).
      rewrite Hsc, Hcr. split; reflexivity.
    + simpl. rewrite Ho.
      assert (Hcases : gone s1 \/ ~ gone s1).
      { unfold gone. destruct (listener (sys_world s1)); destruct (bound s1);
          try (right; intros [H1 H2]; discriminate); left; auto. }
      destruct Hcases as [Hg1|Hlive1].
      * destruct (gone_run rest s1 s' Hg1 Hrun) as (Hnone & _ & _).
        rewrite Hnone. split; [simpl; lia|]. intros H; contradiction.
      * apply (IH s1 s' Hinv1 Hlive1 Hrun).
Qed.

Lemma conn_eqb_refl (c : server_secure_connection_state) : conn_eqb c c = true.
Proof. unfold conn_eqb. now rewrite !Z.eqb_refl. Qed.

(** Every handshake in flight can complete. *)
Lemma in_flight_can_complete (fl : list pending_handshake) :
  forall s,
  in_flight s = fl -> sys_inv s -> listener (sys_world s) <> None ->
  exists s',
    run_ops s (map completion_of fl) = Some s'
    /\ in_flight s' = []
    /\ listener_ref_held s' = listener_ref_held s
    /\ listener (sys_world s') <> None.
Proof.
  induction fl as [|h rest IH]; intros s Hfl Hinv Hlive; cbn [map run_ops].
  - exists s. auto.
  - assert (Hstep : exists s1, run_op s (completion_of h) = Some s1
                               /\ in_flight s1 = rest
                               /\ listener_ref_held s1 = listener_ref_held s
                               /\ listener (sys_world s1) <> None).
    { destruct s as [w fl0 held bd]. simpl in *. subst fl0.
      unfold sys_inv in Hinv. simpl in Hinv.
      destruct (listener w) as [st|] eqn:Hl; [|contradiction].
      destruct Hinv as (_ & _ & _ & _ & _ & _ & Hst & _).
      inversion Hst as [|? ? Hh _]; subst. unfold started_by_accept in Hh.
      unfold run_op, completion_of. simpl.
      rewrite Hh, Z.eqb_refl, conn_eqb_refl.
      destruct (hs_on_done h). simpl.
      rewrite (on_handshake_done_runs w st) by exact Hl. simpl.
      eexists. split; [reflexivity|]. simpl. repeat split; auto. discriminate. }
    destruct Hstep as (s1 & Hrun1 & Hfl1 & Hheld1 & Hlive1).
    rewrite Hrun1.
    destruct (IH s1 Hfl1 (run_op_inv s s1 _ Hinv Hrun1) Hlive1)
      as (s' & Hrun & Hfl' & Hheld' & Hlive').
    exists s'. repeat split; auto. congruence.
Qed.

(** A listener whose state exists can always be brought to its shutdown
    completion. *)
Lemma listener_can_finish (s : system) :
  sys_inv s -> listener (sys_world s) <> None ->
  exists s',
    run_ops s (finishing_ops s) = Some s' /\ gone s'.
Proof.
  intros Hinv Hlive. unfold finishing_ops.
  assert (Hdestroyed : exists s1,
            run_ops s (if listener_ref_held s then [Op_destroy None] else []) = Some s1
            /\ in_flight s1 = in_flight s
            /\ listener_ref_held s1 = false
            /\ listener (sys_world s1) <> None).
  { destruct (listener_ref_held s) eqn:Hheld.
    - destruct s as [w fl held bd]. simpl in *. subst held.
      destruct (listener w) as [st|] eqn:Hl; [|contradiction].
      simpl. rewrite (server_destroy_listener_runs w st) by exact Hl. simpl.
      eexists. split; [reflexivity|]. simpl. repeat split; auto. discriminate.
    - exists s. simpl. auto. }
  destruct Hdestroyed as (s1 & Hrun1 & Hfl1 & Hheld1 & Hlive1).
  pose proof (run_ops_inv _ s s1 Hinv Hrun1) as Hinv1.
  destruct (in_flight_can_complete (in_flight s) s1 Hfl1 Hinv1 Hlive1)
    as (s2 & Hrun2 & Hfl2 & Hheld2 & Hlive2).
  pose proof (run_ops_inv _ s1 s2 Hinv1 Hrun2) as Hinv2.
  assert (Hlast : exists s', run_op s2 (Op_shutdown_complete None) = Some s' /\ gone s').
  { destruct s2 as [w fl held bd]. simpl in *. subst fl. rewrite Hheld1 in Hheld2.
    subst held. unfold sys_inv in Hinv2. simpl in Hinv2.
    destruct (listener w) as [st|] eqn:Hl; [|contradiction].
    destruct Hinv2 as (Hb & Hrefs & Hsh & _). subst bd. simpl in Hrefs.
    unfold run_op. simpl. rewrite Hrefs. simpl.
    rewrite (tcp_server_shutdown_complete_runs w st None Hl (Hsh eq_refl)). simpl.
    eexists. split; [reflexivity|]. unfold gone. simpl. auto. }
  destruct Hlast as (s' & Hrun3 & Hgone).
  exists s'. split; [|exact Hgone].
  eapply run_ops_app; [exact Hrun1|].
  eapply run_ops_app; [exact Hrun2|].
  cbn [run_ops]. now rewrite Hrun3.
Qed.

Lemma finishing_ops_complete_once (s : system) :
  filter is_shutdown_complete (finishing_ops s) = [Op_shutdown_complete None].
Proof.
  unfold finishing_ops. rewrite !filter_app.
  assert (H : forall l, filter is_shutdown_complete (map completion_of l) = []).
  { induction l as [|h l IH]; simpl; [reflexivity|exact IH]. }
  rewrite H. destruct (listener_ref_held s); reflexivity.
Qed.

(** ** Shutdown completion *)

(** C2. (i) On any listener state that is shutting down, whatever the
    registry holds, [tcp_server_shutdown_complete] runs to the end: the drain
    sends one shutdown signal per registry entry and leaves the registry
    empty, the connector and the credentials are released once each, and the
    state is freed. (ii) In every run of a listener's life the step runs at
    most once; once it has run the state is gone and the whole history holds
    exactly one release of the connector and one of the credentials; and
    from any point where the state exists the life can be finished, with
    the step then having run exactly once. *)
Theorem shutdown_completion_releases_once :
  (forall (w : world) (st : server_secure_state) (error : option grpc_error),
     listener w = Some st ->
     shutdown st = true ->
     exists w1 w' evs,
       pending_handshake_manager_shutdown_locked w = Ok tt w1
       /\ listener w1 = Some (with_pending_handshake_mgrs [] st)
       /\ tcp_server_shutdown_complete error w = Ok tt w'
       /\ listener w' = None
       /\ trace w' = trace w ++ evs
       /\ filter is_manager_shutdown evs
          = map E_handshake_manager_shutdown (pending_handshake_mgrs st)
       /\ filter is_connector_unref evs = [E_security_connector_unref (sc st)]
       /\ filter is_credentials_unref evs = [E_credentials_unref (creds st)])
  /\ (forall (first_mgr : ptr) (t : gpr_timespec) (ops : list op) (s : system),
        run_ops (initial_system first_mgr t) ops = Some s ->
        (List.length (filter is_shutdown_complete ops) <= 1)%nat
        /\ (filter is_shutdown_complete ops <> [] ->
            listener (sys_world s) = None
            /\ List.length (filter is_connector_unref (trace (sys_world s))) = 1%nat
            /\ List.length (filter is_credentials_unref (trace (sys_world s))) = 1%nat)
        /\ (listener (sys_world s) <> None ->
            exists s',
              run_ops (initial_system first_mgr t) (ops ++ finishing_ops s) = Some s'
              /\ List.length (filter is_shutdown_complete (ops ++ finishing_ops s))
                 = 1%nat
              /\ listener (sys_world s') = None)).
Proof.
  split.
  - intros w st error Hl Hs.
    destruct (shutdown_complete_events_filters st error) as (H1 & H2 & H3).
    eexists. eexists. exists (shutdown_complete_events st error).
    split; [apply (pending_handshake_manager_shutdown_locked_runs w st Hl)|].
    split; [reflexivity|].
    split; [apply (tcp_server_shutdown_complete_runs w st error Hl Hs)|].
    simpl. repeat split; auto.
  - intros first_mgr t ops s Hrun.
    assert (Hnot : ~ gone (initial_system first_mgr t)).
    { unfold gone. simpl. intros [_ H]. discriminate. }
    destruct (completion_count ops _ s (initial_system_inv first_mgr t) Hnot Hrun)
      as [Hle Hdone].
    split; [exact Hle|]. split; [exact Hdone|].
    intros Hlive.
    pose proof (run_ops_inv _ _ s (initial_system_inv first_mgr t) Hrun) as Hinv.
    destruct (listener_can_finish s Hinv Hlive) as (s' & Hfin & Hgone).
    exists s'. split; [eapply run_ops_app; eassumption|].
    split; [|exact (proj1 Hgone)].
    rewrite filter_app, finishing_ops_complete_once, length_app. simpl.
    destruct (filter is_shutdown_complete ops) as [|o l] eqn:Hf; [reflexivity|].
    exfalso. apply Hlive. apply Hdone. discriminate.
Qed.

Lemma sample_life_runs :
  run_ops (initial_system 100 sample_time) sample_life = Some sample_end.
Proof. vm_compute. reflexivity. Qed.

Lemma shutdown_completion_releases_once_witness :
  (exists w1 w' evs,
     pending_handshake_manager_shutdown_locked (sample_world true [7; 8; 9]) = Ok tt w1
     /\ listener w1 = Some (with_pending_handshake_mgrs [] (sample_state true [7; 8; 9]))
     /\ tcp_server_shutdown_complete None (sample_world true [7; 8; 9]) = Ok tt w'
     /\ listener w' = None
     /\ trace w' = trace (sample_world true [7; 8; 9]) ++ evs
     /\ filter is_manager_shutdown evs = map E_handshake_manager_shutdown [7; 8; 9]
     /\ filter is_connector_unref evs = [E_security_connector_unref 13]
     /\ filter is_credentials_unref evs = [E_credentials_unref 14])
  /\ (List.length (filter is_shutdown_complete sample_life) <= 1)%nat
  /\ (filter is_shutdown_complete sample_life <> [] ->
      listener (sys_world sample_end) = None
      /\ List.length (filter is_connector_unref (trace (sys_world sample_end))) = 1%nat
      /\ List.length (filter is_credentials_unref (trace (sys_world sample_end))) = 1%nat).
Proof.
  split.
  - apply (proj1 shutdown_completion_releases_once (sample_world true [7; 8; 9])
             (sample_state true [7; 8; 9]) None); reflexivity.
  - destruct (proj2 shutdown_completion_releases_once 100 sample_time sample_life
                sample_end) as (H1 & H2 & _).
    + vm_compute. reflexivity.
    + split; assumption.
Defined.

(** ** The shutdown flag over a listener's life *)

Lemma flag_step (s s' : system) (o : op) :
  sys_inv s ->
  shutdown_flag s <> Some false ->
  run_op s o = Some s' ->
  shutdown_flag s' = Some false ->
  is_start o = true.
Proof.
  destruct s as [w fl held bd]. unfold sys_inv, shutdown_flag, run_op. simpl.
  intros Hinv Hflag Hrun Hreset.
  destruct o as [t|env srv addr c|pollsets|tcp pollset acc|a error|mgr buf|d|error];
    [| | reflexivity | | | | |]; exfalso.
  - inversion Hrun; subst. simpl in Hreset. contradiction.
  - destruct bd; [discriminate|].
    destruct (listener w) as [st|] eqn:Hl.
    { destruct Hinv as [Hb _]. discriminate. }
    destruct (grpc_server_add_secure_http2_port env srv addr c w) as [p w'| |] eqn:Hbind;
      simpl in Hrun; try discriminate.
    inversion Hrun; subst; clear Hrun. simpl in Hreset.
    destruct (listener w') as [st'|] eqn:Hl'; [|discriminate].
    destruct (bind_outcome env srv addr c w w' p Hl Hbind st' Hl') as (Hsh & _).
    congruence.
  - destruct (0 <? tcp_refs w)%nat; [|discriminate].
    destruct (listener w) as [st|] eqn:Hl.
    2:{ rewrite runs_need_listener_accept in Hrun by exact Hl. discriminate. }
    destruct (shutdown st) eqn:Hshut; [|congruence].
    rewrite (on_accept_rejects w st) in Hrun by assumption.
    inversion Hrun; subst; clear Hrun. simpl in Hreset. rewrite Hl in Hreset.
    congruence.
  - destruct (take_handshake _ fl) as [[h rest]|]; [|discriminate].
    destruct (conn_eqb _ _); [|discriminate].
    destruct (hs_on_done h). simpl in Hrun.
    destruct (listener w) as [st|] eqn:Hl.
    2:{ rewrite runs_need_listener_done in Hrun by exact Hl. discriminate. }
    rewrite (on_handshake_done_runs w st) in Hrun by exact Hl.
    inversion Hrun; subst; clear Hrun. simpl in Hreset. congruence.
  - destruct (take_handshake _ fl) as [[h rest]|]; [|discriminate].
    destruct (gpr_time_lt _ _) eqn:Hlate; [|discriminate].
    unfold handshake_deadline_exceeded in Hrun. rewrite Hlate in Hrun.
    destruct (hs_on_done h). simpl in Hrun.
    destruct (listener w) as [st|] eqn:Hl.
    2:{ rewrite runs_need_listener_done in Hrun by exact Hl. discriminate. }
    rewrite (on_handshake_done_runs w st) in Hrun by exact Hl.
    inversion Hrun; subst; clear Hrun. simpl in Hreset. congruence.
  - destruct held; [|discriminate].
    destruct (listener w) as [st|] eqn:Hl.
    2:{ rewrite runs_need_listener_destroy in Hrun by exact Hl. discriminate. }
    rewrite (server_destroy_listener_runs w st) in Hrun by exact Hl.
    inversion Hrun; subst; clear Hrun. simpl in Hreset. discriminate.
  - destruct bd; [|discriminate]. simpl in Hrun.
    destruct (tcp_refs w =? 0)%nat; [|discriminate].
    destruct (listener w) as [st|] eqn:Hl.
    2:{ rewrite runs_need_listener_complete in Hrun by exact Hl. discriminate. }
    destruct (shutdown st) eqn:Hshut.
    2:{ rewrite (tcp_server_shutdown_complete_asserts w st) in Hrun by assumption.
        discriminate. }
    rewrite (tcp_server_shutdown_complete_runs w st) in Hrun by assumption.
    inversion Hrun; subst; clear Hrun. simpl in Hreset. discriminate.
Qed.

(** The freshly bound listener is created with the flag set, and the start
    callback clears it: a reset to false within the first two calls of every
    listener that is started. *)
Lemma shutdown_flag_is_reset_by_start : ~ shutdown_flag_never_reset.
Proof.
  intros Hnever.
  apply (Hnever 100 sample_time
           [Op_bind sample_partial_env 11 "localhost:443" (Some sample_credentials)]
           [Op_start [41; 42]]
           {| sys_world := sample_bound_world; in_flight := [];
              listener_ref_held := true; bound := true |}
           {| sys_world :=
                {| listener := Some (with_shutdown false
                                       (bound_state 11 12 13 sample_credentials));
                   tcp_refs := 1;
                   next_handshake_mgr := 100;
                   clock := sample_time;
                   trace := trace sample_bound_world
                            ++ [E_mu_lock; E_mu_unlock; E_tcp_server_start 12 [41; 42]] |};
              in_flight := []; listener_ref_held := true; bound := true |});
    reflexivity.
Qed.

(** C3 (as the code has it). In every run of a listener's life, once
    [state->shutdown] is true no call other than [server_start_listener]
    makes it false: through accepts, handshake completions and timeouts,
    [server_destroy_listener] and shutdown completion it stays true for as
    long as the state exists. *)
Theorem shutdown_flag_reset_only_by_start (first_mgr : ptr) (t : gpr_timespec)
  (ops1 ops2 : list op) (s1 s2 : system) :
  run_ops (initial_system first_mgr t) ops1 = Some s1 ->
  shutdown_flag s1 = Some true ->
  forallb (fun o => negb (is_start o)) ops2 = true ->
  run_ops s1 ops2 = Some s2 ->
  shutdown_flag s2 <> Some false.
Proof.
  intros Hrun1 Hflag Hnostart Hrun2.
  pose proof (run_ops_inv _ _ s1 (initial_system_inv first_mgr t) Hrun1) as Hinv.
  assert (Hne : shutdown_flag s1 <> Some false) by (rewrite Hflag; discriminate).
  clear Hrun1 Hflag. revert s1 Hinv Hne Hnostart Hrun2.
  induction ops2 as [|o rest IH]; intros s1 Hinv Hne Hnostart Hrun2; simpl in *.
  - inversion Hrun2; subst. exact Hne.
  - apply andb_prop in Hnostart. destruct Hnostart as [Ho Hrest].
    destruct (run_op s1 o) as [s'|] eqn:Hstep; [|discriminate].
    apply (IH s'); auto.
    + eapply run_op_inv; eassumption.
    + intros Hreset.
      rewrite (flag_step s1 s' o Hinv Hne Hstep Hreset) in Ho. discriminate.
Qed.

Lemma shutdown_flag_reset_only_by_start_witness :
  shutdown_flag sample_end <> Some false.
Proof.
  apply (shutdown_flag_reset_only_by_start 100 sample_time
           sample_life_until_destroy sample_life_after_destroy
           sample_destroyed sample_end);
    vm_compute; reflexivity.
Defined.

(** ** A listener that has not been started *)

(** C10. The state a bind call leaves behind has [shutdown] set; on it
    [on_accept] does what it does during shutdown (it destroys the endpoint
    and starts nothing, the state unchanged); [server_start_listener] clears
    the flag; and in a listener's life a step that takes the flag to false
    can only be a run of [server_start_listener]. *)
Theorem fresh_listener_rejects_until_started (env : bind_env) (srv : ptr)
  (addr : string) (c : option grpc_server_credentials) (w w' : world) (port : Z)
  (st : server_secure_state) :
  listener w = None ->
  grpc_server_add_secure_http2_port env srv addr c w = Ok port w' ->
  listener w' = Some st ->
  shutdown st = true
  /\ (forall tcp pollset acc,
        exists w2,
          on_accept tcp pollset acc w' = Ok tt w2
          /\ trace w2 = trace w' ++ [E_mu_lock; E_mu_unlock; E_endpoint_destroy tcp]
          /\ listener w2 = Some st
          /\ tcp_refs w2 = tcp_refs w'
          /\ next_handshake_mgr w2 = next_handshake_mgr w'
          /\ handshake_started w2 = None)
  /\ (forall pollsets,
        exists w2,
          server_start_listener pollsets w' = Ok tt w2
          /\ listener w2 = Some (with_shutdown false st))
  /\ (forall (s s2 : system) (o : op),
        reachable s ->
        shutdown_flag s <> Some false ->
        run_op s o = Some s2 ->
        shutdown_flag s2 = Some false ->
        is_start o = true).
Proof.
  intros Hl Hbind Hl'.
  destruct (bind_outcome env srv addr c w w' port Hl Hbind st Hl') as (Hsh & _).
  split; [exact Hsh|]. split; [|split].
  - intros tcp pollset acc. eexists.
    split; [apply (on_accept_rejects w' st); assumption|].
    simpl. repeat split; auto.
    change [E_mu_lock; E_mu_unlock; E_endpoint_destroy tcp]
      with ([E_mu_lock; E_mu_unlock] ++ [E_endpoint_destroy tcp]).
    apply handshake_started_last.
  - intros pollsets. eexists.
    split; [apply (server_start_listener_runs w' st); assumption|]. reflexivity.
  - intros s s2 o Hreach. apply flag_step. apply reachable_inv. exact Hreach.
Qed.

Lemma fresh_listener_rejects_until_started_witness :
  shutdown (bound_state 11 12 13 sample_credentials) = true
  /\ (forall tcp pollset acc,
        exists w2,
          on_accept tcp pollset acc sample_bound_world = Ok tt w2
          /\ trace w2 = trace sample_bound_world
                        ++ [E_mu_lock; E_mu_unlock; E_endpoint_destroy tcp]
          /\ listener w2 = Some (bound_state 11 12 13 sample_credentials)
          /\ tcp_refs w2 = tcp_refs sample_bound_world
          /\ next_handshake_mgr w2 = next_handshake_mgr sample_bound_world
          /\ handshake_started w2 = None)
  /\ (forall pollsets,
        exists w2,
          server_start_listener pollsets sample_bound_world = Ok tt w2
          /\ listener w2
             = Some (with_shutdown false (bound_state 11 12 13 sample_credentials)))
  /\ (forall (s s2 : system) (o : op),
        reachable s ->
        shutdown_flag s <> Some false ->
        run_op s o = Some s2 ->
        shutdown_flag s2 = Some false ->
        is_start o = true).
Proof.
  apply (fresh_listener_rejects_until_started sample_partial_env 11 "localhost:443"
           (Some sample_credentials) (initial_world 100 sample_time)
           sample_bound_world 443 (bound_state 11 12 13 sample_credentials));
    reflexivity.
Defined.

(** * Further properties of the code *)

(** ** The registry *)

Lemma with_pending_same (st : server_secure_state) :
  with_pending_handshake_mgrs (pending_handshake_mgrs st) st = st.
Proof. destruct st; reflexivity. Qed.

Lemma with_listener_same (w : world) (st : server_secure_state) :
  listener w = Some st -> with_listener (Some st) w = w.
Proof. intros Hl. destruct w; simpl in *. now subst. Qed.

(** X1. Registering a handshake manager puts it at the head of the registry,
    and removing it again right away gives back the world as it was, whatever
    the registry held (the same handle included). *)
Theorem add_then_remove_restores (w : world) (st : server_secure_state) (mgr : ptr) :
  listener w = Some st ->
  exists w1,
    pending_handshake_manager_add_locked mgr w = Ok tt w1
    /\ listener w1
       = Some (with_pending_handshake_mgrs (mgr :: pending_handshake_mgrs st) st)
    /\ trace w1 = trace w
    /\ pending_handshake_manager_remove_locked mgr w1 = Ok tt w.
Proof.
  intros Hl. eexists. split.
  { unfold pending_handshake_manager_add_locked, modify. rewrite Hl. reflexivity. }
  split; [reflexivity|]. split; [reflexivity|].
  unfold pending_handshake_manager_remove_locked, modify. simpl.
  rewrite Z.eqb_refl. unfold with_pending_handshake_mgrs at 1. simpl.
  fold (with_pending_handshake_mgrs (pending_handshake_mgrs st) st).
  rewrite with_pending_same.
  destruct w; simpl in *. now subst.
Qed.

Lemma add_then_remove_restores_witness :
  exists w1,
    pending_handshake_manager_add_locked 8 (sample_world false [7; 8]) = Ok tt w1
    /\ listener w1
       = Some (with_pending_handshake_mgrs (8 :: [7; 8]) (sample_state false [7; 8]))
    /\ trace w1 = []
    /\ pending_handshake_manager_remove_locked 8 w1 = Ok tt (sample_world false [7; 8]).
Proof.
  apply (add_then_remove_restores (sample_world false [7; 8])
           (sample_state false [7; 8]) 8).
  reflexivity.
Defined.

(** X2. After the drain of [pending_handshake_manager_shutdown_locked] the
    registry is empty, so the removal a completion callback attempts
    afterwards, for any handle, changes nothing, and a second drain sends no
    signal. *)
Theorem remove_after_drain_changes_nothing (w : world) (st : server_secure_state)
  (mgr : ptr) :
  listener w = Some st ->
  exists w1,
    pending_handshake_manager_shutdown_locked w = Ok tt w1
    /\ trace w1 = trace w ++ map E_handshake_manager_shutdown (pending_handshake_mgrs st)
    /\ pending_handshake_manager_remove_locked mgr w1 = Ok tt w1
    /\ pending_handshake_manager_shutdown_locked w1 = Ok tt w1.
Proof.
  intros Hl. eexists.
  split; [apply (pending_handshake_manager_shutdown_locked_runs w st Hl)|].
  split; [reflexivity|]. split.
  - unfold pending_handshake_manager_remove_locked, modify. reflexivity.
  - erewrite pending_handshake_manager_shutdown_locked_runs by reflexivity.
    simpl. rewrite app_nil_r. reflexivity.
Qed.

Lemma remove_after_drain_changes_nothing_witness :
  exists w1,
    pending_handshake_manager_shutdown_locked (sample_world true [7; 8; 9]) = Ok tt w1
    /\ trace w1 = [] ++ map E_handshake_manager_shutdown [7; 8; 9]
    /\ pending_handshake_manager_remove_locked 8 w1 = Ok tt w1
    /\ pending_handshake_manager_shutdown_locked w1 = Ok tt w1.
Proof.
  apply (remove_after_drain_changes_nothing (sample_world true [7; 8; 9])
           (sample_state true [7; 8; 9]) 8).
  reflexivity.
Defined.

(** ** Accepting and completing a handshake *)

(** X3. An accept on an active listener registers a fresh handshake manager
    at the head of the registry and takes one listener reference; the
    completion callback run with that handshake's user data, whatever the
    outcome it reports, gives back the listener state and the reference
    count as they were before the accept. *)
Theorem accept_then_done_restores (w : world) (st : server_secure_state)
  (tcp pollset acc : ptr) :
  listener w = Some st ->
  shutdown st = false ->
  exists w1 h,
    on_accept tcp pollset acc w = Ok tt w1
    /\ handshake_started w1 = Some h
    /\ hs_user_data h = {| accepting_pollset := pollset; acceptor := acc;
                           handshake_mgr := next_handshake_mgr w |}
    /\ listener w1
       = Some (with_pending_handshake_mgrs
                 (next_handshake_mgr w :: pending_handshake_mgrs st) st)
    /\ tcp_refs w1 = S (tcp_refs w)
    /\ forall (a : grpc_handshaker_args) (error : option grpc_error),
         user_data a = hs_user_data h ->
         exists w2,
           on_handshake_done a error w1 = Ok tt w2
           /\ listener w2 = Some st
           /\ tcp_refs w2 = tcp_refs w.
Proof.
  intros Hl Hs. eexists. eexists.
  split; [apply (on_accept_starts w st); assumption|].
  split.
  { unfold handshake_started. cbn [trace]. rewrite rev_app_distr. reflexivity. }
  cbn [hs_user_data listener tcp_refs].
  split; [reflexivity|]. split; [reflexivity|]. split; [reflexivity|].
  intros a error Hud. eexists.
  split; [apply on_handshake_done_runs; reflexivity|].
  cbn [listener tcp_refs pending_handshake_mgrs with_pending_handshake_mgrs].
  rewrite Hud. cbn [handshake_mgr remove_node]. rewrite Z.eqb_refl.
  split; [|reflexivity]. destruct st; reflexivity.
Qed.

Lemma accept_then_done_restores_witness :
  exists w1 h,
    on_accept 21 31 32 (sample_world false [7]) = Ok tt w1
    /\ handshake_started w1 = Some h
    /\ hs_user_data h = {| accepting_pollset := 31; acceptor := 32;
                           handshake_mgr := 100 |}
    /\ listener w1
       = Some (with_pending_handshake_mgrs (100 :: [7]) (sample_state false [7]))
    /\ tcp_refs w1 = 4%nat
    /\ forall (a : grpc_handshaker_args) (error : option grpc_error),
         user_data a = hs_user_data h ->
         exists w2,
           on_handshake_done a error w1 = Ok tt w2
           /\ listener w2 = Some (sample_state false [7])
           /\ tcp_refs w2 = 3%nat.
Proof.
  apply (accept_then_done_restores (sample_world false [7])
           (sample_state false [7]) 21 31 32); reflexivity.
Defined.

(** X4. The endpoint handed to [on_handshake_done] meets exactly one fate.
    On success with the listener active it is not destroyed: one transport is
    created over it with the credentials added to the handshake's channel
    args, set up with the server under the accepting pollset, and started
    reading from the read buffer. On an error, or on success with the
    listener shutting down, it is destroyed once and no transport call is
    made; the read buffer is freed on an error only. *)
Theorem handshake_endpoint_fate (w : world) (st : server_secure_state)
  (a : grpc_handshaker_args) (error : option grpc_error) :
  listener w = Some st ->
  exists w' evs,
    on_handshake_done a error w = Ok tt w'
    /\ trace w' = trace w ++ evs
    /\ match error with
       | None =>
           filter is_free_read_buffer evs = []
           /\ if shutdown st
              then filter is_endpoint_destroy evs = [E_endpoint_destroy (endpoint a)]
                   /\ filter is_transport_call evs = []
              else filter is_endpoint_destroy evs = []
                   /\ filter is_transport_call evs
                      = [E_create_chttp2_transport (transport_of st a);
                         E_server_setup_transport (server st) (transport_of st a)
                           (accepting_pollset (user_data a))
                           (transport_args (transport_of st a));
                         E_transport_start_reading (transport_of st a) (read_buffer a)]
       | Some e =>
           filter is_free_read_buffer evs = [E_free_read_buffer (read_buffer a)]
           /\ filter is_endpoint_destroy evs = [E_endpoint_destroy (endpoint a)]
           /\ filter is_transport_call evs = []
       end.
Proof.
  intros Hl. eexists. eexists.
  split; [apply (on_handshake_done_runs w st); exact Hl|].
  split; [reflexivity|].
  unfold outcome_events, cleanup_events, transport_of.
  destruct error as [e|]; [|destruct (shutdown st)]; simpl; auto.
Qed.

Lemma handshake_endpoint_fate_witness :
  exists w' evs,
    on_handshake_done (sample_args 7) None (sample_world false [7]) = Ok tt w'
    /\ trace w' = [] ++ evs
    /\ filter is_free_read_buffer evs = []
    /\ filter is_endpoint_destroy evs = []
    /\ filter is_transport_call evs
       = [E_create_chttp2_transport (transport_of (sample_state false [7]) (sample_args 7));
          E_server_setup_transport 11
            (transport_of (sample_state false [7]) (sample_args 7)) 31
            (transport_args (transport_of (sample_state false [7]) (sample_args 7)));
          E_transport_start_reading
            (transport_of (sample_state false [7]) (sample_args 7)) 22].
Proof.
  apply (handshake_endpoint_fate (sample_world false [7]) (sample_state false [7])
           (sample_args 7) None).
  reflexivity.
Defined.

(** ** The listener callbacks *)

Lemma outcome_events_shutdown (st : server_secure_state) (a : grpc_handshaker_args) :
  shutdown st = true ->
  outcome_events st a None = [E_mu_lock; E_endpoint_destroy (endpoint a)].
Proof. intros Hs. unfold outcome_events. now rewrite Hs. Qed.

(** X5. Once [server_destroy_listener] has run, whatever the flag was
    before, an accept destroys its endpoint and starts no handshake, and a
    handshake that completes successfully has its endpoint destroyed and no
    transport built; the callback has stopped the listeners and released one
    listener reference. *)
Theorem destroy_stops_new_work (w : world) (st : server_secure_state)
  (destroy_done : option grpc_closure) :
  listener w = Some st ->
  exists w1,
    server_destroy_listener destroy_done w = Ok tt w1
    /\ trace w1 = trace w ++ [E_mu_lock; E_mu_unlock;
                              E_tcp_server_shutdown_listeners (tcp_server st);
                              E_tcp_server_unref (tcp_server st)]
    /\ tcp_refs w1 = Nat.pred (tcp_refs w)
    /\ (forall tcp pollset acc,
          exists w2,
            on_accept tcp pollset acc w1 = Ok tt w2
            /\ trace w2 = trace w1 ++ [E_mu_lock; E_mu_unlock; E_endpoint_destroy tcp]
            /\ listener w2 = listener w1
            /\ handshake_started w2 = None)
    /\ (forall a,
          exists w2 evs,
            on_handshake_done a None w1 = Ok tt w2
            /\ trace w2 = trace w1 ++ evs
            /\ filter is_endpoint_destroy evs = [E_endpoint_destroy (endpoint a)]
            /\ filter is_transport_call evs = []).
Proof.
  intros Hl. eexists.
  split; [apply (server_destroy_listener_runs w st); exact Hl|].
  split; [reflexivity|]. split; [reflexivity|]. split.
  - intros tcp pollset acc. eexists.
    split; [apply on_accept_rejects with
              (s := with_server_destroy_listener_done destroy_done (with_shutdown true st));
            reflexivity|].
    split; [reflexivity|]. split; [reflexivity|].
    change [E_mu_lock; E_mu_unlock; E_endpoint_destroy tcp]
      with ([E_mu_lock; E_mu_unlock] ++ [E_endpoint_destroy tcp]).
    apply handshake_started_last.
  - intros a. eexists. eexists.
    split; [apply on_handshake_done_runs; reflexivity|].
    split; [reflexivity|].
    rewrite outcome_events_shutdown by reflexivity.
    split; reflexivity.
Qed.

Lemma destroy_stops_new_work_witness :
  exists w1,
    server_destroy_listener None (sample_world false [7]) = Ok tt w1
    /\ trace w1 = [] ++ [E_mu_lock; E_mu_unlock;
                         E_tcp_server_shutdown_listeners 12;
                         E_tcp_server_unref 12]
    /\ tcp_refs w1 = Nat.pred 3
    /\ (forall tcp pollset acc,
          exists w2,
            on_accept tcp pollset acc w1 = Ok tt w2
            /\ trace w2 = trace w1 ++ [E_mu_lock; E_mu_unlock; E_endpoint_destroy tcp]
            /\ listener w2 = listener w1
            /\ handshake_started w2 = None)
    /\ (forall a,
          exists w2 evs,
            on_handshake_done a None w1 = Ok tt w2
            /\ trace w2 = trace w1 ++ evs
            /\ filter is_endpoint_destroy evs = [E_endpoint_destroy (endpoint a)]
            /\ filter is_transport_call evs = []).
Proof.
  apply (destroy_stops_new_work (sample_world false [7]) (sample_state false [7]) None).
  reflexivity.
Defined.

(** X6. [server_start_listener] changes nothing of the state but the flag,
    which it clears whatever it was, and starts the network listener on the
    pollsets it was given; from then on an accept starts a handshake over the
    endpoint it is given. *)
Theorem start_opens_the_listener (w : world) (st : server_secure_state)
  (pollsets : list ptr) :
  listener w = Some st ->
  exists w1,
    server_start_listener pollsets w = Ok tt w1
    /\ listener w1 = Some (with_shutdown false st)
    /\ tcp_refs w1 = tcp_refs w
    /\ trace w1 = trace w ++ [E_mu_lock; E_mu_unlock;
                              E_tcp_server_start (tcp_server st) pollsets]
    /\ forall tcp pollset acc,
         exists w2 h,
           on_accept tcp pollset acc w1 = Ok tt w2
           /\ handshake_started w2 = Some h
           /\ hs_endpoint h = tcp
           /\ hs_acceptor h = acc
           /\ hs_args h = grpc_server_get_channel_args (server st)
           /\ filter is_endpoint_destroy (trace w2) = filter is_endpoint_destroy (trace w).
Proof.
  intros Hl. eexists.
  split; [apply (server_start_listener_runs w st); exact Hl|].
  split; [reflexivity|]. split; [reflexivity|]. split; [reflexivity|].
  intros tcp pollset acc. eexists. eexists.
  split; [apply on_accept_starts with (s := with_shutdown false st); reflexivity|].
  split.
  { unfold handshake_started. cbn [trace]. rewrite rev_app_distr. reflexivity. }
  cbn [hs_endpoint hs_acceptor hs_args trace].
  split; [reflexivity|]. split; [reflexivity|]. split; [reflexivity|].
  rewrite !filter_app. simpl. now rewrite !app_nil_r.
Qed.

Lemma start_opens_the_listener_witness :
  exists w1,
    server_start_listener [41; 42] (sample_world true [7]) = Ok tt w1
    /\ listener w1 = Some (with_shutdown false (sample_state true [7]))
    /\ tcp_refs w1 = 3%nat
    /\ trace w1 = [] ++ [E_mu_lock; E_mu_unlock; E_tcp_server_start 12 [41; 42]]
    /\ forall tcp pollset acc,
         exists w2 h,
           on_accept tcp pollset acc w1 = Ok tt w2
           /\ handshake_started w2 = Some h
           /\ hs_endpoint h = tcp
           /\ hs_acceptor h = acc
           /\ hs_args h = grpc_server_get_channel_args 11
           /\ filter is_endpoint_destroy (trace w2) = filter is_endpoint_destroy [].
Proof.
  apply (start_opens_the_listener (sample_world true [7]) (sample_state true [7])
           [41; 42]).
  reflexivity.
Defined.

Lemma filter_map_manager_shutdown (f : event -> bool) (l : list ptr) :
  (forall mgr, f (E_handshake_manager_shutdown mgr) = false) ->
  filter f (map E_handshake_manager_shutdown l) = [].
Proof.
  intros Hf. induction l as [|x l IH]; simpl; [reflexivity|]. now rewrite Hf, IH.
Qed.

(** X7. The continuation handed to [server_destroy_listener] replaces any
    stored before and is what [tcp_server_shutdown_complete] runs: once, with
    the error the closure was given, after the connector and the credentials
    have been released and before the mutex is destroyed and the state freed.
    With no continuation (NULL) none is run. *)
Theorem destroy_done_runs_once (w : world) (st : server_secure_state)
  (destroy_done : option grpc_closure) (error : option grpc_error) :
  listener w = Some st ->
  exists w1 w2 before,
    server_destroy_listener destroy_done w = Ok tt w1
    /\ tcp_server_shutdown_complete error w1 = Ok tt w2
    /\ listener w2 = None
    /\ trace w2
       = trace w1 ++ before
         ++ match destroy_done with
            | Some c => [E_closure_run c error; E_exec_ctx_flush]
            | None => []
            end
         ++ [E_mu_destroy; E_free_state]
    /\ filter is_closure_run before = []
    /\ filter is_connector_unref before = [E_security_connector_unref (sc st)]
    /\ filter is_credentials_unref before = [E_credentials_unref (creds st)].
Proof.
  intros Hl. eexists. eexists.
  exists ([E_mu_lock]
          ++ map E_handshake_manager_shutdown (pending_handshake_mgrs st)
          ++ [E_mu_unlock; E_exec_ctx_flush;
              E_security_connector_unref (sc st);
              E_credentials_unref (creds st)]).
  split; [apply (server_destroy_listener_runs w st); exact Hl|].
  split; [apply tcp_server_shutdown_complete_runs
            with (s := with_server_destroy_listener_done destroy_done
                         (with_shutdown true st)); reflexivity|].
  split; [reflexivity|]. split.
  { cbn [trace]. unfold shutdown_complete_events, destroy_done_events.
    cbn [server_destroy_listener_done with_server_destroy_listener_done
         pending_handshake_mgrs with_shutdown sc creds].
    repeat rewrite <- app_assoc. reflexivity. }
  rewrite !filter_app, !filter_map_manager_shutdown by reflexivity.
  repeat split; reflexivity.
Qed.

Lemma destroy_done_runs_once_witness :
  exists w1 w2 before,
    server_destroy_listener (Some {| cb := 51; cb_arg := 52 |})
      (sample_world false [7; 8]) = Ok tt w1
    /\ tcp_server_shutdown_complete (Some (error_external 3)) w1 = Ok tt w2
    /\ listener w2 = None
    /\ trace w2
       = trace w1 ++ before
         ++ [E_closure_run {| cb := 51; cb_arg := 52 |} (Some (error_external 3));
             E_exec_ctx_flush]
         ++ [E_mu_destroy; E_free_state]
    /\ filter is_closure_run before = []
    /\ filter is_connector_unref before = [E_security_connector_unref 13]
    /\ filter is_credentials_unref before = [E_credentials_unref 14].
Proof.
  apply (destroy_done_runs_once (sample_world false [7; 8]) (sample_state false [7; 8])
           (Some {| cb := 51; cb_arg := 52 |}) (Some (error_external 3))).
  reflexivity.
Defined.

(** X8. On an existing listener state, [tcp_server_shutdown_complete] ends in
    the failure of [GPR_ASSERT(state->shutdown)] exactly when the flag is
    clear; in particular it does when run right after
    [server_start_listener]. *)
Theorem shutdown_complete_asserts_flag (w : world) (st : server_secure_state)
  (error : option grpc_error) :
  listener w = Some st ->
  (tcp_server_shutdown_complete error w = AssertionFailed <-> shutdown st = false)
  /\ (forall pollsets,
        exists w1,
          server_start_listener pollsets w = Ok tt w1
          /\ tcp_server_shutdown_complete error w1 = AssertionFailed).
Proof.
  intros Hl. split.
  - split.
    + intros Hfail. destruct (shutdown st) eqn:Hs; [|reflexivity].
      rewrite (tcp_server_shutdown_complete_runs w st error Hl Hs) in Hfail.
      discriminate.
    + apply tcp_server_shutdown_complete_asserts. exact Hl.
  - intros pollsets. eexists.
    split; [apply (server_start_listener_runs w st); exact Hl|].
    apply tcp_server_shutdown_complete_asserts with (s := with_shutdown false st);
      reflexivity.
Qed.

Lemma shutdown_complete_asserts_flag_witness :
  (tcp_server_shutdown_complete None (sample_world false [7]) = AssertionFailed
   <-> shutdown (sample_state false [7]) = false)
  /\ (forall pollsets,
        exists w1,
          server_start_listener pollsets (sample_world false [7]) = Ok tt w1
          /\ tcp_server_shutdown_complete None w1 = AssertionFailed).
Proof.
  apply (shutdown_complete_asserts_flag (sample_world false [7])
           (sample_state false [7]) None).
  reflexivity.
Defined.

(** ** The binding loop and the binder's failures *)

Lemma scan_ports_port (rs : list (grpc_error + Z)) :
  forall port_num count errors port_num' count' errors',
  scan_ports rs port_num count errors = Some (port_num', count', errors') ->
  port_num' = port_num \/ In port_num' (successes rs).
Proof.
  induction rs as [|[e|p] rest IH]; intros pn c es pn' c' es' H; simpl in *.
  - inversion H; subst. now left.
  - eapply IH; exact H.
  - destruct (pn =? -1).
    + apply IH in H. destruct H as [H|H]; right; [now left|now right].
    + destruct (pn =? p); [|discriminate].
      apply IH in H. destruct H as [H|H]; [now left|right; now right].
Qed.

Lemma scan_ports_first (rs : list (grpc_error + Z)) :
  forall count errors port_num' count' errors',
  scan_ports rs (-1) count errors = Some (port_num', count', errors') ->
  successes rs <> [] ->
  In port_num' (successes rs).
Proof.
  induction rs as [|[e|p] rest IH]; intros c es pn' c' es' H Hne; simpl in *.
  - contradiction.
  - eapply IH; eassumption.
  - apply scan_ports_port in H. destruct H as [H|H]; [now left|now right].
Qed.

(** X9. When the binding loop runs to its end it has tried every resolved
    address once, in order, whether or not earlier ones failed; [count] is
    the number of addresses that bound, [errors] holds one slot per address,
    [GRPC_ERROR_NONE] exactly for those that bound, and [port_num] is [-1]
    if none bound and otherwise a port that a successful binding reported.
    The loop touches nothing of the world but the trace. *)
Theorem binding_loop_accounts_for_every_address (env : bind_env) (ts : ptr)
  (addrs : list Z) (w w' : world) (port_num : Z) (count : nat)
  (errors : list (option grpc_error)) :
  add_ports env ts addrs 0 (-1) 0 [] w = Ok (port_num, count, errors) w' ->
  let rs := port_results env ts addrs 0 in
  w' = with_trace (trace w ++ add_port_events ts addrs 0) w
  /\ List.length (add_port_events ts addrs 0) = List.length addrs
  /\ count = List.length (successes rs)
  /\ (count <= List.length addrs)%nat
  /\ errors = map error_slot rs
  /\ List.length errors = List.length addrs
  /\ failures errors = failed rs
  /\ (count = 0%nat -> port_num = -1)
  /\ ((0 < count)%nat -> In port_num (successes rs)).
Proof.
  intros Hrun rs. rewrite add_ports_runs in Hrun. fold rs in Hrun.
  destruct (scan_ports rs (-1) 0 []) as [[[pn c] es]|] eqn:Hscan; [|discriminate].
  inversion Hrun; subst; clear Hrun.
  destruct (scan_ports_some rs _ _ _ _ _ _ Hscan) as [Hc He].
  simpl in Hc, He. subst count errors.
  pose proof (successes_failed_length rs) as Hsum.
  pose proof (port_results_length env ts addrs 0) as Hlen. fold rs in Hlen.
  assert (Hev : forall l i, List.length (add_port_events ts l i) = List.length l).
  { induction l as [|x l IH]; intros i; simpl; [reflexivity|now rewrite IH]. }
  split; [reflexivity|]. split; [apply Hev|]. split; [reflexivity|].
  split; [lia|]. split; [reflexivity|].
  split; [now rewrite length_map|].
  split; [apply failures_error_slot|]. split.
  - intros H0. destruct (successes rs) eqn:Hs; [|discriminate].
    apply scan_ports_port in Hscan. rewrite Hs in Hscan.
    destruct Hscan as [H|[]]. exact H.
  - intros Hpos. eapply scan_ports_first; [exact Hscan|].
    intros Hs. rewrite Hs in Hpos. simpl in Hpos. lia.
Qed.

Lemma binding_loop_accounts_for_every_address_witness :
  let rs := port_results sample_partial_env 12 [1; 2; 3] 0 in
  with_trace ([] ++ add_port_events 12 [1; 2; 3] 0) (initial_world 100 sample_time)
  = with_trace (trace (initial_world 100 sample_time) ++ add_port_events 12 [1; 2; 3] 0)
      (initial_world 100 sample_time)
  /\ List.length (add_port_events 12 [1; 2; 3] 0) = 3%nat
  /\ 2%nat = List.length (successes rs)
  /\ (2 <= 3)%nat
  /\ [None; Some (error_external 5); None] = map error_slot rs
  /\ List.length [None; Some (error_external 5); @None grpc_error] = 3%nat
  /\ failures [None; Some (error_external 5); None] = failed rs
  /\ (2%nat = 0%nat -> 443 = -1)
  /\ ((0 < 2)%nat -> In 443 (successes rs)).
Proof.
  apply (binding_loop_accounts_for_every_address sample_partial_env 12 [1; 2; 3]
           (initial_world 100 sample_time)
           (with_trace ([] ++ add_port_events 12 [1; 2; 3] 0)
              (initial_world 100 sample_time))
           443 2 [None; Some (error_external 5); None]).
  reflexivity.
Defined.

Lemma filter_loop_events (f : event -> bool) (srv : ptr) (addr : string)
  (c : grpc_server_credentials) (ts : ptr) (addrs : list Z) :
  (forall i a, f (E_tcp_server_add_port ts i a) = false) ->
  filter f (loop_events srv addr c ts addrs)
  = filter f [E_security_connector_create (creds_ptr c);
              E_resolve_address addr "https";
              E_malloc_state;
              E_tcp_server_create (server_channel_args srv);
              E_credentials_ref (creds_ptr c);
              E_mu_init;
              E_malloc_errors (List.length addrs)].
Proof.
  intros Hf. unfold loop_events. rewrite filter_app.
  rewrite filter_add_port_events by exact Hf. now rewrite app_nil_r.
Qed.

Ltac early_failure Hrun w sc0 :=
  unfold error_path in Hrun; destruct w as [wl wr wn wc wt];
  destruct (is_null sc0) eqn:Hnull;
  cbv [bind ret emit negb grpc_exec_ctx_finish grpc_exec_ctx_flush GRPC_ERROR_UNREF
       GRPC_SECURITY_CONNECTOR_UNREF gpr_log gpr_free_state with_trace with_listener
       with_tcp_refs listener tcp_refs trace next_handshake_mgr clock is_null NULL
       Z.eqb] in Hrun;
  inversion Hrun; subst; clear Hrun; cbn [trace listener tcp_refs];
  repeat rewrite <- app_assoc; cbn [app].

(** X10. Whatever the collaborators answer, a bind call that returns has
    either registered the listener with the server, once, leaving a listener
    state that is not accepting yet and holds the one binding reference,
    without logging any error; or it has registered nothing, returned 0 and
    logged exactly one error. *)
Theorem bind_registers_or_returns_zero (env : bind_env) (srv : ptr) (addr : string)
  (creds : option grpc_server_credentials) (w w' : world) (port : Z) :
  grpc_server_add_secure_http2_port env srv addr creds w = Ok port w' ->
  exists evs,
    trace w' = trace w ++ evs
    /\ ((filter is_add_listener evs = [E_server_add_listener srv]
         /\ filter is_error_log evs = []
         /\ (exists st, listener w' = Some st /\ shutdown st = true
                        /\ server st = srv /\ pending_handshake_mgrs st = [])
         /\ tcp_refs w' = 1%nat)
        \/ (filter is_add_listener evs = []
            /\ port = 0
            /\ List.length (filter is_error_log evs) = 1%nat)).
Proof.
  intros Hrun.
  destruct creds as [c|].
  2:{ rewrite bind_without_credentials in Hrun. inversion Hrun; subst.
      eexists. split; [reflexivity|]. right. repeat split; reflexivity. }
  destruct (create_security_connector env c) as [status sc0] eqn:Hconn.
  destruct status.
  2:{ unfold grpc_server_add_secure_http2_port in Hrun.
      unfold bind at 1 in Hrun. unfold emit at 1 in Hrun. rewrite Hconn in Hrun.
      early_failure Hrun w sc0;
        (eexists; split; [reflexivity|]; right; repeat split; reflexivity). }
  destruct (blocking_resolve_address env addr "https") as [e|addrs] eqn:Hres.
  { unfold grpc_server_add_secure_http2_port in Hrun.
    unfold bind at 1 in Hrun. unfold emit at 1 in Hrun. rewrite Hconn in Hrun.
    unfold bind at 1 in Hrun. unfold emit at 1 in Hrun. rewrite Hres in Hrun.
    early_failure Hrun w sc0;
      (eexists; split; [reflexivity|]; right; repeat split; reflexivity). }
  destruct (tcp_server_create env (server_channel_args srv)) as [e|ts] eqn:Hcreate.
  { unfold grpc_server_add_secure_http2_port in Hrun.
    unfold bind at 1 in Hrun. unfold emit at 1 in Hrun. rewrite Hconn in Hrun.
    unfold bind at 1 in Hrun. unfold emit at 1 in Hrun. rewrite Hres in Hrun.
    unfold bind at 1 in Hrun. unfold gpr_malloc_state, bind at 1, emit at 1 in Hrun.
    unfold bind at 1 in Hrun.
    unfold grpc_tcp_server_create, grpc_server_get_channel_args in Hrun.
    unfold bind at 1 in Hrun. unfold emit at 1 in Hrun. rewrite Hcreate in Hrun.
    early_failure Hrun w sc0;
      (eexists; split; [reflexivity|]; right; repeat split; reflexivity). }
  rewrite (bind_reaches_loop env srv addr c sc0 ts addrs w Hconn Hres Hcreate) in Hrun.
  destruct (scan_ports _ _ _ _) as [[[port_num count] errors]|]; [|discriminate].
  cbv zeta in Hrun.
  destruct (count =? 0)%nat.
  - destruct (error_path_runs (Some errors) (Some addrs) ts sc0 true
                (no_address_added (List.length addrs) errors)
                (after_loop w srv addr c sc0 ts addrs)) as (w1 & Hrun1 & Htr).
    rewrite Hrun1 in Hrun. inversion Hrun; subst; clear Hrun.
    eexists. split.
    { rewrite Htr. cbn [after_loop trace]. rewrite <- app_assoc. reflexivity. }
    right. rewrite !filter_app, !filter_loop_events by reflexivity.
    unfold error_path_events. rewrite !filter_app.
    rewrite !filter_error_unref by reflexivity.
    destruct (negb (is_null ts)); [repeat split; reflexivity|].
    destruct (negb (is_null sc0)); repeat split; reflexivity.
  - inversion Hrun; subst; clear Hrun.
    eexists. split.
    { cbn [with_trace after_loop trace]. rewrite <- app_assoc. reflexivity. }
    left. rewrite !filter_app, !filter_loop_events by reflexivity.
    split; [|split; [|split]].
    + destruct (negb _); [reflexivity|].
      rewrite filter_error_unref by reflexivity. reflexivity.
    + destruct (negb _); [reflexivity|].
      rewrite filter_error_unref by reflexivity. reflexivity.
    + eexists. split; [reflexivity|]. repeat split; reflexivity.
    + reflexivity.
Qed.

Lemma bind_registers_or_returns_zero_witness :
  exists evs,
    trace sample_bound_world = trace (initial_world 100 sample_time) ++ evs
    /\ ((filter is_add_listener evs = [E_server_add_listener 11]
         /\ filter is_error_log evs = []
         /\ (exists st, listener sample_bound_world = Some st /\ shutdown st = true
                        /\ server st = 11 /\ pending_handshake_mgrs st = [])
         /\ tcp_refs sample_bound_world = 1%nat)
        \/ (filter is_add_listener evs = []
            /\ 443 = 0
            /\ List.length (filter is_error_log evs) = 1%nat)).
Proof.
  apply (bind_registers_or_returns_zero sample_partial_env 11 "localhost:443"
           (Some sample_credentials) (initial_world 100 sample_time)
           sample_bound_world 443).
  reflexivity.
Defined.

Ltac early_failure_goal w sc0 :=
  unfold error_path; destruct w as [wl wr wn wc wt];
  destruct (is_null sc0) eqn:Hnull;
  cbv [bind ret emit negb grpc_exec_ctx_finish grpc_exec_ctx_flush GRPC_ERROR_UNREF
       GRPC_SECURITY_CONNECTOR_UNREF gpr_log gpr_free_state with_trace with_listener
       with_tcp_refs listener tcp_refs trace next_handshake_mgr clock];
  repeat rewrite <- app_assoc; cbn [app].

(** X11. A bind call with credentials that stops before a network listener
    exists (the connector cannot be created, the address does not resolve,
    or the listener cannot be created) returns 0 and registers nothing; it
    has taken no reference on the credentials and none on a listener; it has
    released the connector it was given exactly once, unless that is NULL;
    and a state it allocated it has freed, leaving no listener state where it
    allocated one and the world's state untouched where it did not. *)
Theorem bind_failure_before_listener (env : bind_env) (srv : ptr) (addr : string)
  (c : grpc_server_credentials) (w : world) :
  fails_before_listener env srv addr c ->
  let sc0 := snd (create_security_connector env c) in
  exists w' evs,
    grpc_server_add_secure_http2_port env srv addr (Some c) w = Ok 0 w'
    /\ trace w' = trace w ++ evs
    /\ filter is_add_listener evs = []
    /\ filter is_credentials_ref evs = []
    /\ filter is_tcp_server_unref evs = []
    /\ tcp_refs w' = tcp_refs w
    /\ filter is_connector_unref evs
       = (if is_null sc0 then [] else [E_security_connector_unref sc0])
    /\ List.length (filter is_error_log evs) = 1%nat
    /\ ((filter is_malloc_state evs = [] /\ filter is_free_state evs = []
         /\ listener w' = listener w)
        \/ (filter is_malloc_state evs = [E_malloc_state]
            /\ filter is_free_state evs = [E_free_state]
            /\ listener w' = None)).
Proof.
  intros Hfail sc0. subst sc0.
  unfold fails_before_listener in Hfail.
  destruct (create_security_connector env c) as [status sc0] eqn:Hconn.
  cbn [fst snd] in *.
  unfold grpc_server_add_secure_http2_port.
  unfold bind at 1. unfold emit at 1. rewrite Hconn.
  destruct status.
  2:{ early_failure_goal w sc0;
        (eexists; eexists; split; [reflexivity|];
       split; [cbn [trace]; repeat rewrite <- app_assoc; cbn [app]; reflexivity|]);
        repeat split; try reflexivity; left; repeat split; reflexivity. }
  unfold bind at 1. unfold emit at 1.
  destruct (blocking_resolve_address env addr "https") as [e|addrs] eqn:Hres.
  { early_failure_goal w sc0;
      (eexists; eexists; split; [reflexivity|];
       split; [cbn [trace]; repeat rewrite <- app_assoc; cbn [app]; reflexivity|]);
      repeat split; try reflexivity; left; repeat split; reflexivity. }
  unfold bind at 1. unfold gpr_malloc_state, bind at 1, emit at 1.
  unfold bind at 1.
  unfold grpc_tcp_server_create, grpc_server_get_channel_args.
  unfold bind at 1. unfold emit at 1.
  destruct (tcp_server_create env (server_channel_args srv)) as [e|ts] eqn:Hcreate.
  { early_failure_goal w sc0;
      (eexists; eexists; split; [reflexivity|];
       split; [cbn [trace]; repeat rewrite <- app_assoc; cbn [app]; reflexivity|]);
      repeat split; try reflexivity; right; repeat split; reflexivity. }
  exfalso. destruct Hfail as [Hf|[[e Hf]|[e Hf]]]; discriminate.
Qed.

Lemma bind_failure_before_listener_witness :
  exists w' evs,
    grpc_server_add_secure_http2_port sample_failing_connector_env 11 "localhost:443"
      (Some sample_credentials) (initial_world 100 sample_time) = Ok 0 w'
    /\ trace w' = trace (initial_world 100 sample_time) ++ evs
    /\ filter is_add_listener evs = []
    /\ filter is_credentials_ref evs = []
    /\ filter is_tcp_server_unref evs = []
    /\ tcp_refs w' = tcp_refs (initial_world 100 sample_time)
    /\ filter is_connector_unref evs
       = (if is_null (snd (create_security_connector sample_failing_connector_env
                             sample_credentials))
          then [] else [E_security_connector_unref
                          (snd (create_security_connector sample_failing_connector_env
                                  sample_credentials))])
    /\ List.length (filter is_error_log evs) = 1%nat
    /\ ((filter is_malloc_state evs = [] /\ filter is_free_state evs = []
         /\ listener w' = listener (initial_world 100 sample_time))
        \/ (filter is_malloc_state evs = [E_malloc_state]
            /\ filter is_free_state evs = [E_free_state]
            /\ listener w' = None)).
Proof.
  apply (bind_failure_before_listener sample_failing_connector_env 11 "localhost:443"
           sample_credentials (initial_world 100 sample_time)).
  left. reflexivity.
Defined.

(** X12. When the credentials cannot produce a security connector the
    binder does not resolve the address, allocates no state and creates no
    listener: what it logs is the error that names the credential type and
    carries the security status. *)
Theorem bind_reports_credential_type (env : bind_env) (srv : ptr) (addr : string)
  (c : grpc_server_credentials) (w : world) :
  fst (create_security_connector env c) = GRPC_SECURITY_ERROR ->
  exists w' evs,
    grpc_server_add_secure_http2_port env srv addr (Some c) w = Ok 0 w'
    /\ trace w' = trace w ++ evs
    /\ filter is_log evs
       = [E_log GPR_ERROR "%s"
            (error_set_int
               (error_create
                  ("Unable to create secure server with credentials of type "
                   ++ type c ++ ".")%string [])
               GRPC_ERROR_INT_SECURITY_STATUS 1)]
    /\ filter is_resolve evs = []
    /\ filter is_malloc_state evs = []
    /\ filter is_tcp_server_create evs = []
    /\ listener w' = listener w.
Proof.
  intros Hfail.
  destruct (create_security_connector env c) as [status sc0] eqn:Hconn.
  cbn [fst] in Hfail. subst status.
  unfold grpc_server_add_secure_http2_port.
  unfold bind at 1. unfold emit at 1. rewrite Hconn.
  early_failure_goal w sc0;
    (eexists; eexists; split; [reflexivity|];
       split; [cbn [trace]; repeat rewrite <- app_assoc; cbn [app]; reflexivity|]);
    repeat split; reflexivity.
Qed.

Lemma bind_reports_credential_type_witness :
  exists w' evs,
    grpc_server_add_secure_http2_port sample_failing_connector_env 11 "localhost:443"
      (Some sample_credentials) (initial_world 100 sample_time) = Ok 0 w'
    /\ trace w' = trace (initial_world 100 sample_time) ++ evs
    /\ filter is_log evs
       = [E_log GPR_ERROR "%s"
            (error_set_int
               (error_create
                  ("Unable to create secure server with credentials of type "
                   ++ type sample_credentials ++ ".")%string [])
               GRPC_ERROR_INT_SECURITY_STATUS 1)]
    /\ filter is_resolve evs = []
    /\ filter is_malloc_state evs = []
    /\ filter is_tcp_server_create evs = []
    /\ listener w' = listener (initial_world 100 sample_time).
Proof.
  apply (bind_reports_credential_type sample_failing_connector_env 11 "localhost:443"
           sample_credentials (initial_world 100 sample_time)).
  reflexivity.
Defined.

Lemma none_succeeded (rs : list (grpc_error + Z)) :
  successes rs = [] -> map error_slot rs = map Some (failed rs).
Proof.
  induction rs as [|[e|p] rest IH]; simpl; intros H; [reflexivity| |discriminate].
  f_equal. apply IH. exact H.
Qed.

(** X13. A bind call in which the listener is created and no address binds
    returns 0 having released the binding reference only: it leaves the
    state, the connector and the credentials reference to the listener's
    shutdown closure. When that closure then runs it passes its assertion
    (the state was made with the flag set), and over the two together the
    connector is created and released once, the credentials are referenced
    and released once, the state is allocated and freed once, and every
    per-address error is dropped once. *)
Theorem failed_bind_is_finished_by_shutdown_closure (env : bind_env) (srv : ptr)
  (addr : string) (c : grpc_server_credentials) (conn ts : ptr) (addrs : list Z)
  (w : world) (error : option grpc_error) :
  create_security_connector env c = (GRPC_SECURITY_OK, conn) ->
  blocking_resolve_address env addr "https" = inr addrs ->
  tcp_server_create env (server_channel_args srv) = inr ts ->
  ts <> NULL ->
  let rs := port_results env ts addrs 0 in
  successes rs = [] ->
  exists w1 w2 evs,
    grpc_server_add_secure_http2_port env srv addr (Some c) w = Ok 0 w1
    /\ listener w1 = Some (bound_state srv ts conn c)
    /\ tcp_refs w1 = 0%nat
    /\ filter is_connector_unref (trace w1) = filter is_connector_unref (trace w)
    /\ filter is_free_state (trace w1) = filter is_free_state (trace w)
    /\ tcp_server_shutdown_complete error w1 = Ok tt w2
    /\ listener w2 = None
    /\ trace w2 = trace w ++ evs
    /\ filter is_connector_create evs = [E_security_connector_create (creds_ptr c)]
    /\ filter is_connector_unref evs = [E_security_connector_unref conn]
    /\ filter is_credentials_ref evs = [E_credentials_ref (creds_ptr c)]
    /\ filter is_credentials_unref evs = [E_credentials_unref (creds_ptr c)]
    /\ filter is_malloc_state evs = [E_malloc_state]
    /\ filter is_free_state evs = [E_free_state]
    /\ filter is_tcp_server_unref evs = [E_tcp_server_unref ts]
    /\ filter is_add_listener evs = []
    /\ filter is_error_unref evs
       = map E_error_unref (map Some (failed rs))
         ++ [E_error_unref
               (Some (no_address_added (List.length addrs) (map Some (failed rs))))].
Proof.
  intros Hconn Hres Hcreate Hts rs Hnone.
  assert (Hscan : scan_ports rs (-1) 0 [] = Some (-1, 0%nat, map Some (failed rs))).
  { rewrite (scan_ports_agree 0 rs) by (try rewrite Hnone; auto).
    rewrite Hnone, (none_succeeded rs Hnone). reflexivity. }
  rewrite (bind_reaches_loop env srv addr c conn ts addrs w Hconn Hres Hcreate).
  fold rs. rewrite Hscan. cbv zeta. cbn [Nat.eqb].
  rewrite error_path_after_listener by exact Hts.
  eexists. eexists. eexists.
  split; [reflexivity|]. split; [reflexivity|]. split; [reflexivity|].
  cbn [trace after_loop].
  split.
  { rewrite !filter_app, filter_loop_events by reflexivity.
    rewrite filter_error_unref by reflexivity. simpl. now rewrite !app_nil_r. }
  split.
  { rewrite !filter_app, filter_loop_events by reflexivity.
    rewrite filter_error_unref by reflexivity. simpl. now rewrite !app_nil_r. }
  split; [apply tcp_server_shutdown_complete_runs
            with (s := bound_state srv ts conn c); reflexivity|].
  split; [reflexivity|].
  split; [cbn [trace]; repeat rewrite <- app_assoc; reflexivity|].
  unfold shutdown_complete_events, destroy_done_events. cbn [bound_state
    pending_handshake_mgrs server_destroy_listener_done sc creds map app].
  rewrite !filter_app, !filter_loop_events by reflexivity.
  rewrite filter_error_unref_all.
  rewrite !filter_error_unref by reflexivity.
  repeat split; reflexivity.
Qed.

Lemma failed_bind_is_finished_by_shutdown_closure_witness :
  let rs := port_results sample_failing_env 12 [1; 2] 0 in
  exists w1 w2 evs,
    grpc_server_add_secure_http2_port sample_failing_env 11 "localhost:443"
      (Some sample_credentials) (initial_world 100 sample_time) = Ok 0 w1
    /\ listener w1 = Some (bound_state 11 12 13 sample_credentials)
    /\ tcp_refs w1 = 0%nat
    /\ filter is_connector_unref (trace w1)
       = filter is_connector_unref (trace (initial_world 100 sample_time))
    /\ filter is_free_state (trace w1)
       = filter is_free_state (trace (initial_world 100 sample_time))
    /\ tcp_server_shutdown_complete None w1 = Ok tt w2
    /\ listener w2 = None
    /\ trace w2 = trace (initial_world 100 sample_time) ++ evs
    /\ filter is_connector_create evs
       = [E_security_connector_create (creds_ptr sample_credentials)]
    /\ filter is_connector_unref evs = [E_security_connector_unref 13]
    /\ filter is_credentials_ref evs = [E_credentials_ref (creds_ptr sample_credentials)]
    /\ filter is_credentials_unref evs
       = [E_credentials_unref (creds_ptr sample_credentials)]
    /\ filter is_malloc_state evs = [E_malloc_state]
    /\ filter is_free_state evs = [E_free_state]
    /\ filter is_tcp_server_unref evs = [E_tcp_server_unref 12]
    /\ filter is_add_listener evs = []
    /\ filter is_error_unref evs
       = map E_error_unref (map Some (failed rs))
         ++ [E_error_unref
               (Some (no_address_added (List.length [1; 2]) (map Some (failed rs))))].
Proof.
  apply (failed_bind_is_finished_by_shutdown_closure sample_failing_env 11
           "localhost:443" sample_credentials 13 12 [1; 2]
           (initial_world 100 sample_time) None);
    try reflexivity.
  discriminate.
Defined.

(** ** The callbacks in steps *)

Lemma on_accept_in_steps (tcp pollset acc : ptr) (w : world) :
  on_accept tcp pollset acc w = on_accept_stepwise tcp pollset acc w.
Proof.
  unfold on_accept, on_accept_stepwise, on_accept_locked, on_accept_reject,
    on_accept_ref, on_accept_handshake.
  destruct w as [[st|] wr wn wc wt]; [|reflexivity].
  cbv [bind ret emit get modify gpr_mu_lock gpr_mu_unlock grpc_endpoint_destroy
       grpc_handshake_manager_create grpc_tcp_server_ref gpr_now
       pending_handshake_manager_add_locked
       with_trace with_listener with_tcp_refs with_next_handshake_mgr
       listener tcp_refs next_handshake_mgr clock trace].
  destruct (shutdown st); reflexivity.
Qed.

Lemma on_handshake_done_in_steps (a : grpc_handshaker_args)
  (error : option grpc_error) (w : world) :
  on_handshake_done a error w = on_handshake_done_stepwise a error w.
Proof.
  unfold on_handshake_done, on_handshake_done_stepwise, on_handshake_done_locked,
    on_handshake_done_release.
  destruct w as [[st|] wr wn wc wt]; destruct error as [e|]; try reflexivity;
    cbv [bind ret emit get modify gpr_mu_lock gpr_mu_unlock gpr_log
         grpc_endpoint_destroy grpc_handshake_manager_destroy
         grpc_channel_args_destroy grpc_create_chttp2_transport
         grpc_tcp_server_unref pending_handshake_manager_remove_locked
         with_trace with_listener with_tcp_refs with_next_handshake_mgr
         listener tcp_refs next_handshake_mgr clock trace];
    try reflexivity.
  destruct (shutdown st); reflexivity.
Qed.

Lemma server_start_listener_in_steps (pollsets : list ptr) (w : world) :
  server_start_listener pollsets w = server_start_listener_stepwise pollsets w.
Proof.
  unfold server_start_listener, server_start_listener_stepwise,
    server_start_listener_locked, server_start_listener_listen.
  destruct w as [[st|] wr wn wc wt]; reflexivity.
Qed.

Lemma server_destroy_listener_in_steps (d : option grpc_closure) (w : world) :
  server_destroy_listener d w = server_destroy_listener_stepwise d w.
Proof.
  unfold server_destroy_listener, server_destroy_listener_stepwise,
    server_destroy_listener_locked, server_destroy_listener_release.
  destruct w as [[st|] wr wn wc wt]; reflexivity.
Qed.

(** What each step does to a world whose listener state exists. *)

Lemma on_accept_locked_rejects (w : world) (st : server_secure_state) :
  listener w = Some st -> shutdown st = true ->
  on_accept_locked w = Ok None (with_trace (trace w ++ [E_mu_lock; E_mu_unlock]) w).
Proof.
  intros Hl Hs. unfold on_accept_locked. run_world w. rewrite Hs. simpl.
  flatten_trace. reflexivity.
Qed.

Lemma on_accept_locked_registers (w : world) (st : server_secure_state) :
  listener w = Some st -> shutdown st = false ->
  on_accept_locked w
  = Ok (Some (next_handshake_mgr w))
      {| listener := Some (with_pending_handshake_mgrs
                             (next_handshake_mgr w :: pending_handshake_mgrs st) st);
         tcp_refs := tcp_refs w;
         next_handshake_mgr := next_handshake_mgr w + 1;
         clock := clock w;
         trace := trace w ++ [E_mu_lock;
                              E_handshake_manager_create (next_handshake_mgr w);
                              E_mu_unlock] |}.
Proof.
  intros Hl Hs. unfold on_accept_locked. run_world w. rewrite Hs. simpl.
  flatten_trace. reflexivity.
Qed.

Lemma on_accept_ref_runs (w : world) (st : server_secure_state) :
  listener w = Some st ->
  on_accept_ref w
  = Ok tt {| listener := listener w; tcp_refs := S (tcp_refs w);
             next_handshake_mgr := next_handshake_mgr w; clock := clock w;
             trace := trace w ++ [E_tcp_server_ref (tcp_server st)] |}.
Proof. intros Hl. unfold on_accept_ref. run_world w. reflexivity. Qed.

Lemma on_accept_handshake_runs (w : world) (st : server_secure_state)
  (tcp pollset acc mgr : ptr) :
  listener w = Some st ->
  on_accept_handshake tcp pollset acc mgr w
  = Ok tt
      (with_trace
         (trace w
          ++ [E_create_handshakers (sc st) mgr;
              E_do_handshake mgr tcp (server_channel_args (server st))
                (gpr_time_add
                   {| tv_sec := tv_sec (clock w); tv_nsec := tv_nsec (clock w);
                      clock_type := GPR_CLOCK_MONOTONIC |}
                   (gpr_time_from_seconds 120 GPR_TIMESPAN))
                acc on_handshake_done_cb
                {| accepting_pollset := pollset; acceptor := acc;
                   handshake_mgr := mgr |}]) w).
Proof.
  intros Hl. unfold on_accept_handshake. run_world w. flatten_trace. reflexivity.
Qed.

Lemma on_handshake_done_locked_runs (w : world) (st : server_secure_state)
  (a : grpc_handshaker_args) (error : option grpc_error) :
  listener w = Some st ->
  on_handshake_done_locked a error w
  = Ok tt
      {| listener := Some (with_pending_handshake_mgrs
                             (remove_node (handshake_mgr (user_data a))
                                          (pending_handshake_mgrs st)) st);
         tcp_refs := tcp_refs w;
         next_handshake_mgr := next_handshake_mgr w;
         clock := clock w;
         trace := trace w ++ outcome_events st a error ++ [E_mu_unlock] |}.
Proof.
  intros Hl. unfold on_handshake_done_locked, outcome_events. run_world w.
  destruct error as [e|]; simpl.
  - flatten_trace. reflexivity.
  - destruct (shutdown st); simpl; flatten_trace; reflexivity.
Qed.

Lemma on_handshake_done_release_runs (w : world) (st : server_secure_state)
  (a : grpc_handshaker_args) :
  listener w = Some st ->
  on_handshake_done_release a w
  = Ok tt
      {| listener := listener w; tcp_refs := Nat.pred (tcp_refs w);
         next_handshake_mgr := next_handshake_mgr w; clock := clock w;
         trace := trace w ++ [E_handshake_manager_destroy (handshake_mgr (user_data a));
                              E_tcp_server_unref (tcp_server st);
                              E_free_connection_state (user_data a);
                              E_channel_args_destroy (args a)] |}.
Proof.
  intros Hl. unfold on_handshake_done_release. run_world w.
  flatten_trace. reflexivity.
Qed.

Lemma server_start_listener_locked_runs (w : world) (st : server_secure_state) :
  listener w = Some st ->
  server_start_listener_locked w
  = Ok tt {| listener := Some (with_shutdown false st); tcp_refs := tcp_refs w;
             next_handshake_mgr := next_handshake_mgr w; clock := clock w;
             trace := trace w ++ [E_mu_lock; E_mu_unlock] |}.
Proof.
  intros Hl. unfold server_start_listener_locked. run_world w.
  flatten_trace. reflexivity.
Qed.

Lemma server_start_listener_listen_runs (w : world) (st : server_secure_state)
  (pollsets : list ptr) :
  listener w = Some st ->
  server_start_listener_listen pollsets w
  = Ok tt (with_trace (trace w ++ [E_tcp_server_start (tcp_server st) pollsets]) w).
Proof.
  intros Hl. unfold server_start_listener_listen. run_world w. reflexivity.
Qed.

Lemma server_destroy_listener_locked_runs (w : world) (st : server_secure_state)
  (d : option grpc_closure) :
  listener w = Some st ->
  server_destroy_listener_locked d w
  = Ok (tcp_server st)
      {| listener := Some (with_server_destroy_listener_done d (with_shutdown true st));
         tcp_refs := tcp_refs w;
         next_handshake_mgr := next_handshake_mgr w; clock := clock w;
         trace := trace w ++ [E_mu_lock; E_mu_unlock] |}.
Proof.
  intros Hl. unfold server_destroy_listener_locked. run_world w.
  flatten_trace. reflexivity.
Qed.

Lemma server_destroy_listener_release_runs (w : world) (ts : ptr) :
  server_destroy_listener_release ts w
  = Ok tt {| listener := listener w; tcp_refs := Nat.pred (tcp_refs w);
             next_handshake_mgr := next_handshake_mgr w; clock := clock w;
             trace := trace w ++ [E_tcp_server_shutdown_listeners ts;
                                  E_tcp_server_unref ts] |}.
Proof.
  unfold server_destroy_listener_release. destruct w as [wl wr wn wc wt].
  cbv [bind emit grpc_tcp_server_unref with_trace with_tcp_refs
       listener tcp_refs next_handshake_mgr clock trace].
  flatten_trace. reflexivity.
Qed.

Lemma on_accept_reject_runs (w : world) (tcp : ptr) :
  on_accept_reject tcp w = Ok tt (with_trace (trace w ++ [E_endpoint_destroy tcp]) w).
Proof. reflexivity. Qed.

Lemma steps_need_listener (w : world) :
  listener w = None ->
  on_accept_locked w = Fault
  /\ on_accept_ref w = Fault
  /\ (forall tcp pollset acc mgr, on_accept_handshake tcp pollset acc mgr w = Fault)
  /\ (forall a error, on_handshake_done_locked a error w = Fault)
  /\ (forall a, on_handshake_done_release a w = Fault)
  /\ server_start_listener_locked w = Fault
  /\ (forall pollsets, server_start_listener_listen pollsets w = Fault)
  /\ (forall d, server_destroy_listener_locked d w = Fault).
Proof.
  intros Hl. destruct w as [wl wr wn wc wt]. simpl in Hl. subst wl.
  repeat split; try reflexivity.
  intros a error. destruct error; reflexivity.
Qed.

(** ** The invariant of the life on several threads *)

Lemma pick_split {A : Type} (i : nat) (l : list A) (x : A) (others : list A) :
  pick i l = Some (x, others) ->
  exists before after, l = before ++ x :: after /\ others = before ++ after.
Proof.
  revert i x others. induction l as [|y rest IH]; intros i x others H; simpl in H.
  - discriminate.
  - destruct i as [|j].
    + inversion H; subst. exists [], others. auto.
    + destruct (pick j rest) as [[z rest']|] eqn:Hp; [|discriminate].
      inversion H; subst.
      destruct (IH j x rest' Hp) as (before & after & -> & ->).
      exists (y :: before), after. auto.
Qed.

Lemma remove_node_perm (m : ptr) (l : list ptr) :
  In m l -> Permutation l (m :: remove_node m l).
Proof.
  induction l as [|x rest IH]; intros Hin; simpl in *; [contradiction|].
  destruct (x =? m) eqn:E.
  - apply Z.eqb_eq in E. subst. reflexivity.
  - apply Z.eqb_neq in E. destruct Hin as [Hx|Hin]; [contradiction|].
    eapply perm_trans; [apply perm_skip, IH, Hin|apply perm_swap].
Qed.

Lemma take_handshake_perm (mgr : ptr) (l : list pending_handshake)
  (h : pending_handshake) (rest : list pending_handshake) :
  take_handshake mgr l = Some (h, rest) ->
  Permutation (map hs_mgr l) (mgr :: map hs_mgr rest).
Proof.
  revert h rest. induction l as [|x xs IH]; intros h rest H; simpl in *; [discriminate|].
  destruct (hs_mgr x =? mgr) eqn:E.
  - inversion H; subst. apply Z.eqb_eq in E. rewrite E. reflexivity.
  - destruct (take_handshake mgr xs) as [[found rest']|]; [|discriminate].
    inversion H; subst. simpl.
    eapply perm_trans; [apply perm_skip, (IH h rest' eq_refl)|apply perm_swap].
Qed.

Lemma initial_threads_system_inv (first_mgr : ptr) (t : gpr_timespec) :
  threads_inv (initial_threads_system first_mgr t).
Proof. exact I. Qed.

Ltac count_threads :=
  do 3 (rewrite ?filter_app, ?length_app in *;
        cbn [filter holds_ref List.length] in *);
  lia.

Lemma step_inv (s s' : threads_system) (c : call) :
  threads_inv s -> step s c = Some s' -> threads_inv s'.
Proof.
  destruct s as [w ths fl held bd]. unfold threads_inv, step.
  cbn [t_world t_threads t_in_flight t_ref_held t_bound].
  intros Hinv Hrun.
  destruct c as [t|env srv addr c|pollsets|tcp pollset acc|a error|d|i|error].
  - (* tick *)
    inversion Hrun; subst; clear Hrun. cbn [t_world t_threads t_in_flight t_ref_held
      t_bound with_clock listener tcp_refs next_handshake_mgr].
    destruct (listener w); exact Hinv.
  - (* bind *)
    destruct bd; [discriminate|].
    destruct (listener w) as [st|] eqn:Hl.
    { destruct Hinv as [Hb _]. discriminate. }
    destruct (grpc_server_add_secure_http2_port env srv addr c w) as [p w'| |] eqn:Hbind;
      simpl in Hrun; try discriminate.
    inversion Hrun; subst; clear Hrun.
    cbn [t_world t_threads t_in_flight t_ref_held t_bound].
    destruct (listener w') as [st'|] eqn:Hl'; [|exact I].
    destruct (bind_outcome env srv addr c w w' p Hl Hbind st' Hl')
      as (Hsh & Hpend & Hrefs & _).
    rewrite Hpend. simpl. repeat split; auto; try constructor.
    destruct (tcp_refs w') as [|[|n]]; simpl; try reflexivity; lia.
  - (* start: the part under the mutex *)
    destruct held; [|discriminate].
    destruct (listener w) as [st|] eqn:Hl.
    2:{ destruct (steps_need_listener w Hl) as (_ & _ & _ & _ & _ & Hf & _).
        rewrite Hf in Hrun. discriminate. }
    rewrite (server_start_listener_locked_runs w st Hl) in Hrun.
    inversion Hrun; subst; clear Hrun.
    cbn [t_world t_threads t_in_flight t_ref_held t_bound listener tcp_refs
         next_handshake_mgr pending_handshake_mgrs with_shutdown flat_map thread_mgrs
         filter holds_ref app].
    destruct Hinv as (Hb & Hrefs & Hsh & Hperm & Hnd & Hlt & Hst).
    repeat split; auto; try discriminate.
  - (* accept: the part under the mutex *)
    destruct (listener w) as [st|] eqn:Hl.
    2:{ destruct (steps_need_listener w Hl) as (Hf & _).
        rewrite Hf in Hrun. discriminate. }
    destruct Hinv as (Hb & Hrefs & Hsh & Hperm & Hnd & Hlt & Hst).
    destruct (shutdown st) eqn:Hshut.
    + rewrite (on_accept_locked_rejects w st Hl Hshut) in Hrun.
      inversion Hrun; subst; clear Hrun.
      cbn [t_world t_threads t_in_flight t_ref_held t_bound listener tcp_refs
           next_handshake_mgr with_trace flat_map thread_mgrs filter holds_ref app].
      rewrite Hl. repeat split; auto.
    + rewrite (on_accept_locked_registers w st Hl Hshut) in Hrun.
      inversion Hrun; subst; clear Hrun.
      cbn [t_world t_threads t_in_flight t_ref_held t_bound listener tcp_refs
           next_handshake_mgr pending_handshake_mgrs with_pending_handshake_mgrs
           shutdown flat_map thread_mgrs filter holds_ref app].
      split; [first [reflexivity|assumption]|]. split; [exact Hrefs|].
      split; [intros Hh; specialize (Hsh Hh); congruence|].
      split; [apply perm_skip; exact Hperm|].
      split; [constructor; [|exact Hnd]; intros Hin;
              rewrite Forall_forall in Hlt; apply Hlt in Hin; lia|].
      split; [|exact Hst].
      constructor; [lia|]. eapply Forall_impl; [|exact Hlt].
      simpl. intros; lia.
  - (* handshake done: up to the release of the mutex *)
    destruct (take_handshake (handshake_mgr (user_data a)) fl) as [[h rest]|] eqn:Htake;
      [|discriminate].
    destruct (conn_eqb (hs_user_data h) (user_data a)); [|discriminate].
    destruct (listener w) as [st|] eqn:Hl.
    2:{ destruct (steps_need_listener w Hl) as (_ & _ & _ & Hf & _).
        rewrite Hf in Hrun. discriminate. }
    rewrite (on_handshake_done_locked_runs w st a error Hl) in Hrun.
    inversion Hrun; subst; clear Hrun.
    cbn [t_world t_threads t_in_flight t_ref_held t_bound listener tcp_refs
         next_handshake_mgr pending_handshake_mgrs with_pending_handshake_mgrs
         shutdown flat_map thread_mgrs filter holds_ref app].
    destruct Hinv as (Hb & Hrefs & Hsh & Hperm & Hnd & Hlt & Hst).
    destruct (take_handshake_some _ _ _ _ Htake) as (Hm & Hin & Hlen & Hrem & Hall).
    pose proof (take_handshake_perm _ _ _ _ Htake) as Hp.
    split; [first [reflexivity|assumption]|]. split; [rewrite Hrefs, Hlen; simpl; lia|].
    split; [exact Hsh|]. split; [|split; [|split]].
    + apply (Permutation_cons_inv (a := handshake_mgr (user_data a))).
      eapply perm_trans.
      { apply Permutation_sym, remove_node_perm.
        eapply Permutation_in; [apply Permutation_sym; exact Hperm|].
        apply in_or_app. right. eapply Permutation_in;
          [apply Permutation_sym; exact Hp|now left]. }
      eapply perm_trans; [exact Hperm|].
      eapply perm_trans; [apply Permutation_app_head; exact Hp|].
      apply Permutation_sym, Permutation_middle.
    + now apply remove_node_NoDup.
    + rewrite Forall_forall in *. intros x Hx. apply Hlt.
      eapply remove_node_incl; exact Hx.
    + apply Hall. exact Hst.
  - (* destroy: the part under the mutex *)
    destruct held; [|discriminate].
    destruct (listener w) as [st|] eqn:Hl.
    2:{ destruct (steps_need_listener w Hl) as (_ & _ & _ & _ & _ & _ & _ & Hf).
        rewrite Hf in Hrun. discriminate. }
    rewrite (server_destroy_listener_locked_runs w st d Hl) in Hrun.
    inversion Hrun; subst; clear Hrun.
    cbn [t_world t_threads t_in_flight t_ref_held t_bound listener tcp_refs
         next_handshake_mgr pending_handshake_mgrs with_shutdown
         with_server_destroy_listener_done shutdown flat_map thread_mgrs
         filter holds_ref app].
    destruct Hinv as (Hb & Hrefs & Hsh & Hperm & Hnd & Hlt & Hst).
    split; [first [reflexivity|assumption]|]. split; [rewrite Hrefs; simpl; lia|].
    repeat split; auto.
  - (* a thread runs its next step *)
    destruct (pick i ths) as [[t others]|] eqn:Hpick; [|discriminate].
    destruct (pick_split i ths t others Hpick) as (l1 & l2 & -> & ->).
    destruct (listener w) as [st|] eqn:Hl.
    2:{ destruct (steps_need_listener w Hl) as (_ & H2 & H3 & _ & H5 & _ & H7 & _).
        destruct t; cbn [resume] in Hrun;
          rewrite ?H2, ?H3, ?H5, ?H7 in Hrun; try discriminate.
        - inversion Hrun; subst; clear Hrun. cbn [t_world with_trace listener].
          rewrite Hl. exact I.
        - rewrite server_destroy_listener_release_runs in Hrun.
          inversion Hrun; subst; clear Hrun. cbn [t_world listener].
          rewrite Hl. exact I. }
    destruct Hinv as (Hb & Hrefs & Hsh & Hperm & Hnd & Hlt & Hst).
    rewrite flat_map_app in Hperm. cbn [flat_map] in Hperm.
    destruct t as [tcp pollset acc mgr|tcp pollset acc mgr|tcp|a|pollsets|ts];
      cbn [resume] in Hrun.
    + rewrite (on_accept_ref_runs w st Hl) in Hrun.
      inversion Hrun; subst; clear Hrun.
      cbn [t_world t_threads t_in_flight t_ref_held t_bound listener tcp_refs
           next_handshake_mgr cons_option flat_map thread_mgrs app].
      rewrite Hl, flat_map_app. cbn [thread_mgrs app] in *.
      split; [first [reflexivity|assumption]|]. split; [count_threads|]. split; [exact Hsh|].
      split; [|repeat split; assumption].
      eapply perm_trans; [exact Hperm|].
      rewrite <- !app_assoc. cbn [app]. apply Permutation_sym, Permutation_middle.
    + rewrite (on_accept_handshake_runs w st tcp pollset acc mgr Hl) in Hrun.
      cbn [finished] in Hrun.
      unfold handshake_started in Hrun. cbn [trace with_trace] in Hrun.
      rewrite rev_app_distr in Hrun. cbn [rev app handshake_of_event] in Hrun.
      inversion Hrun; subst; clear Hrun.
      cbn [t_world t_threads t_in_flight t_ref_held t_bound listener tcp_refs
           next_handshake_mgr cons_option with_trace map hs_mgr].
      rewrite Hl, flat_map_app. cbn [thread_mgrs app] in *.
      split; [first [reflexivity|assumption]|]. split; [count_threads|]. split; [exact Hsh|].
      split; [|split; [exact Hnd|split; [exact Hlt|]]].
      * eapply perm_trans; [exact Hperm|].
        eapply perm_trans;
          [apply Permutation_app_tail, Permutation_sym, Permutation_middle|].
        cbn [app]. apply Permutation_middle.
      * constructor; [reflexivity|exact Hst].
    + inversion Hrun; subst; clear Hrun.
      cbn [t_world t_threads t_in_flight t_ref_held t_bound listener tcp_refs
           next_handshake_mgr cons_option with_trace].
      rewrite Hl, flat_map_app. cbn [thread_mgrs app] in *.
      split; [first [reflexivity|assumption]|]. split; [count_threads|]. repeat split; assumption.
    + rewrite (on_handshake_done_release_runs w st a Hl) in Hrun.
      inversion Hrun; subst; clear Hrun.
      cbn [t_world t_threads t_in_flight t_ref_held t_bound listener tcp_refs
           next_handshake_mgr cons_option].
      rewrite Hl, flat_map_app. cbn [thread_mgrs app] in *.
      split; [first [reflexivity|assumption]|]. split; [count_threads|]. repeat split; assumption.
    + rewrite (server_start_listener_listen_runs w st pollsets Hl) in Hrun.
      inversion Hrun; subst; clear Hrun.
      cbn [t_world t_threads t_in_flight t_ref_held t_bound listener tcp_refs
           next_handshake_mgr cons_option with_trace].
      rewrite Hl, flat_map_app. cbn [thread_mgrs app] in *.
      split; [first [reflexivity|assumption]|]. split; [count_threads|]. repeat split; assumption.
    + rewrite server_destroy_listener_release_runs in Hrun.
      inversion Hrun; subst; clear Hrun.
      cbn [t_world t_threads t_in_flight t_ref_held t_bound listener tcp_refs
           next_handshake_mgr cons_option].
      rewrite Hl, flat_map_app. cbn [thread_mgrs app] in *.
      split; [first [reflexivity|assumption]|]. split; [count_threads|]. repeat split; assumption.
  - (* shutdown complete *)
    destruct (bd && (tcp_refs w =? 0)%nat && _); [|discriminate].
    destruct (listener w) as [st|] eqn:Hl.
    2:{ rewrite runs_need_listener_complete in Hrun by exact Hl. discriminate. }
    destruct (shutdown st) eqn:Hshut.
    2:{ rewrite (tcp_server_shutdown_complete_asserts w st) in Hrun by assumption.
        discriminate. }
    rewrite (tcp_server_shutdown_complete_runs w st) in Hrun by assumption.
    inversion Hrun; subst; clear Hrun. exact I.
Qed.

Lemma steps_inv (cs : list call) (s s' : threads_system) :
  threads_inv s -> steps s cs = Some s' -> threads_inv s'.
Proof.
  revert s. induction cs as [|c rest IH]; intros s Hinv Hrun; simpl in Hrun.
  - inversion Hrun; subst. exact Hinv.
  - destruct (step s c) as [s1|] eqn:Hstep; [|discriminate].
    eapply IH; [eapply step_inv; eassumption|exact Hrun].
Qed.

Lemma steps_from_initial_inv (first_mgr : ptr) (t : gpr_timespec) (cs : list call)
  (s : threads_system) :
  steps (initial_threads_system first_mgr t) cs = Some s -> threads_inv s.
Proof. apply steps_inv, initial_threads_system_inv. Qed.

Lemma steps_app (cs1 cs2 : list call) (s : threads_system) :
  steps s (cs1 ++ cs2)
  = match steps s cs1 with
    | Some s1 => steps s1 cs2
    | None => None
    end.
Proof.
  revert s. induction cs1 as [|c rest IH]; intros s; simpl; [reflexivity|].
  destruct (step s c); [apply IH|reflexivity].
Qed.

Lemma sample_threads_until_destroy_run :
  steps (initial_threads_system 100 sample_time) sample_threads_until_destroy
  = Some sample_threads_destroyed.
Proof. vm_compute. reflexivity. Qed.

Lemma sample_threads_after_destroy_run :
  steps sample_threads_destroyed sample_threads_after_destroy
  = Some sample_threads_drained.
Proof. vm_compute. reflexivity. Qed.

Lemma sample_threads_drained_run :
  steps (initial_threads_system 100 sample_time)
    (sample_threads_until_destroy ++ sample_threads_after_destroy)
  = Some sample_threads_drained.
Proof.
  rewrite steps_app, sample_threads_until_destroy_run.
  exact sample_threads_after_destroy_run.
Qed.

(** ** Calls that run to their end are runs of steps *)

(** A call of the life in which every call runs to its end is a run of the
    steps of that call, with no step of another call in between. *)
Lemma run_op_in_steps (s s' : system) (o : op) :
  sys_inv s ->
  run_op s o = Some s' ->
  steps (threads_of s) (calls_of s o) = Some (threads_of s').
Proof.
  destruct s as [w fl held bd]. unfold run_op, calls_of, threads_of, shutdown_flag.
  cbn [sys_world in_flight listener_ref_held bound].
  intros Hinv Hrun.
  destruct o as [t|env srv addr c|pollsets|tcp pollset acc|a error|mgr buf|d|error].
  - (* tick *)
    inversion Hrun; subst; clear Hrun. reflexivity.
  - (* bind *)
    destruct bd; [discriminate|].
    cbn [steps step t_bound t_world].
    destruct (grpc_server_add_secure_http2_port env srv addr c w) as [p w'| |];
      cbn [completed finished] in *; try discriminate.
    inversion Hrun; subst; clear Hrun. reflexivity.
  - (* start *)
    destruct held; [|discriminate].
    destruct (listener w) as [st|] eqn:Hl.
    2:{ rewrite runs_need_listener_start in Hrun by exact Hl. discriminate. }
    rewrite server_start_listener_in_steps in Hrun.
    unfold server_start_listener_stepwise, bind in Hrun.
    rewrite (server_start_listener_locked_runs w st Hl) in Hrun.
    erewrite (server_start_listener_listen_runs _ (with_shutdown false st) pollsets) in Hrun by reflexivity.
    cbn [completed] in Hrun. inversion Hrun; subst; clear Hrun.
    cbn [steps step t_ref_held t_world t_threads t_in_flight t_bound].
    rewrite (server_start_listener_locked_runs w st Hl).
    cbn [finished t_world t_threads t_in_flight t_ref_held t_bound pick resume].
    erewrite (server_start_listener_listen_runs _ (with_shutdown false st) pollsets) by reflexivity.
    reflexivity.
  - (* accept *)
    destruct (0 <? tcp_refs w)%nat; [|discriminate].
    destruct (listener w) as [st|] eqn:Hl.
    2:{ rewrite runs_need_listener_accept in Hrun by exact Hl. discriminate. }
    rewrite on_accept_in_steps in Hrun.
    unfold on_accept_stepwise in Hrun. unfold bind at 1 in Hrun.
    destruct (shutdown st) eqn:Hshut.
    + rewrite (on_accept_locked_rejects w st Hl Hshut) in Hrun.
      rewrite on_accept_reject_runs in Hrun.
      cbn [completed] in Hrun. inversion Hrun; subst; clear Hrun.
      cbn [steps step t_ref_held t_world t_threads t_in_flight t_bound].
      rewrite (on_accept_locked_rejects w st Hl Hshut).
      cbn [finished t_world t_threads t_in_flight t_ref_held t_bound pick resume].
      rewrite on_accept_reject_runs.
      cbn [finished cons_option].
      unfold handshake_started. cbn [with_trace trace].
      rewrite rev_app_distr. reflexivity.
    + rewrite (on_accept_locked_registers w st Hl Hshut) in Hrun.
      unfold bind in Hrun.
      erewrite (on_accept_ref_runs _ _) in Hrun by reflexivity.
      erewrite (on_accept_handshake_runs _ _ tcp pollset acc _) in Hrun by reflexivity.
      cbn [completed] in Hrun. inversion Hrun; subst; clear Hrun.
      cbn [steps step t_ref_held t_world t_threads t_in_flight t_bound].
      rewrite (on_accept_locked_registers w st Hl Hshut).
      cbn [finished t_world t_threads t_in_flight t_ref_held t_bound pick resume].
      erewrite (on_accept_ref_runs _ _) by reflexivity.
      cbn [finished t_world t_threads t_in_flight t_ref_held t_bound pick resume
           cons_option].
      erewrite (on_accept_handshake_runs _ _ tcp pollset acc _) by reflexivity.
      reflexivity.
  - (* handshake done *)
    destruct (take_handshake (handshake_mgr (user_data a)) fl) as [[h rest]|] eqn:Htake;
      [|discriminate].
    destruct (conn_eqb (hs_user_data h) (user_data a)) eqn:Hconn; [|discriminate].
    destruct (hs_on_done h). cbn [invoke] in Hrun.
    destruct (listener w) as [st|] eqn:Hl.
    2:{ rewrite runs_need_listener_done in Hrun by exact Hl. discriminate. }
    rewrite on_handshake_done_in_steps in Hrun.
    unfold on_handshake_done_stepwise, bind in Hrun.
    rewrite (on_handshake_done_locked_runs w st a error Hl) in Hrun.
    erewrite (on_handshake_done_release_runs _ _ a) in Hrun by reflexivity.
    cbn [completed] in Hrun. inversion Hrun; subst; clear Hrun.
    cbn [steps step t_ref_held t_world t_threads t_in_flight t_bound].
    rewrite Htake, Hconn, (on_handshake_done_locked_runs w st a error Hl).
    cbn [finished t_world t_threads t_in_flight t_ref_held t_bound pick resume].
    erewrite (on_handshake_done_release_runs _ _ a) by reflexivity.
    reflexivity.
  - (* handshake timeout *)
    destruct (take_handshake mgr fl) as [[h rest]|] eqn:Htake; [|discriminate].
    destruct (gpr_time_lt (hs_deadline h) (clock w)) eqn:Hlate; [|discriminate].
    unfold handshake_deadline_exceeded in Hrun. rewrite Hlate in Hrun.
    destruct (hs_on_done h). cbn [invoke] in Hrun.
    destruct (listener w) as [st|] eqn:Hl.
    2:{ rewrite runs_need_listener_done in Hrun by exact Hl. discriminate. }
    unfold sys_inv in Hinv. cbn [sys_world in_flight] in Hinv. rewrite Hl in Hinv.
    destruct Hinv as (_ & _ & _ & _ & _ & _ & Hst & _).
    destruct (take_handshake_some _ _ _ _ Htake) as (Hm & Hin & _).
    rewrite Forall_forall in Hst. pose proof (Hst h Hin) as Hh.
    unfold started_by_accept in Hh.
    set (a := {| endpoint := hs_endpoint h; args := hs_args h;
                 read_buffer := buf; user_data := hs_user_data h |}) in *.
    rewrite on_handshake_done_in_steps in Hrun.
    unfold on_handshake_done_stepwise, bind in Hrun.
    rewrite (on_handshake_done_locked_runs w st a _ Hl) in Hrun.
    erewrite (on_handshake_done_release_runs _ _ a) in Hrun by reflexivity.
    cbn [completed] in Hrun. inversion Hrun; subst; clear Hrun.
    cbn [steps step t_ref_held t_world t_threads t_in_flight t_bound].
    change (user_data a) with (hs_user_data h). rewrite Hh, Htake, conn_eqb_refl.
    rewrite (on_handshake_done_locked_runs w st a _ Hl).
    cbn [finished t_world t_threads t_in_flight t_ref_held t_bound pick resume].
    erewrite (on_handshake_done_release_runs _ _ a) by reflexivity.
    change (user_data a) with (hs_user_data h). rewrite Hh.
    reflexivity.
  - (* destroy *)
    destruct held; [|discriminate].
    destruct (listener w) as [st|] eqn:Hl.
    2:{ rewrite runs_need_listener_destroy in Hrun by exact Hl. discriminate. }
    rewrite server_destroy_listener_in_steps in Hrun.
    unfold server_destroy_listener_stepwise, bind in Hrun.
    rewrite (server_destroy_listener_locked_runs w st d Hl) in Hrun.
    rewrite server_destroy_listener_release_runs in Hrun.
    cbn [completed] in Hrun. inversion Hrun; subst; clear Hrun.
    cbn [steps step t_ref_held t_world t_threads t_in_flight t_bound].
    rewrite (server_destroy_listener_locked_runs w st d Hl).
    cbn [finished t_world t_threads t_in_flight t_ref_held t_bound pick resume].
    rewrite server_destroy_listener_release_runs.
    reflexivity.
  - (* shutdown complete *)
    cbn [steps step t_ref_held t_world t_threads t_in_flight t_bound forallb].
    rewrite andb_true_r.
    destruct (bd && (tcp_refs w =? 0)%nat)%bool; [|discriminate].
    destruct (tcp_server_shutdown_complete error w) as [[] w'| |];
      cbn [completed finished] in *; try discriminate.
    inversion Hrun; subst; clear Hrun. reflexivity.
Qed.

(** Every life in which each call runs to its end before the next begins is
    one of the lives on several threads. *)
Lemma run_ops_in_steps (ops : list op) (s s' : system) :
  sys_inv s ->
  run_ops s ops = Some s' ->
  exists cs, steps (threads_of s) cs = Some (threads_of s').
Proof.
  revert s. induction ops as [|o rest IH]; intros s Hinv Hrun; simpl in Hrun.
  - inversion Hrun; subst. exists []. reflexivity.
  - destruct (run_op s o) as [s1|] eqn:Hstep; [|discriminate].
    destruct (IH s1 (run_op_inv s s1 o Hinv Hstep) Hrun) as (cs & Hcs).
    exists (calls_of s o ++ cs).
    rewrite steps_app, (run_op_in_steps s s1 o Hinv Hstep). exact Hcs.
Qed.

Lemma reachable_in_steps (first_mgr : ptr) (t : gpr_timespec) (ops : list op)
  (s : system) :
  run_ops (initial_system first_mgr t) ops = Some s ->
  exists cs, steps (initial_threads_system first_mgr t) cs = Some (threads_of s).
Proof.
  intros Hrun.
  apply (run_ops_in_steps ops (initial_system first_mgr t) s
           (initial_system_inv first_mgr t) Hrun).
Qed.

(** ** The registry and the reference count on several threads *)

(** X14. However the steps of the callbacks interleave (the collaborators
    calling as the spec has them call), while the listener state exists the
    registry holds, in some order and none twice, the managers registered by
    the accepts that have not yet handed theirs over and those of the
    handshakes in flight; the reference count is the binding reference while
    held, one per thread that has taken a reference and not yet released it
    or handed it over, and one per handshake in flight; and the next manager
    to be created is not in the registry. *)
Theorem registry_tracks_accepts_and_handshakes (first_mgr : ptr) (t : gpr_timespec)
  (cs : list call) (s : threads_system) (st : server_secure_state) :
  steps (initial_threads_system first_mgr t) cs = Some s ->
  listener (t_world s) = Some st ->
  Permutation (pending_handshake_mgrs st)
    (flat_map thread_mgrs (t_threads s) ++ map hs_mgr (t_in_flight s))
  /\ NoDup (pending_handshake_mgrs st)
  /\ tcp_refs (t_world s)
     = ((if t_ref_held s then 1 else 0)
        + List.length (filter holds_ref (t_threads s))
        + List.length (t_in_flight s))%nat
  /\ ~ In (next_handshake_mgr (t_world s)) (pending_handshake_mgrs st).
Proof.
  intros Hrun Hl. apply steps_from_initial_inv in Hrun.
  unfold threads_inv in Hrun. rewrite Hl in Hrun.
  destruct Hrun as (_ & Hrefs & _ & Hperm & Hnd & Hlt & _).
  repeat split; try assumption.
  intros Hin. rewrite Forall_forall in Hlt. apply Hlt in Hin. lia.
Qed.

Lemma registry_tracks_accepts_and_handshakes_witness :
  Permutation (pending_handshake_mgrs sample_threads_destroyed_state)
    (flat_map thread_mgrs (t_threads sample_threads_destroyed)
     ++ map hs_mgr (t_in_flight sample_threads_destroyed))
  /\ NoDup (pending_handshake_mgrs sample_threads_destroyed_state)
  /\ tcp_refs (t_world sample_threads_destroyed)
     = ((if t_ref_held sample_threads_destroyed then 1 else 0)
        + List.length (filter holds_ref (t_threads sample_threads_destroyed))
        + List.length (t_in_flight sample_threads_destroyed))%nat
  /\ ~ In (next_handshake_mgr (t_world sample_threads_destroyed))
          (pending_handshake_mgrs sample_threads_destroyed_state).
Proof.
  apply (registry_tracks_accepts_and_handshakes 100 sample_time
           sample_threads_until_destroy sample_threads_destroyed
           sample_threads_destroyed_state).
  - vm_compute. reflexivity.
  - reflexivity.
Defined.

(** ** The report of the network listener on several threads *)




(** ** A listener that is shutting down, on several threads *)

Lemma handed_mgrs_app (l1 l2 : list event) :
  handed_mgrs (l1 ++ l2) = handed_mgrs l1 ++ handed_mgrs l2.
Proof. apply flat_map_app. Qed.

Lemma shutdown_complete_events_quiet (st : server_secure_state)
  (error : option grpc_error) :
  filter is_manager_create (shutdown_complete_events st error) = []
  /\ filter is_transport_call (shutdown_complete_events st error) = []
  /\ handed_mgrs (shutdown_complete_events st error) = [].
Proof.
  unfold shutdown_complete_events, destroy_done_events.
  assert (H1 : forall l, filter is_manager_create (map E_handshake_manager_shutdown l) = []).
  { induction l as [|x l IH]; simpl; [reflexivity|exact IH]. }
  assert (H2 : forall l, filter is_transport_call (map E_handshake_manager_shutdown l) = []).
  { induction l as [|x l IH]; simpl; [reflexivity|exact IH]. }
  assert (H3 : forall l, handed_mgrs (map E_handshake_manager_shutdown l) = []).
  { induction l as [|x l IH]; simpl; [reflexivity|exact IH]. }
  rewrite !filter_app, !handed_mgrs_app, H1, H2, H3.
  destruct (server_destroy_listener_done st); simpl; auto.
Qed.

(** One call on a listener that is bound and shutting down or gone. *)
Lemma shut_down_step (s s' : threads_system) (c : call) :
  t_bound s = true ->
  t_shutdown_flag s <> Some false ->
  is_call_start c = false ->
  step s c = Some s' ->
  t_bound s' = true
  /\ t_shutdown_flag s' <> Some false
  /\ exists evs,
       trace (t_world s') = trace (t_world s) ++ evs
       /\ filter is_manager_create evs = []
       /\ filter is_transport_call evs = []
       /\ Permutation (handed_mgrs evs ++ flat_map thread_mgrs (t_threads s'))
            (flat_map thread_mgrs (t_threads s)).
Proof.
  destruct s as [w ths fl held bd]. unfold step, t_shutdown_flag.
  cbn [t_world t_threads t_in_flight t_ref_held t_bound].
  intros Hb Hflag Hc Hrun. subst bd.
  destruct c as [t|env srv addr c|pollsets|tcp pollset acc|a error|d|i|error];
    try discriminate.
  - (* tick *)
    inversion Hrun; subst; clear Hrun.
    cbn [t_world t_threads t_bound with_clock listener trace].
    split; [reflexivity|]. split; [exact Hflag|].
    exists []. rewrite app_nil_r. repeat split; reflexivity.
  - (* accept *)
    destruct (listener w) as [st|] eqn:Hl.
    2:{ destruct (steps_need_listener w Hl) as (Hf & _).
        rewrite Hf in Hrun. discriminate. }
    destruct (shutdown st) eqn:Hshut; [|congruence].
    rewrite (on_accept_locked_rejects w st Hl Hshut) in Hrun.
    inversion Hrun; subst; clear Hrun.
    cbn [t_world t_threads t_bound with_trace listener trace flat_map thread_mgrs app].
    rewrite Hl, Hshut. split; [reflexivity|]. split; [exact Hflag|].
    eexists. split; [reflexivity|]. repeat split; reflexivity.
  - (* handshake done *)
    destruct (take_handshake (handshake_mgr (user_data a)) fl) as [[h rest]|];
      [|discriminate].
    destruct (conn_eqb (hs_user_data h) (user_data a)); [|discriminate].
    destruct (listener w) as [st|] eqn:Hl.
    2:{ destruct (steps_need_listener w Hl) as (_ & _ & _ & Hf & _).
        rewrite Hf in Hrun. discriminate. }
    destruct (shutdown st) eqn:Hshut; [|congruence].
    rewrite (on_handshake_done_locked_runs w st a error Hl) in Hrun.
    inversion Hrun; subst; clear Hrun.
    cbn [t_world t_threads t_bound listener trace flat_map thread_mgrs app
         with_pending_handshake_mgrs shutdown].
    rewrite Hshut. split; [reflexivity|]. split; [exact Hflag|].
    eexists. split; [reflexivity|].
    unfold outcome_events. rewrite Hshut.
    destruct error; repeat split; reflexivity.
  - (* destroy *)
    destruct held; [|discriminate].
    destruct (listener w) as [st|] eqn:Hl.
    2:{ destruct (steps_need_listener w Hl) as (_ & _ & _ & _ & _ & _ & _ & Hf).
        rewrite Hf in Hrun. discriminate. }
    rewrite (server_destroy_listener_locked_runs w st d Hl) in Hrun.
    inversion Hrun; subst; clear Hrun.
    cbn [t_world t_threads t_bound listener trace flat_map thread_mgrs app
         with_server_destroy_listener_done with_shutdown shutdown].
    split; [reflexivity|]. split; [discriminate|].
    eexists. split; [reflexivity|]. repeat split; reflexivity.
  - (* a thread runs its next step *)
    destruct (pick i ths) as [[t others]|] eqn:Hpick; [|discriminate].
    destruct (pick_split i ths t others Hpick) as (l1 & l2 & -> & ->).
    clear Hpick. rewrite flat_map_app. cbn [flat_map].
    destruct (listener w) as [st|] eqn:Hl.
    2:{ destruct (steps_need_listener w Hl) as (_ & H2 & H3 & _ & H5 & _ & H7 & _).
        destruct t; cbn [resume] in Hrun;
          rewrite ?H2, ?H3, ?H5, ?H7 in Hrun; try discriminate.
        - inversion Hrun; subst; clear Hrun.
          cbn [t_world t_threads t_bound with_trace listener trace cons_option
               thread_mgrs app].
          rewrite Hl. split; [reflexivity|]. split; [exact Hflag|].
          eexists. split; [reflexivity|].
          rewrite flat_map_app. repeat split; reflexivity.
        - rewrite server_destroy_listener_release_runs in Hrun.
          inversion Hrun; subst; clear Hrun.
          cbn [t_world t_threads t_bound listener trace cons_option thread_mgrs app].
          rewrite Hl. split; [reflexivity|]. split; [exact Hflag|].
          eexists. split; [reflexivity|].
          rewrite flat_map_app. repeat split; reflexivity. }
    destruct t as [tcp pollset acc mgr|tcp pollset acc mgr|tcp|a|pollsets|ts];
      cbn [resume] in Hrun.
    + rewrite (on_accept_ref_runs w st Hl) in Hrun.
      inversion Hrun; subst; clear Hrun.
      cbn [t_world t_threads t_bound listener trace cons_option flat_map
           thread_mgrs app].
      rewrite Hl. split; [reflexivity|]. split; [exact Hflag|].
      eexists. split; [reflexivity|].
      rewrite flat_map_app. cbn [handed_mgrs flat_map app].
      split; [reflexivity|]. split; [reflexivity|].
      apply Permutation_middle.
    + rewrite (on_accept_handshake_runs w st tcp pollset acc mgr Hl) in Hrun.
      cbn [finished] in Hrun.
      inversion Hrun; subst; clear Hrun.
      cbn [t_world t_threads t_bound with_trace listener trace cons_option
           thread_mgrs app].
      rewrite Hl. split; [reflexivity|]. split; [exact Hflag|].
      eexists. split; [reflexivity|].
      rewrite flat_map_app. cbn [handed_mgrs flat_map app].
      split; [reflexivity|]. split; [reflexivity|].
      apply Permutation_middle.
    + inversion Hrun; subst; clear Hrun.
      cbn [t_world t_threads t_bound with_trace listener trace cons_option
           thread_mgrs app].
      rewrite Hl. split; [reflexivity|]. split; [exact Hflag|].
      eexists. split; [reflexivity|].
      rewrite flat_map_app. repeat split; reflexivity.
    + rewrite (on_handshake_done_release_runs w st a Hl) in Hrun.
      inversion Hrun; subst; clear Hrun.
      cbn [t_world t_threads t_bound listener trace cons_option thread_mgrs app].
      rewrite Hl. split; [reflexivity|]. split; [exact Hflag|].
      eexists. split; [reflexivity|].
      rewrite flat_map_app. repeat split; reflexivity.
    + rewrite (server_start_listener_listen_runs w st pollsets Hl) in Hrun.
      inversion Hrun; subst; clear Hrun.
      cbn [t_world t_threads t_bound with_trace listener trace cons_option
           thread_mgrs app].
      rewrite Hl. split; [reflexivity|]. split; [exact Hflag|].
      eexists. split; [reflexivity|].
      rewrite flat_map_app. repeat split; reflexivity.
    + rewrite server_destroy_listener_release_runs in Hrun.
      inversion Hrun; subst; clear Hrun.
      cbn [t_world t_threads t_bound listener trace cons_option thread_mgrs app].
      rewrite Hl. split; [reflexivity|]. split; [exact Hflag|].
      eexists. split; [reflexivity|].
      rewrite flat_map_app. repeat split; reflexivity.
  - (* shutdown complete *)
    destruct (true && (tcp_refs w =? 0)%nat && _)%bool; [|discriminate].
    destruct (listener w) as [st|] eqn:Hl.
    2:{ rewrite runs_need_listener_complete in Hrun by exact Hl. discriminate. }
    destruct (shutdown st) eqn:Hshut; [|congruence].
    rewrite (tcp_server_shutdown_complete_runs w st error Hl Hshut) in Hrun.
    inversion Hrun; subst; clear Hrun.
    cbn [t_world t_threads t_bound listener trace].
    split; [reflexivity|]. split; [discriminate|].
    destruct (shutdown_complete_events_quiet st error) as (Q1 & Q2 & Q3).
    eexists. split; [reflexivity|]. rewrite Q1, Q2, Q3.
    repeat split; reflexivity.
Qed.

Lemma shut_down_steps (cs : list call) (s s' : threads_system) :
  t_bound s = true ->
  t_shutdown_flag s <> Some false ->
  forallb is_not_start cs = true ->
  steps s cs = Some s' ->
  t_bound s' = true
  /\ t_shutdown_flag s' <> Some false
  /\ exists evs,
       trace (t_world s') = trace (t_world s) ++ evs
       /\ filter is_manager_create evs = []
       /\ filter is_transport_call evs = []
       /\ Permutation (handed_mgrs evs ++ flat_map thread_mgrs (t_threads s'))
            (flat_map thread_mgrs (t_threads s)).
Proof.
  revert s. induction cs as [|c rest IH]; intros s Hb Hflag Hcs Hrun; simpl in *.
  - inversion Hrun; subst. split; [exact Hb|]. split; [exact Hflag|].
    exists []. rewrite app_nil_r. repeat split; reflexivity.
  - apply andb_true_iff in Hcs. destruct Hcs as [Hc Hrest].
    destruct (step s c) as [s1|] eqn:Hstep; [|discriminate].
    assert (Hc' : is_call_start c = false).
    { unfold is_not_start in Hc. now destruct (is_call_start c). }
    destruct (shut_down_step s s1 c Hb Hflag Hc' Hstep)
      as (Hb1 & Hflag1 & evs1 & T1 & M1 & C1 & P1).
    destruct (IH s1 Hb1 Hflag1 Hrest Hrun) as (Hb2 & Hflag2 & evs2 & T2 & M2 & C2 & P2).
    split; [exact Hb2|]. split; [exact Hflag2|].
    exists (evs1 ++ evs2). rewrite T2, T1, app_assoc.
    split; [reflexivity|].
    rewrite !filter_app, handed_mgrs_app, M1, M2, C1, C2.
    split; [reflexivity|]. split; [reflexivity|].
    eapply perm_trans; [|exact P1]. rewrite <- app_assoc.
    apply Permutation_app_head. exact P2.
Qed.

(** X16. However the steps of the callbacks interleave, from a point where
    the shutdown flag is set and for as long as [server_start_listener] is
    not begun again: the flag is not cleared; no handshake manager is created
    and no transport is created, registered or started; and the handshakes
    handed to the handshake manager are those of accepts that had registered
    their manager before that point and not yet handed it over, each at most
    once: their managers, with those of the accepts still on their way at the
    end, are the managers of the accepts on their way at that point. *)
Theorem shut_down_listener_starts_nothing_new (first_mgr : ptr) (t : gpr_timespec)
  (before after : list call) (s s' : threads_system) :
  steps (initial_threads_system first_mgr t) before = Some s ->
  t_shutdown_flag s = Some true ->
  forallb is_not_start after = true ->
  steps s after = Some s' ->
  t_shutdown_flag s' <> Some false
  /\ exists evs,
       trace (t_world s') = trace (t_world s) ++ evs
       /\ filter is_manager_create evs = []
       /\ filter is_transport_call evs = []
       /\ Permutation (handed_mgrs evs ++ flat_map thread_mgrs (t_threads s'))
            (flat_map thread_mgrs (t_threads s)).
Proof.
  intros Hbefore Hflag Hafter Hrun.
  apply steps_from_initial_inv in Hbefore.
  assert (Hb : t_bound s = true).
  { unfold threads_inv in Hbefore. unfold t_shutdown_flag in Hflag.
    destruct (listener (t_world s)); [tauto|discriminate]. }
  assert (Hflag' : t_shutdown_flag s <> Some false) by (rewrite Hflag; discriminate).
  destruct (shut_down_steps after s s' Hb Hflag' Hafter Hrun) as (_ & H).
  exact H.
Qed.

Lemma shut_down_listener_starts_nothing_new_witness :
  t_shutdown_flag sample_threads_drained <> Some false
  /\ exists evs,
       trace (t_world sample_threads_drained)
       = trace (t_world sample_threads_destroyed) ++ evs
       /\ filter is_manager_create evs = []
       /\ filter is_transport_call evs = []
       /\ Permutation
            (handed_mgrs evs ++ flat_map thread_mgrs (t_threads sample_threads_drained))
            (flat_map thread_mgrs (t_threads sample_threads_destroyed)).
Proof.
  apply (shut_down_listener_starts_nothing_new 100 sample_time
           sample_threads_until_destroy sample_threads_after_destroy
           sample_threads_destroyed sample_threads_drained).
  - vm_compute. reflexivity.
  - reflexivity.
  - reflexivity.
  - vm_compute. reflexivity.
Defined.

(** ** The port a bind call returns *)

(** X17. When a bind call in which at least one address binds returns, with
    successful bindings reporting ports other than [-1], then every
    successful binding reported the port it returns; the listener is
    registered once, its state holds the server, listener, connector and
    credentials it was made from, with an empty registry, no continuation
    and the flag set, and one reference to the credentials has been taken. *)
Theorem returned_port_is_every_binding_s_port (env : bind_env) (srv : ptr)
  (addr : string) (c : grpc_server_credentials) (conn ts : ptr) (addrs : list Z)
  (w w' : world) (port : Z) :
  create_security_connector env c = (GRPC_SECURITY_OK, conn) ->
  blocking_resolve_address env addr "https" = inr addrs ->
  tcp_server_create env (server_channel_args srv) = inr ts ->
  let rs := port_results env ts addrs 0 in
  Forall (fun p => p <> -1) (successes rs) ->
  successes rs <> [] ->
  grpc_server_add_secure_http2_port env srv addr (Some c) w = Ok port w' ->
  Forall (eq port) (successes rs)
  /\ port <> -1
  /\ listener w' = Some (bound_state srv ts conn c)
  /\ tcp_refs w' = 1%nat
  /\ exists evs,
       trace w' = trace w ++ evs
       /\ filter is_add_listener evs = [E_server_add_listener srv]
       /\ filter is_credentials_ref evs = [E_credentials_ref (creds_ptr c)]
       /\ filter is_error_log evs = [].
Proof.
  intros Hconn Hres Hcreate rs Hvalid Hsome Hrun.
  rewrite (bind_reaches_loop env srv addr c conn ts addrs w Hconn Hres Hcreate) in Hrun.
  fold rs in Hrun.
  destruct (scan_ports rs (-1) 0 []) as [[[port_num count] errors]|] eqn:Hscan;
    [|discriminate].
  assert (Hagree : ports_agree rs).
  { intros p q Hp Hq. destruct (Z.eq_dec p q) as [|Hne]; [assumption|].
    assert (Hdis : ports_disagree rs) by (exists p, q; auto).
    apply (scan_ports_unset rs Hvalid 0%nat []) in Hdis. congruence. }
  rewrite (scan_ports_agree (shared_port rs) rs (ports_agree_shared rs Hagree)
             (-1) 0%nat [] (or_introl eq_refl)) in Hscan.
  inversion Hscan; subst; clear Hscan.
  cbv zeta in Hrun. cbn [Nat.add] in Hrun.
  destruct (successes rs) as [|p rest] eqn:Hs; [contradiction|].
  cbn [List.length Nat.eqb] in Hrun.
  inversion Hrun; subst; clear Hrun.
  pose proof (ports_agree_shared rs Hagree) as Hshared. rewrite Hs in Hshared.
  assert (Hport : shared_port rs = p) by (unfold shared_port; now rewrite Hs).
  rewrite Hport in *.
  split; [exact Hshared|]. split; [now inversion Hvalid|].
  split; [reflexivity|]. split; [reflexivity|].
  eexists. split.
  { cbn [with_trace after_loop trace]. rewrite <- app_assoc. reflexivity. }
  rewrite !filter_app, !filter_loop_events by reflexivity.
  destruct (negb _); cbn [app];
    rewrite ?filter_app, ?filter_error_unref by reflexivity;
    repeat split; reflexivity.
Qed.

Lemma returned_port_is_every_binding_s_port_witness :
  Forall (eq 443) (successes (port_results sample_partial_env 12 [1; 2; 3] 0))
  /\ 443 <> -1
  /\ listener sample_bound_world = Some (bound_state 11 12 13 sample_credentials)
  /\ tcp_refs sample_bound_world = 1%nat
  /\ exists evs,
       trace sample_bound_world = trace (initial_world 100 sample_time) ++ evs
       /\ filter is_add_listener evs = [E_server_add_listener 11]
       /\ filter is_credentials_ref evs = [E_credentials_ref (creds_ptr sample_credentials)]
       /\ filter is_error_log evs = [].
Proof.
  apply (returned_port_is_every_binding_s_port sample_partial_env 11 "localhost:443"
           sample_credentials 13 12 [1; 2; 3] (initial_world 100 sample_time)
           sample_bound_world 443 eq_refl eq_refl eq_refl).
  - simpl. repeat constructor; discriminate.
  - discriminate.
  - reflexivity.
Defined.

(** ** The mutex *)

(** X18. Each callback takes the listener mutex once and releases it once on
    every path it has, the early return of [on_accept] included; a shutdown
    completion that passes its assertion locks, unlocks and then destroys the
    mutex. *)
Theorem callbacks_release_the_mutex (w : world) (st : server_secure_state) :
  listener w = Some st ->
  (forall tcp pollset acc,
     exists w' evs,
       on_accept tcp pollset acc w = Ok tt w'
       /\ trace w' = trace w ++ evs
       /\ filter is_mutex_call evs = [E_mu_lock; E_mu_unlock])
  /\ (forall a error,
        exists w' evs,
          on_handshake_done a error w = Ok tt w'
          /\ trace w' = trace w ++ evs
          /\ filter is_mutex_call evs = [E_mu_lock; E_mu_unlock])
  /\ (forall pollsets,
        exists w' evs,
          server_start_listener pollsets w = Ok tt w'
          /\ trace w' = trace w ++ evs
          /\ filter is_mutex_call evs = [E_mu_lock; E_mu_unlock])
  /\ (forall destroy_done,
        exists w' evs,
          server_destroy_listener destroy_done w = Ok tt w'
          /\ trace w' = trace w ++ evs
          /\ filter is_mutex_call evs = [E_mu_lock; E_mu_unlock])
  /\ (forall error,
        shutdown st = true ->
        exists w' evs,
          tcp_server_shutdown_complete error w = Ok tt w'
          /\ trace w' = trace w ++ evs
          /\ filter is_mutex_call evs = [E_mu_lock; E_mu_unlock; E_mu_destroy]).
Proof.
  intros Hl. split; [|split; [|split; [|split]]].
  - intros tcp pollset acc. destruct (shutdown st) eqn:Hs.
    + eexists. eexists. split; [apply (on_accept_rejects w st); assumption|].
      split; reflexivity.
    + eexists. eexists. split; [apply (on_accept_starts w st); assumption|].
      split; reflexivity.
  - intros a error. eexists. eexists.
    split; [apply (on_handshake_done_runs w st); exact Hl|].
    split; [reflexivity|].
    unfold outcome_events, cleanup_events.
    destruct error; [|destruct (shutdown st)]; reflexivity.
  - intros pollsets. eexists. eexists.
    split; [apply (server_start_listener_runs w st); exact Hl|].
    split; reflexivity.
  - intros d. eexists. eexists.
    split; [apply (server_destroy_listener_runs w st); exact Hl|].
    split; reflexivity.
  - intros error Hs. eexists. eexists.
    split; [apply (tcp_server_shutdown_complete_runs w st error Hl Hs)|].
    split; [reflexivity|].
    unfold shutdown_complete_events, destroy_done_events.
    rewrite !filter_app, !filter_map_manager_shutdown by reflexivity.
    destruct (server_destroy_listener_done st); reflexivity.
Qed.

Lemma callbacks_release_the_mutex_witness :
  (forall tcp pollset acc,
     exists w' evs,
       on_accept tcp pollset acc (sample_world true [7]) = Ok tt w'
       /\ trace w' = trace (sample_world true [7]) ++ evs
       /\ filter is_mutex_call evs = [E_mu_lock; E_mu_unlock])
  /\ (forall a error,
        exists w' evs,
          on_handshake_done a error (sample_world true [7]) = Ok tt w'
          /\ trace w' = trace (sample_world true [7]) ++ evs
          /\ filter is_mutex_call evs = [E_mu_lock; E_mu_unlock])
  /\ (forall pollsets,
        exists w' evs,
          server_start_listener pollsets (sample_world true [7]) = Ok tt w'
          /\ trace w' = trace (sample_world true [7]) ++ evs
          /\ filter is_mutex_call evs = [E_mu_lock; E_mu_unlock])
  /\ (forall destroy_done,
        exists w' evs,
          server_destroy_listener destroy_done (sample_world true [7]) = Ok tt w'
          /\ trace w' = trace (sample_world true [7]) ++ evs
          /\ filter is_mutex_call evs = [E_mu_lock; E_mu_unlock])
  /\ (forall error,
        shutdown (sample_state true [7]) = true ->
        exists w' evs,
          tcp_server_shutdown_complete error (sample_world true [7]) = Ok tt w'
          /\ trace w' = trace (sample_world true [7]) ++ evs
          /\ filter is_mutex_call evs = [E_mu_lock; E_mu_unlock; E_mu_destroy]).
Proof.
  apply (callbacks_release_the_mutex (sample_world true [7]) (sample_state true [7])).
  reflexivity.
Defined.
